(** * Screen-recorder session manager

    A shallow embedding of [components/VideoRecorder.tsx] together with the
    declarations of [types.ts] and [constants.ts] it uses.  The React
    component is a bundle of state slots ([useState]), mutable references
    ([useRef]) and event handlers; the handlers call browser interfaces
    (media capture, Web Audio, MediaRecorder, DOM) that may fail.

    - The component slots and the part of the browser the handlers touch
      are one explicit state, [St].
    - Handlers are written in a state-and-exception monad [M]: a JavaScript
      [throw] (or a rejected promise reaching an [await]) is [Thrown], and
      mutations made before the throw persist, as they do in JavaScript.
    - What the browser answers (which request is granted, whether a
      constructor throws, when a video element becomes ready) is read from
      an oracle, [Env].
    - [handle] runs an [async] handler to completion in one step.  The
      part "Handlers that wait" cuts the handlers at their [await]s and
      lets other events in between. *)

From Stdlib Require Import List String Ascii Arith Bool Lia.
Import ListNotations.
Local Open Scope string_scope.
Local Open Scope nat_scope.
Local Open Scope list_scope.

Set Implicit Arguments.

(** ** types.ts and constants.ts *)

Inductive RecorderStatus : Type := IDLE | RECORDING | PAUSED | REVIEW.

Record AnalysisResult : Type := {
  title : string;
  summary : string;
  tags : list string
}.

(** A [Blob] is its bytes and its MIME type; [new Blob(parts, {type})]
    concatenates the parts in order. *)
Record Blob : Type := {
  blobBytes : list Byte.byte;
  blobType : string
}.

Definition blobSize (b : Blob) : nat := List.length (blobBytes b).

Definition newBlob (parts : list Blob) (type : string) : Blob :=
  {| blobBytes := List.concat (map blobBytes parts); blobType := type |}.

(** [duration] is kept as the millisecond difference the source divides by
    1000; [url] is the handle [URL.createObjectURL] returns. *)
Record VideoMetadata : Type := {
  blob : Blob;
  url : nat;
  mimeType : string;
  duration : nat;
  timestamp : nat
}.

Definition SUPPORTED_MIME_TYPES : list string :=
  [ "video/mp4; codecs=avc1,opus";
    "video/mp4";
    "video/webm; codecs=vp9,opus";
    "video/webm" ].

(** ** Browser objects *)

Definition TrackId := nat.

(** A [MediaStream] object: [streamId] is its identity (JavaScript [===]),
    the tracks are shared by reference between streams. *)
Record MediaStream : Type := {
  streamId : nat;
  videoTracks : list TrackId;
  audioTracks : list TrackId
}.

Definition getTracks (st : MediaStream) : list TrackId :=
  videoTracks st ++ audioTracks st.

Definition sameObject (a b : MediaStream) : bool :=
  streamId a =? streamId b.

Record JsError : Type := { message : string }.

(** The closures pushed on [cleanupCallbackRef]: every one of them is
    [() => stream.getTracks().forEach(t => t.stop())] for some stream. *)
Inductive Disposer : Type :=
| StopTracks (st : MediaStream).

Inductive RecorderState : Type := Inactive | Recording | Paused.

(** A [MediaRecorder] with the two values its handlers close over. *)
Record MediaRecorder : Type := {
  recState : RecorderState;
  recStream : MediaStream;
  recMimeType : string
}.

Record VideoElement : Type := { srcObject : option MediaStream }.

(** An off-screen [<video>] made by [captureSnapshot]. *)
Record TempVideo : Type := {
  tempId : nat;
  tempSrcObject : option MediaStream;
  tempRemoved : bool
}.

Inductive NodeKind : Type :=
| DestinationNode
| SourceNode (input : MediaStream).

Record AudioNode : Type := {
  nodeId : nat;
  nodeContext : nat;
  nodeKind : NodeKind
}.

(** What the handlers do, in order: the calls that leave the component
    and the pushes on [cleanupCallbackRef]. *)
Inductive Effect : Type :=
| Register (d : Disposer)
| CallGetDisplayMedia
| CallGetUserMedia
| CallNewAudioContext (c : nat)
| CallCloseAudioContext (c : nat)
| CallCleanup (d : Disposer)
| CallSetInterval (id : nat)
| CallClearInterval (id : nat)
| CallNewMediaRecorder (st : MediaStream) (mime : string)
| CallRecorderStart
| CallRecorderStop
| CallDrawImage (width height : nat)
| CallSetError (e : option string)
| CallSetStatus (st : RecorderStatus)
| CallConsoleWarn (msg : string)
| CallConsoleError (msg : string).

(** ** State *)

(** The [useState] slots and [useRef] cells of the component. *)
Record Component : Type := {
  status : RecorderStatus;
  recordedData : option VideoMetadata;
  audioEnabled : bool;
  error : option string;
  recordingDuration : nat;
  isAnalyzing : bool;
  aiAnalysis : option AnalysisResult;
  mediaRecorderRef : option MediaRecorder;
  audioCtxRef : option nat;
  chunksRef : list Blob;
  videoPreviewRef : option VideoElement;
  timerIntervalRef : option nat;
  startTimeRef : nat;
  cleanupCallbackRef : list Disposer
}.

(** The browser side: [liveTracks] are the capture tracks (screen,
    system audio, microphone) whose [readyState] is "live"; [onended] the
    tracks carrying the component's [onended] handler. *)
Record Browser : Type := {
  nextId : nat;
  now : nat;
  liveTracks : list TrackId;
  onended : list TrackId;
  openContexts : list nat;
  audioNodes : list AudioNode;
  connections : list (nat * nat);
  tempVideos : list TempVideo;
  activeIntervals : list nat;
  trace : list Effect
}.

Record St : Type := { cmp : Component; brw : Browser }.

Definition upd_cmp (f : Component -> Component) (s : St) : St :=
  {| cmp := f (cmp s); brw := brw s |}.

Definition upd_brw (f : Browser -> Browser) (s : St) : St :=
  {| cmp := cmp s; brw := f (brw s) |}.

Definition with_status (v : RecorderStatus) (c : Component) : Component :=
  {| status := v; recordedData := recordedData c;
     audioEnabled := audioEnabled c; error := error c;
     recordingDuration := recordingDuration c; isAnalyzing := isAnalyzing c;
     aiAnalysis := aiAnalysis c; mediaRecorderRef := mediaRecorderRef c;
     audioCtxRef := audioCtxRef c; chunksRef := chunksRef c;
     videoPreviewRef := videoPreviewRef c;
     timerIntervalRef := timerIntervalRef c; startTimeRef := startTimeRef c;
     cleanupCallbackRef := cleanupCallbackRef c |}.

Definition with_recordedData (v : option VideoMetadata) (c : Component) : Component :=
  {| status := status c; recordedData := v;
     audioEnabled := audioEnabled c; error := error c;
     recordingDuration := recordingDuration c; isAnalyzing := isAnalyzing c;
     aiAnalysis := aiAnalysis c; mediaRecorderRef := mediaRecorderRef c;
     audioCtxRef := audioCtxRef c; chunksRef := chunksRef c;
     videoPreviewRef := videoPreviewRef c;
     timerIntervalRef := timerIntervalRef c; startTimeRef := startTimeRef c;
     cleanupCallbackRef := cleanupCallbackRef c |}.

Definition with_audioEnabled (v : bool) (c : Component) : Component :=
  {| status := status c; recordedData := recordedData c;
     audioEnabled := v; error := error c;
     recordingDuration := recordingDuration c; isAnalyzing := isAnalyzing c;
     aiAnalysis := aiAnalysis c; mediaRecorderRef := mediaRecorderRef c;
     audioCtxRef := audioCtxRef c; chunksRef := chunksRef c;
     videoPreviewRef := videoPreviewRef c;
     timerIntervalRef := timerIntervalRef c; startTimeRef := startTimeRef c;
     cleanupCallbackRef := cleanupCallbackRef c |}.

Definition with_error (v : option string) (c : Component) : Component :=
  {| status := status c; recordedData := recordedData c;
     audioEnabled := audioEnabled c; error := v;
     recordingDuration := recordingDuration c; isAnalyzing := isAnalyzing c;
     aiAnalysis := aiAnalysis c; mediaRecorderRef := mediaRecorderRef c;
     audioCtxRef := audioCtxRef c; chunksRef := chunksRef c;
     videoPreviewRef := videoPreviewRef c;
     timerIntervalRef := timerIntervalRef c; startTimeRef := startTimeRef c;
     cleanupCallbackRef := cleanupCallbackRef c |}.

Definition with_recordingDuration (v : nat) (c : Component) : Component :=
  {| status := status c; recordedData := recordedData c;
     audioEnabled := audioEnabled c; error := error c;
     recordingDuration := v; isAnalyzing := isAnalyzing c;
     aiAnalysis := aiAnalysis c; mediaRecorderRef := mediaRecorderRef c;
     audioCtxRef := audioCtxRef c; chunksRef := chunksRef c;
     videoPreviewRef := videoPreviewRef c;
     timerIntervalRef := timerIntervalRef c; startTimeRef := startTimeRef c;
     cleanupCallbackRef := cleanupCallbackRef c |}.

Definition with_isAnalyzing (v : bool) (c : Component) : Component :=
  {| status := status c; recordedData := recordedData c;
     audioEnabled := audioEnabled c; error := error c;
     recordingDuration := recordingDuration c; isAnalyzing := v;
     aiAnalysis := aiAnalysis c; mediaRecorderRef := mediaRecorderRef c;
     audioCtxRef := audioCtxRef c; chunksRef := chunksRef c;
     videoPreviewRef := videoPreviewRef c;
     timerIntervalRef := timerIntervalRef c; startTimeRef := startTimeRef c;
     cleanupCallbackRef := cleanupCallbackRef c |}.

Definition with_aiAnalysis (v : option AnalysisResult) (c : Component) : Component :=
  {| status := status c; recordedData := recordedData c;
     audioEnabled := audioEnabled c; error := error c;
     recordingDuration := recordingDuration c; isAnalyzing := isAnalyzing c;
     aiAnalysis := v; mediaRecorderRef := mediaRecorderRef c;
     audioCtxRef := audioCtxRef c; chunksRef := chunksRef c;
     videoPreviewRef := videoPreviewRef c;
     timerIntervalRef := timerIntervalRef c; startTimeRef := startTimeRef c;
     cleanupCallbackRef := cleanupCallbackRef c |}.

Definition with_mediaRecorderRef (v : option MediaRecorder) (c : Component) : Component :=
  {| status := status c; recordedData := recordedData c;
     audioEnabled := audioEnabled c; error := error c;
     recordingDuration := recordingDuration c; isAnalyzing := isAnalyzing c;
     aiAnalysis := aiAnalysis c; mediaRecorderRef := v;
     audioCtxRef := audioCtxRef c; chunksRef := chunksRef c;
     videoPreviewRef := videoPreviewRef c;
     timerIntervalRef := timerIntervalRef c; startTimeRef := startTimeRef c;
     cleanupCallbackRef := cleanupCallbackRef c |}.

Definition with_audioCtxRef (v : option nat) (c : Component) : Component :=
  {| status := status c; recordedData := recordedData c;
     audioEnabled := audioEnabled c; error := error c;
     recordingDuration := recordingDuration c; isAnalyzing := isAnalyzing c;
     aiAnalysis := aiAnalysis c; mediaRecorderRef := mediaRecorderRef c;
     audioCtxRef := v; chunksRef := chunksRef c;
     videoPreviewRef := videoPreviewRef c;
     timerIntervalRef := timerIntervalRef c; startTimeRef := startTimeRef c;
     cleanupCallbackRef := cleanupCallbackRef c |}.

Definition with_chunksRef (v : list Blob) (c : Component) : Component :=
  {| status := status c; recordedData := recordedData c;
     audioEnabled := audioEnabled c; error := error c;
     recordingDuration := recordingDuration c; isAnalyzing := isAnalyzing c;
     aiAnalysis := aiAnalysis c; mediaRecorderRef := mediaRecorderRef c;
     audioCtxRef := audioCtxRef c; chunksRef := v;
     videoPreviewRef := videoPreviewRef c;
     timerIntervalRef := timerIntervalRef c; startTimeRef := startTimeRef c;
     cleanupCallbackRef := cleanupCallbackRef c |}.

Definition with_videoPreviewRef (v : option VideoElement) (c : Component) : Component :=
  {| status := status c; recordedData := recordedData c;
     audioEnabled := audioEnabled c; error := error c;
     recordingDuration := recordingDuration c; isAnalyzing := isAnalyzing c;
     aiAnalysis := aiAnalysis c; mediaRecorderRef := mediaRecorderRef c;
     audioCtxRef := audioCtxRef c; chunksRef := chunksRef c;
     videoPreviewRef := v;
     timerIntervalRef := timerIntervalRef c; startTimeRef := startTimeRef c;
     cleanupCallbackRef := cleanupCallbackRef c |}.

Definition with_timerIntervalRef (v : option nat) (c : Component) : Component :=
  {| status := status c; recordedData := recordedData c;
     audioEnabled := audioEnabled c; error := error c;
     recordingDuration := recordingDuration c; isAnalyzing := isAnalyzing c;
     aiAnalysis := aiAnalysis c; mediaRecorderRef := mediaRecorderRef c;
     audioCtxRef := audioCtxRef c; chunksRef := chunksRef c;
     videoPreviewRef := videoPreviewRef c;
     timerIntervalRef := v; startTimeRef := startTimeRef c;
     cleanupCallbackRef := cleanupCallbackRef c |}.

Definition with_startTimeRef (v : nat) (c : Component) : Component :=
  {| status := status c; recordedData := recordedData c;
     audioEnabled := audioEnabled c; error := error c;
     recordingDuration := recordingDuration c; isAnalyzing := isAnalyzing c;
     aiAnalysis := aiAnalysis c; mediaRecorderRef := mediaRecorderRef c;
     audioCtxRef := audioCtxRef c; chunksRef := chunksRef c;
     videoPreviewRef := videoPreviewRef c;
     timerIntervalRef := timerIntervalRef c; startTimeRef := v;
     cleanupCallbackRef := cleanupCallbackRef c |}.

Definition with_cleanupCallbackRef (v : list Disposer) (c : Component) : Component :=
  {| status := status c; recordedData := recordedData c;
     audioEnabled := audioEnabled c; error := error c;
     recordingDuration := recordingDuration c; isAnalyzing := isAnalyzing c;
     aiAnalysis := aiAnalysis c; mediaRecorderRef := mediaRecorderRef c;
     audioCtxRef := audioCtxRef c; chunksRef := chunksRef c;
     videoPreviewRef := videoPreviewRef c;
     timerIntervalRef := timerIntervalRef c; startTimeRef := startTimeRef c;
     cleanupCallbackRef := v |}.

Definition with_nextId (v : nat) (b : Browser) : Browser :=
  {| nextId := v; now := now b; liveTracks := liveTracks b;
     onended := onended b; openContexts := openContexts b;
     audioNodes := audioNodes b; connections := connections b;
     tempVideos := tempVideos b; activeIntervals := activeIntervals b;
     trace := trace b |}.

Definition with_now (v : nat) (b : Browser) : Browser :=
  {| nextId := nextId b; now := v; liveTracks := liveTracks b;
     onended := onended b; openContexts := openContexts b;
     audioNodes := audioNodes b; connections := connections b;
     tempVideos := tempVideos b; activeIntervals := activeIntervals b;
     trace := trace b |}.

Definition with_liveTracks (v : list TrackId) (b : Browser) : Browser :=
  {| nextId := nextId b; now := now b; liveTracks := v;
     onended := onended b; openContexts := openContexts b;
     audioNodes := audioNodes b; connections := connections b;
     tempVideos := tempVideos b; activeIntervals := activeIntervals b;
     trace := trace b |}.

Definition with_onended (v : list TrackId) (b : Browser) : Browser :=
  {| nextId := nextId b; now := now b; liveTracks := liveTracks b;
     onended := v; openContexts := openContexts b;
     audioNodes := audioNodes b; connections := connections b;
     tempVideos := tempVideos b; activeIntervals := activeIntervals b;
     trace := trace b |}.

Definition with_openContexts (v : list nat) (b : Browser) : Browser :=
  {| nextId := nextId b; now := now b; liveTracks := liveTracks b;
     onended := onended b; openContexts := v;
     audioNodes := audioNodes b; connections := connections b;
     tempVideos := tempVideos b; activeIntervals := activeIntervals b;
     trace := trace b |}.

Definition with_audioNodes (v : list AudioNode) (b : Browser) : Browser :=
  {| nextId := nextId b; now := now b; liveTracks := liveTracks b;
     onended := onended b; openContexts := openContexts b;
     audioNodes := v; connections := connections b;
     tempVideos := tempVideos b; activeIntervals := activeIntervals b;
     trace := trace b |}.

Definition with_connections (v : list (nat * nat)) (b : Browser) : Browser :=
  {| nextId := nextId b; now := now b; liveTracks := liveTracks b;
     onended := onended b; openContexts := openContexts b;
     audioNodes := audioNodes b; connections := v;
     tempVideos := tempVideos b; activeIntervals := activeIntervals b;
     trace := trace b |}.

Definition with_tempVideos (v : list TempVideo) (b : Browser) : Browser :=
  {| nextId := nextId b; now := now b; liveTracks := liveTracks b;
     onended := onended b; openContexts := openContexts b;
     audioNodes := audioNodes b; connections := connections b;
     tempVideos := v; activeIntervals := activeIntervals b;
     trace := trace b |}.

Definition with_activeIntervals (v : list nat) (b : Browser) : Browser :=
  {| nextId := nextId b; now := now b; liveTracks := liveTracks b;
     onended := onended b; openContexts := openContexts b;
     audioNodes := audioNodes b; connections := connections b;
     tempVideos := tempVideos b; activeIntervals := v;
     trace := trace b |}.

Definition with_trace (v : list Effect) (b : Browser) : Browser :=
  {| nextId := nextId b; now := now b; liveTracks := liveTracks b;
     onended := onended b; openContexts := openContexts b;
     audioNodes := audioNodes b; connections := connections b;
     tempVideos := tempVideos b; activeIntervals := activeIntervals b;
     trace := v |}.

(** ** The handler monad *)

Inductive Completion (A : Type) : Type :=
| Normal (a : A)
| Thrown (e : JsError).

Arguments Normal {A} a.
Arguments Thrown {A} e.

Definition M (A : Type) : Type := St -> Completion A * St.

Definition ret {A} (a : A) : M A := fun s => (Normal a, s).

Definition bind {A B} (m : M A) (k : A -> M B) : M B :=
  fun s =>
    match m s with
    | (Normal a, s') => k a s'
    | (Thrown e, s') => (Thrown e, s')
    end.

Definition throw {A} (e : JsError) : M A := fun s => (Thrown e, s).

(** [try { body } catch (e) { handler }] *)
Definition try_catch {A} (body : M A) (handler : JsError -> M A) : M A :=
  fun s =>
    match body s with
    | (Normal a, s') => (Normal a, s')
    | (Thrown e, s') => handler e s'
    end.

Definition gets {A} (f : St -> A) : M A := fun s => (Normal (f s), s).

Definition modify (f : St -> St) : M unit := fun s => (Normal tt, f s).

Definition exec {A} (m : M A) (s : St) : St := snd (m s).

Declare Scope js_scope.
Delimit Scope js_scope with js.
Notation "x <- m ;; k" := (bind m (fun x => k))
  (at level 61, m at next level, right associativity) : js_scope.
Notation "m ;; k" := (bind m (fun _ => k))
  (at level 61, right associativity) : js_scope.
Local Open Scope js_scope.

Definition emit (e : Effect) : M unit :=
  modify (upd_brw (fun b => with_trace (trace b ++ [e]) b)).

(** [Array.prototype.forEach] with a callback that may throw. *)
Fixpoint forEach {A} (xs : list A) (f : A -> M unit) : M unit :=
  match xs with
  | [] => ret tt
  | x :: rest => f x ;; forEach rest f
  end.

(** ** What the browser answers *)

Inductive Settled (A : Type) : Type :=
| Fulfilled (a : A)
| Rejected (e : JsError).

Arguments Fulfilled {A} a.
Arguments Rejected {A} e.

(** Tracks of a granted display stream: [getDisplayMedia] always delivers
    a video track, so there are [1 + moreVideo] of them, and [nAudio]
    system-audio tracks. *)
Record StreamShape : Type := { moreVideo : nat; nAudio : nat }.

(** How an off-screen video element bound to a stream behaves:
    [loadedmetadata] fires and [play()] resolves after [ms] milliseconds,
    or the element's [error] event fires (or [play()] rejects), or nothing
    is ever signalled. *)
Inductive Readiness : Type :=
| ReadyAfter (ms : nat)
| FailedAfter (ms : nat) (e : JsError)
| NeverReady.

Record Env : Type := {
  envDisplay : Settled StreamShape;
  envMicrophone : Settled nat;
  envNewAudioContext : option JsError;
  envCreateDestination : option JsError;
  envCreateSource : MediaStream -> option JsError;
  envIsTypeSupported : string -> bool;
  envNewMediaRecorder : option JsError;
  envRecorderStart : option JsError;
  envFinalData : Blob;
  envReadiness : Readiness;
  envVideoSize : nat * nat;
  envGetContext : bool;
  envDrawImage : option JsError;
  envToDataURL : Settled string;
  envAnalysis : string -> Settled AnalysisResult
}.

(** ** Browser interfaces *)

Definition freshId : M nat :=
  fun s => (Normal (nextId (brw s)),
            upd_brw (fun b => with_nextId (S (nextId b)) b) s).

Definition reserveIds (n : nat) : M nat :=
  fun s => (Normal (nextId (brw s)),
            upd_brw (fun b => with_nextId (nextId b + n) b) s).

(** A granted capture stream: a new stream object whose tracks are new and
    live. *)
Definition grantStream (nv na : nat) : M MediaStream :=
  id <- freshId ;;
  v <- reserveIds nv ;;
  a <- reserveIds na ;;
  let st := {| streamId := id; videoTracks := seq v nv; audioTracks := seq a na |} in
  modify (upd_brw (fun b => with_liveTracks (liveTracks b ++ getTracks st) b)) ;;
  ret st.

Definition getDisplayMedia (env : Env) : M MediaStream :=
  emit CallGetDisplayMedia ;;
  match envDisplay env with
  | Fulfilled sh => grantStream (S (moreVideo sh)) (nAudio sh)
  | Rejected e => throw e
  end.

(** [getUserMedia({ audio })]: audio tracks only. *)
Definition getUserMedia (env : Env) : M MediaStream :=
  emit CallGetUserMedia ;;
  match envMicrophone env with
  | Fulfilled na => grantStream 0 na
  | Rejected e => throw e
  end.

Definition memTrack (t : TrackId) (ts : list TrackId) : bool :=
  existsb (Nat.eqb t) ts.

(** [ts.forEach(t => t.stop())] *)
Definition stopTracks (ts : list TrackId) : M unit :=
  modify (upd_brw (fun b =>
    with_liveTracks (filter (fun t => negb (memTrack t ts)) (liveTracks b)) b)).

(** Calling a registered cleanup closure. *)
Definition callCleanup (d : Disposer) : M unit :=
  emit (CallCleanup d) ;;
  match d with
  | StopTracks st => stopTracks (getTracks st)
  end.

Definition newAudioContext (env : Env) : M nat :=
  match envNewAudioContext env with
  | Some e => throw e
  | None =>
      c <- freshId ;;
      emit (CallNewAudioContext c) ;;
      modify (upd_brw (fun b => with_openContexts (openContexts b ++ [c]) b)) ;;
      ret c
  end.

Definition closeAudioContext (c : nat) : M unit :=
  emit (CallCloseAudioContext c) ;;
  modify (upd_brw (fun b =>
    with_openContexts (filter (fun x => negb (x =? c)) (openContexts b)) b)).

Definition addNode (n : AudioNode) : M unit :=
  modify (upd_brw (fun b => with_audioNodes (audioNodes b ++ [n]) b)).

(** [audioContext.createMediaStreamDestination()]: the node and its
    [stream], which carries one audio track produced by the graph. *)
Definition createMediaStreamDestination (env : Env) (c : nat)
  : M (AudioNode * MediaStream) :=
  match envCreateDestination env with
  | Some e => throw e
  | None =>
      n <- freshId ;;
      sid <- freshId ;;
      t <- freshId ;;
      let node := {| nodeId := n; nodeContext := c; nodeKind := DestinationNode |} in
      addNode node ;;
      ret (node, {| streamId := sid; videoTracks := []; audioTracks := [t] |})
  end.

Definition createMediaStreamSource (env : Env) (c : nat) (st : MediaStream)
  : M AudioNode :=
  match envCreateSource env st with
  | Some e => throw e
  | None =>
      n <- freshId ;;
      let node := {| nodeId := n; nodeContext := c; nodeKind := SourceNode st |} in
      addNode node ;;
      ret node
  end.

Definition connect (src dst : AudioNode) : M unit :=
  modify (upd_brw (fun b =>
    with_connections (connections b ++ [(nodeId src, nodeId dst)]) b)).

(** [new MediaStream(tracks)]: a new stream object over existing tracks. *)
Definition newMediaStream (video audio : list TrackId) : M MediaStream :=
  id <- freshId ;;
  ret {| streamId := id; videoTracks := video; audioTracks := audio |}.

Definition newMediaRecorder (env : Env) (st : MediaStream) (mime : string)
  : M MediaRecorder :=
  emit (CallNewMediaRecorder st mime) ;;
  match envNewMediaRecorder env with
  | Some e => throw e
  | None => ret {| recState := Inactive; recStream := st; recMimeType := mime |}
  end.

Definition setRecState (v : RecorderState) (r : MediaRecorder) : MediaRecorder :=
  {| recState := v; recStream := recStream r; recMimeType := recMimeType r |}.

(** [recorder.start(1000)] on the recorder held by [mediaRecorderRef]. *)
Definition recorderStart (env : Env) : M unit :=
  emit CallRecorderStart ;;
  match envRecorderStart env with
  | Some e => throw e
  | None =>
      modify (upd_cmp (fun c =>
        with_mediaRecorderRef (option_map (setRecState Recording) (mediaRecorderRef c)) c))
  end.

(** [window.setInterval]: the handle is greater than zero. *)
Definition setInterval : M nat :=
  n <- freshId ;;
  let id := S n in
  emit (CallSetInterval id) ;;
  modify (upd_brw (fun b => with_activeIntervals (activeIntervals b ++ [id]) b)) ;;
  ret id.

Definition clearInterval (id : nat) : M unit :=
  emit (CallClearInterval id) ;;
  modify (upd_brw (fun b =>
    with_activeIntervals (filter (fun x => negb (x =? id)) (activeIntervals b)) b)).

Definition dateNow : M nat := gets (fun s => now (brw s)).

Definition advance (ms : nat) : M unit :=
  modify (upd_brw (fun b => with_now (now b + ms) b)).

(** ** React state setters *)

Definition setStatus (v : RecorderStatus) : M unit :=
  emit (CallSetStatus v) ;; modify (upd_cmp (with_status v)).

Definition setError (v : option string) : M unit :=
  emit (CallSetError v) ;; modify (upd_cmp (with_error v)).

Definition setRecordedData (v : option VideoMetadata) : M unit :=
  modify (upd_cmp (with_recordedData v)).

Definition setRecordingDuration (v : nat) : M unit :=
  modify (upd_cmp (with_recordingDuration v)).

Definition setIsAnalyzing (v : bool) : M unit :=
  modify (upd_cmp (with_isAnalyzing v)).

Definition setAiAnalysis (v : option AnalysisResult) : M unit :=
  modify (upd_cmp (with_aiAnalysis v)).

Definition setAudioEnabled (v : bool) : M unit :=
  modify (upd_cmp (with_audioEnabled v)).

(** ** String helpers *)

(** [hay.includes(needle)] *)
Fixpoint includes (hay needle : string) : bool :=
  String.prefix needle hay
  || match hay with
     | EmptyString => false
     | String _ rest => includes rest needle
     end.

(** [s.split(sep)] for a one-character separator. *)
Fixpoint split (sep : ascii) (s : string) : list string :=
  match s with
  | EmptyString => [EmptyString]
  | String c rest =>
      if Ascii.eqb c sep then EmptyString :: split sep rest
      else match split sep rest with
           | [] => [String c EmptyString]
           | x :: xs => String c x :: xs
           end
  end.

(** ** The component's functions *)

(** [cleanupResources]: clear the timer, call every registered cleanup
    closure, empty the list, close the audio context, clear the preview.
    [if (timerIntervalRef.current)] is a truthiness test: a handle of 0
    would be skipped. *)
Definition cleanupResources : M unit :=
  timer <- gets (fun s => timerIntervalRef (cmp s)) ;;
  match timer with
  | Some (S _ as id) =>
      clearInterval id ;;
      modify (upd_cmp (with_timerIntervalRef None))
  | _ => ret tt
  end ;;
  callbacks <- gets (fun s => cleanupCallbackRef (cmp s)) ;;
  forEach callbacks callCleanup ;;
  modify (upd_cmp (with_cleanupCallbackRef [])) ;;
  ctx <- gets (fun s => audioCtxRef (cmp s)) ;;
  match ctx with
  | Some c =>
      closeAudioContext c ;;
      modify (upd_cmp (with_audioCtxRef None))
  | None => ret tt
  end ;;
  preview <- gets (fun s => videoPreviewRef (cmp s)) ;;
  match preview with
  | Some _ => modify (upd_cmp (with_videoPreviewRef (Some {| srcObject := None |})))
  | None => ret tt
  end.

(** The drawing surface [captureSnapshot] reads the frame from. *)
Inductive Surface : Type :=
| PreviewSurface
| TempSurface (id : nat).

(** [!videoElement || videoElement.srcObject !== stream] is false. *)
Definition boundTo (preview : option VideoElement) (stream : MediaStream) : bool :=
  match preview with
  | Some el =>
      match srcObject el with
      | Some st => sameObject st stream
      | None => false
      end
  | None => false
  end.

(** [document.createElement('video')] with [srcObject = stream]. *)
Definition createTempVideo (stream : MediaStream) : M nat :=
  id <- freshId ;;
  modify (upd_brw (fun b =>
    with_tempVideos
      (tempVideos b ++ [{| tempId := id; tempSrcObject := Some stream; tempRemoved := false |}]) b)) ;;
  ret id.

(** [pause(); srcObject = null; remove()] on the temporary element. *)
Definition teardownTempVideo (id : nat) : M unit :=
  modify (upd_brw (fun b =>
    with_tempVideos
      (map (fun v =>
              if tempId v =? id
              then {| tempId := id; tempSrcObject := None; tempRemoved := true |}
              else v)
           (tempVideos b)) b)).

Definition READINESS_TIMEOUT : nat := 1000.

(** A rejection with no reason ([reject()] called by the timer). *)
Definition noReason : JsError := {| message := "" |}.

(** The promise awaited for a temporary element: it settles at the first of
    readiness, failure and the 1000 ms timer. *)
Definition awaitReadiness (env : Env) : M unit :=
  match envReadiness env with
  | ReadyAfter ms =>
      if ms <? READINESS_TIMEOUT then advance ms
      else advance READINESS_TIMEOUT ;; throw noReason
  | FailedAfter ms e =>
      if ms <? READINESS_TIMEOUT then advance ms ;; throw e
      else advance READINESS_TIMEOUT ;; throw noReason
  | NeverReady => advance READINESS_TIMEOUT ;; throw noReason
  end.

(** [x || fallback] on numbers. *)
Definition orDefault (x fallback : nat) : nat :=
  match x with 0 => fallback | _ => x end.

Definition drawImage (env : Env) (w h : nat) : M unit :=
  emit (CallDrawImage w h) ;;
  match envDrawImage env with
  | Some e => throw e
  | None => ret tt
  end.

Definition toDataURL (env : Env) : M string :=
  match envToDataURL env with
  | Fulfilled u => ret u
  | Rejected e => throw e
  end.

(** [captureSnapshot]: [None] is JavaScript [null] (and the [undefined] of
    an out-of-range index in the last line). *)
Definition captureSnapshot (env : Env) (stream : MediaStream) : M (option string) :=
  try_catch
    (preview <- gets (fun s => videoPreviewRef (cmp s)) ;;
     surface <-
       (if boundTo preview stream then ret PreviewSurface
        else
          id <- createTempVideo stream ;;
          awaitReadiness env ;;
          ret (TempSurface id)) ;;
     let width := orDefault (fst (envVideoSize env)) 1920 in
     let height := orDefault (snd (envVideoSize env)) 1080 in
     if negb (envGetContext env) then ret None
     else
       drawImage env width height ;;
       dataUrl <- toDataURL env ;;
       match surface with
       | TempSurface id => teardownTempVideo id
       | PreviewSurface => ret tt
       end ;;
       ret (nth_error (split "," dataUrl) 1))
    (fun e =>
       emit (CallConsoleWarn "Snapshot skipped:") ;;
       ret None).

Definition generateVideoAnalysis (env : Env) (base64Image : string) : M AnalysisResult :=
  match envAnalysis env base64Image with
  | Fulfilled r => ret r
  | Rejected e => throw e
  end.

Definition analyzeRecording (env : Env) (base64Image : string) : M unit :=
  setIsAnalyzing true ;;
  setAiAnalysis None ;;
  try_catch
    (result <- generateVideoAnalysis env base64Image ;;
     setAiAnalysis (Some result))
    (fun e => emit (CallConsoleError "AI Analysis failed")) ;;
  setIsAnalyzing false.

(** [recorder.ondataavailable] *)
Definition ondataavailable (data : Blob) : M unit :=
  if 0 <? blobSize data
  then modify (upd_cmp (fun c => with_chunksRef (chunksRef c ++ [data]) c))
  else ret tt.

(** [URL.createObjectURL] *)
Definition createObjectURL (b : Blob) : M nat := freshId.

(** [if (snapshot)]: [null], [undefined] and the empty string are falsy. *)
Definition truthy (snapshot : option string) : option string :=
  match snapshot with
  | Some (String _ _ as s) => Some s
  | _ => None
  end.

(** [recorder.onstop], closing over [stream] and [mimeType]. *)
Definition onstop (env : Env) (stream : MediaStream) (mime : string) : M unit :=
  stopped <- dateNow ;;
  started <- gets (fun s => startTimeRef (cmp s)) ;;
  chunks <- gets (fun s => chunksRef (cmp s)) ;;
  let payload := newBlob chunks mime in
  u <- createObjectURL payload ;;
  snapshot <- captureSnapshot env stream ;;
  stamp <- dateNow ;;
  setRecordedData
    (Some {| blob := payload; url := u; mimeType := mime;
             duration := stopped - started; timestamp := stamp |}) ;;
  setStatus REVIEW ;;
  cleanupResources ;;
  match truthy snapshot with
  | Some s => analyzeRecording env s
  | None => ret tt
  end.

Definition pickMimeType (env : Env) : string :=
  if envIsTypeSupported env "video/mp4; codecs=avc1,opus"
  then "video/mp4; codecs=avc1,opus"
  else if envIsTypeSupported env "video/mp4"
  then "video/mp4"
  else match find (envIsTypeSupported env) SUPPORTED_MIME_TYPES with
       | Some type => type
       | None => "video/webm"
       end.

Definition startRecording (env : Env) (stream : MediaStream) : M unit :=
  let mime := pickMimeType env in
  try_catch
    (recorder <- newMediaRecorder env stream mime ;;
     modify (upd_cmp (with_mediaRecorderRef (Some recorder))) ;;
     modify (upd_cmp (with_chunksRef [])) ;;
     recorderStart env ;;
     started <- dateNow ;;
     modify (upd_cmp (with_startTimeRef started)) ;;
     setStatus RECORDING ;;
     setRecordingDuration 0 ;;
     id <- setInterval ;;
     modify (upd_cmp (with_timerIntervalRef (Some id))))
    (fun err =>
       setError (Some (String.append "Failed to create MediaRecorder: " (message err))) ;;
       cleanupResources).

(** [cleanupCallbackRef.current.push(d)] *)
Definition pushCleanup (d : Disposer) : M unit :=
  emit (Register d) ;;
  modify (upd_cmp (fun c => with_cleanupCallbackRef (cleanupCallbackRef c ++ [d]) c)).

(** Step 2 of [startCapture], the inner [try]: on any throw the final
    stream stays the display stream. *)
Definition mixAudio (env : Env) (displayStream : MediaStream) : M MediaStream :=
  try_catch
    (micStream <- getUserMedia env ;;
     pushCleanup (StopTracks micStream) ;;
     audioContext <- newAudioContext env ;;
     modify (upd_cmp (with_audioCtxRef (Some audioContext))) ;;
     dest <- createMediaStreamDestination env audioContext ;;
     (if 0 <? List.length (audioTracks displayStream)
      then
        sysSource <- createMediaStreamSource env audioContext displayStream ;;
        connect sysSource (fst dest)
      else ret tt) ;;
     micSource <- createMediaStreamSource env audioContext micStream ;;
     connect micSource (fst dest) ;;
     newMediaStream (videoTracks displayStream) (audioTracks (snd dest)))
    (fun micErr =>
       emit (CallConsoleWarn "Microphone access denied or unavailable:") ;;
       ret displayStream).

Definition POLICY_MESSAGE : string :=
  "Screen recording is disabled by the environment. Please ensure 'display-capture' permission is allowed in the app configuration.".

Definition DENIED_MESSAGE : string :=
  "Permission denied. You must allow screen access to record.".

(** The text [startCapture] puts in the error slot, from the caught
    error's message. *)
Definition captureErrorText (msg : string) : string :=
  let errorMessage :=
    match msg with
    | EmptyString => "Failed to start screen capture."
    | _ => msg
    end in
  if includes errorMessage "display-capture" || includes errorMessage "permissions policy"
  then POLICY_MESSAGE
  else if includes errorMessage "Permission denied"
  then DENIED_MESSAGE
  else errorMessage.

(** Assigning through [getVideoTracks()[0]] when there is no video track. *)
Definition undefinedTrackError : JsError :=
  {| message := "Cannot set properties of undefined (setting 'onended')" |}.

(** Steps 1 to 4 of the [try] block of [startCapture]: the display stream,
    the optional microphone mix, the preview and the [onended] handler of
    the first video track. *)
Definition acquire (env : Env) : M MediaStream :=
  displayStream <- getDisplayMedia env ;;
  pushCleanup (StopTracks displayStream) ;;
  enabled <- gets (fun s => audioEnabled (cmp s)) ;;
  finalStream <-
    (if enabled then mixAudio env displayStream else ret displayStream) ;;
  preview <- gets (fun s => videoPreviewRef (cmp s)) ;;
  match preview with
  | Some _ =>
      modify (upd_cmp (with_videoPreviewRef (Some {| srcObject := Some finalStream |})))
  | None => ret tt
  end ;;
  match videoTracks finalStream with
  | t :: _ => modify (upd_brw (fun b => with_onended (onended b ++ [t]) b))
  | [] => throw undefinedTrackError
  end ;;
  ret finalStream.

Definition startCapture (env : Env) : M unit :=
  setError None ;;
  modify (upd_cmp (with_cleanupCallbackRef [])) ;;
  try_catch
    (finalStream <- acquire env ;;
     startRecording env finalStream)
    (fun err =>
       emit (CallConsoleError "Error starting capture:") ;;
       cleanupResources ;;
       setError (Some (captureErrorText (message err)))).

(** [MediaRecorder.stop()]: the recorder becomes inactive, then the browser
    fires [dataavailable] with the data gathered since the last flush and
    then [stop]; both handlers run here, in that order. *)
Definition recorderStop (env : Env) (r : MediaRecorder) : M unit :=
  emit CallRecorderStop ;;
  modify (upd_cmp (with_mediaRecorderRef (Some (setRecState Inactive r)))) ;;
  ondataavailable (envFinalData env) ;;
  onstop env (recStream r) (recMimeType r).

Definition stopRecording (env : Env) : M unit :=
  r <- gets (fun s => mediaRecorderRef (cmp s)) ;;
  match r with
  | Some rec =>
      match recState rec with
      | Inactive => ret tt
      | _ => recorderStop env rec
      end
  | None => ret tt
  end.

Definition reset : M unit :=
  cleanupResources ;;
  setStatus IDLE ;;
  setRecordedData None ;;
  setAiAnalysis None ;;
  setError None ;;
  setRecordingDuration 0.

(** The "Retry Analysis" button:
    [recordedData && captureSnapshot(new MediaStream()).then(s => s && analyzeRecording(s))] *)
Definition retryAnalysis (env : Env) : M unit :=
  data <- gets (fun s => recordedData (cmp s)) ;;
  match data with
  | Some _ =>
      empty <- newMediaStream [] [] ;;
      s <- captureSnapshot env empty ;;
      match truthy s with
      | Some img => analyzeRecording env img
      | None => ret tt
      end
  | None => ret tt
  end.

(** The interval callback. *)
Definition tick : M unit :=
  n <- dateNow ;;
  started <- gets (fun s => startTimeRef (cmp s)) ;;
  setRecordingDuration ((n - started) / 1000).

(** ** Events *)

Inductive Event : Type :=
| ClickStart
| ClickStop
| ClickNewRecording
| ClickRetryAnalysis
| ClickDismiss
| ToggleMicrophone (checked : bool)
| TrackEnded (t : TrackId)
| DataAvailable (data : Blob)
| IntervalFired
| Elapse (ms : nat)
| Unmount.

(** What the render function does to [videoPreviewRef]: the preview
    [<video ref={videoPreviewRef}>] is replaced by the playback element
    when [status === REVIEW && recordedData], and mounted (with no
    [srcObject]) otherwise. *)
Definition render (s : St) : St :=
  match status (cmp s), recordedData (cmp s) with
  | REVIEW, Some _ => upd_cmp (with_videoPreviewRef None) s
  | _, _ =>
      match videoPreviewRef (cmp s) with
      | Some _ => s
      | None => upd_cmp (with_videoPreviewRef (Some {| srcObject := None |})) s
      end
  end.

Definition isStatus (a b : RecorderStatus) : bool :=
  match a, b with
  | IDLE, IDLE | RECORDING, RECORDING | PAUSED, PAUSED | REVIEW, REVIEW => true
  | _, _ => false
  end.

(** The handler an event runs.  Buttons exist only in the status the JSX
    renders them in; a track fires [ended] only while live, and runs the
    [onended] handler installed by [startCapture], which is a call of
    [stopRecording]. *)
Definition handler (env : Env) (ev : Event) : M unit :=
  st <- gets (fun s => status (cmp s)) ;;
  match ev with
  | ClickStart => if isStatus st IDLE then startCapture env else ret tt
  | ClickStop => if isStatus st RECORDING then stopRecording env else ret tt
  | ClickNewRecording => if isStatus st REVIEW then reset else ret tt
  | ClickRetryAnalysis =>
      analyzing <- gets (fun s => isAnalyzing (cmp s)) ;;
      analysis <- gets (fun s => aiAnalysis (cmp s)) ;;
      match analysis with
      | None =>
          if isStatus st REVIEW && negb analyzing then retryAnalysis env else ret tt
      | Some _ => ret tt
      end
  | ClickDismiss =>
      e <- gets (fun s => error (cmp s)) ;;
      match e with
      | Some _ => setError None
      | None => ret tt
      end
  | ToggleMicrophone checked =>
      if isStatus st IDLE then setAudioEnabled checked else ret tt
  | TrackEnded t =>
      live <- gets (fun s => liveTracks (brw s)) ;;
      if memTrack t live then
        stopTracks [t] ;;
        hooked <- gets (fun s => onended (brw s)) ;;
        if memTrack t hooked then stopRecording env else ret tt
      else ret tt
  | DataAvailable data =>
      r <- gets (fun s => mediaRecorderRef (cmp s)) ;;
      match r with
      | Some rec =>
          match recState rec with
          | Recording => ondataavailable data
          | _ => ret tt
          end
      | None => ret tt
      end
  | IntervalFired =>
      timer <- gets (fun s => timerIntervalRef (cmp s)) ;;
      active <- gets (fun s => activeIntervals (brw s)) ;;
      match timer with
      | Some id => if existsb (Nat.eqb id) active then tick else ret tt
      | None => ret tt
      end
  | Elapse ms => advance ms
  | Unmount => cleanupResources
  end.

(** One event: the handler runs, then React re-renders. *)
Definition handle (env : Env) (ev : Event) (s : St) : St :=
  match ev with
  | Unmount => exec (handler env ev) s
  | _ => render (exec (handler env ev) s)
  end.

Fixpoint run (evs : list (Env * Event)) (s : St) : St :=
  match evs with
  | [] => s
  | (env, ev) :: rest => run rest (handle env ev s)
  end.

Definition initialComponent : Component :=
  {| status := IDLE; recordedData := None; audioEnabled := true;
     error := None; recordingDuration := 0; isAnalyzing := false;
     aiAnalysis := None; mediaRecorderRef := None; audioCtxRef := None;
     chunksRef := []; videoPreviewRef := Some {| srcObject := None |};
     timerIntervalRef := None; startTimeRef := 0;
     cleanupCallbackRef := [] |}.

Definition initialBrowser : Browser :=
  {| nextId := 0; now := 0; liveTracks := []; onended := [];
     openContexts := []; audioNodes := []; connections := [];
     tempVideos := []; activeIntervals := []; trace := [] |}.

Definition initial : St := {| cmp := initialComponent; brw := initialBrowser |}.

(** ** Observations on a state *)

(** The cleanup closures pushed on [cleanupCallbackRef] so far. *)
Fixpoint registered (tr : list Effect) : list Disposer :=
  match tr with
  | [] => []
  | Register d :: rest => d :: registered rest
  | _ :: rest => registered rest
  end.

(** The cleanup closures called so far. *)
Fixpoint cleanupCalls (tr : list Effect) : list Disposer :=
  match tr with
  | [] => []
  | CallCleanup d :: rest => d :: cleanupCalls rest
  | _ :: rest => cleanupCalls rest
  end.

(** The audio contexts constructed so far. *)
Fixpoint created (tr : list Effect) : list nat :=
  match tr with
  | [] => []
  | CallNewAudioContext c :: rest => c :: created rest
  | _ :: rest => created rest
  end.

Definition creations (s : St) : list nat := created (trace (brw s)).

Definition registrations (s : St) : list Disposer := registered (trace (brw s)).

Definition released (s : St) : list Disposer := cleanupCalls (trace (brw s)).

Definition registry (s : St) : list Disposer := cleanupCallbackRef (cmp s).

(** Tracks left live after calling the closures [ds] in order. *)
Definition stopAll (ds : list Disposer) (live : list TrackId) : list TrackId :=
  fold_left
    (fun l d =>
       match d with
       | StopTracks st => filter (fun t => negb (memTrack t (getTracks st))) l
       end)
    ds live.

(** The state [cleanupResources] leaves. *)
Definition cleaned (s : St) : St :=
  let c := cmp s in
  let b := brw s in
  let timer :=
    match timerIntervalRef c with
    | Some (S n) => Some (S n)
    | _ => None
    end in
  {| cmp :=
       with_videoPreviewRef
         (match videoPreviewRef c with
          | Some _ => Some {| srcObject := None |}
          | None => None
          end)
         (with_audioCtxRef None
            (with_cleanupCallbackRef []
               (with_timerIntervalRef
                  (match timer with
                   | Some _ => None
                   | None => timerIntervalRef c
                   end) c)));
     brw :=
       with_openContexts
         (match audioCtxRef c with
          | Some x => filter (fun y => negb (y =? x)) (openContexts b)
          | None => openContexts b
          end)
         (with_activeIntervals
            (match timer with
             | Some id => filter (fun x => negb (x =? id)) (activeIntervals b)
             | None => activeIntervals b
             end)
            (with_liveTracks (stopAll (cleanupCallbackRef c) (liveTracks b))
               (with_trace
                  (trace b
                   ++ match timer with
                      | Some id => [CallClearInterval id]
                      | None => []
                      end
                   ++ map CallCleanup (cleanupCallbackRef c)
                   ++ match audioCtxRef c with
                      | Some x => [CallCloseAudioContext x]
                      | None => []
                      end) b))) |}.

(** ** Proof tools *)

Ltac reduce_fields :=
  cbn [cmp brw status recordedData audioEnabled error recordingDuration
       isAnalyzing aiAnalysis mediaRecorderRef audioCtxRef chunksRef
       videoPreviewRef timerIntervalRef startTimeRef cleanupCallbackRef
       nextId now liveTracks onended openContexts audioNodes connections
       tempVideos activeIntervals trace fst snd option_map forEach].

(** Symbolic execution of straight-line handler code, on states that have
    been split into their fields. *)
Ltac js1 :=
  cbv beta iota zeta delta
    [bind ret throw try_catch gets modify exec emit fst snd option_map
     freshId reserveIds grantStream getDisplayMedia getUserMedia stopTracks
     callCleanup newAudioContext closeAudioContext addNode
     createMediaStreamDestination createMediaStreamSource connect
     newMediaStream newMediaRecorder recorderStart setRecState
     setInterval clearInterval dateNow advance setStatus setError
     setRecordedData setRecordingDuration setIsAnalyzing setAiAnalysis
     setAudioEnabled pushCleanup createTempVideo teardownTempVideo
     awaitReadiness drawImage toDataURL generateVideoAnalysis
     createObjectURL ondataavailable
     upd_cmp upd_brw with_status with_recordedData with_audioEnabled
     with_error with_recordingDuration with_isAnalyzing with_aiAnalysis
     with_mediaRecorderRef with_audioCtxRef with_chunksRef
     with_videoPreviewRef with_timerIntervalRef with_startTimeRef
     with_cleanupCallbackRef with_nextId with_now with_liveTracks
     with_onended with_openContexts with_audioNodes with_connections
     with_tempVideos with_activeIntervals with_trace
     cmp brw status recordedData audioEnabled error recordingDuration
     isAnalyzing aiAnalysis mediaRecorderRef audioCtxRef chunksRef
     videoPreviewRef timerIntervalRef startTimeRef cleanupCallbackRef
     nextId now liveTracks onended openContexts audioNodes connections
     tempVideos activeIntervals trace recState recStream recMimeType];
  cbn [forEach seq videoTracks audioTracks streamId].

Ltac js := js1; js1.

Ltac split_state s :=
  let c := fresh "c" in
  let b := fresh "b" in
  destruct s as [c b]; destruct c, b.

(** The state in which the [try] block of [startCapture] starts: the
    error slot and the cleanup list have been cleared. *)
Definition atTry (s : St) : St :=
  upd_cmp (with_cleanupCallbackRef []) (exec (setError None) s).

(** [keeps I m]: every run of [m] from a state in [I] ends in [I], whether
    it returns or throws. *)
Definition keeps {A} (I : St -> Prop) (m : M A) : Prop :=
  forall s, I s -> I (snd (m s)).

(** Removing one track from the live set. *)
Definition dropTrack (t : TrackId) (s : St) : St :=
  upd_brw (fun b => with_liveTracks (filter (fun x => negb (memTrack x [t])) (liveTracks b)) b) s.


(** ** Session bookkeeping *)

(** Track [t] is stopped by one of the closures [ds]. *)
Definition covered (t : TrackId) (ds : list Disposer) : Prop :=
  exists st, In (StopTracks st) ds /\ In t (getTracks st).

(** Everything acquired since [s0] is reachable from the component: every
    capture track that went live has its stopper on the list, every audio
    context opened is the one held by [audioCtxRef], and every audio node
    created belongs to that context. *)
Definition Tracked (s0 s : St) : Prop :=
  (forall t, In t (liveTracks (brw s)) ->
             In t (liveTracks (brw s0)) \/ covered t (registry s)) /\
  (forall c, In c (openContexts (brw s)) ->
             In c (openContexts (brw s0)) \/ audioCtxRef (cmp s) = Some c) /\
  (forall n, In n (audioNodes (brw s)) ->
             In n (audioNodes (brw s0)) \/ audioCtxRef (cmp s) = Some (nodeContext n)).

(** The stream [getDisplayMedia] hands out in state [s]. *)
Definition displayStreamAt (sh : StreamShape) (s : St) : MediaStream :=
  let id := nextId (brw s) in
  {| streamId := id;
     videoTracks := seq (S id) (S (moreVideo sh));
     audioTracks := seq (S id + S (moreVideo sh)) (nAudio sh) |}.

Definition micRejected (env : Env) : Prop :=
  exists e, envMicrophone env = Rejected e.

(** What [acquire] has done when it returns [f] in state [s1], started in
    [s] with a display stream of shape [sh]. *)
Record Acquired (env : Env) (sh : StreamShape) (s s1 : St) (f : MediaStream) : Prop := {
  acq_status : status (cmp s1) = status (cmp s);
  acq_error : error (cmp s1) = error (cmp s);
  acq_data : recordedData (cmp s1) = recordedData (cmp s);
  acq_enabled : audioEnabled (cmp s1) = audioEnabled (cmp s);
  acq_recorder : mediaRecorderRef (cmp s1) = mediaRecorderRef (cmp s);
  acq_chunks : chunksRef (cmp s1) = chunksRef (cmp s);
  acq_timer : timerIntervalRef (cmp s1) = timerIntervalRef (cmp s);
  acq_preview :
    videoPreviewRef (cmp s1) =
    match videoPreviewRef (cmp s) with
    | Some _ => Some {| srcObject := Some f |}
    | None => None
    end;
  acq_video : videoTracks f = videoTracks (displayStreamAt sh s);
  acq_hook : In (S (nextId (brw s))) (onended (brw s1));
  acq_live : In (S (nextId (brw s))) (liveTracks (brw s1));
  acq_registry :
    exists rest, registry s1 = registry s ++ StopTracks (displayStreamAt sh s) :: rest;
  acq_registered : registrations s1 = registrations s ++ skipn (List.length (registry s)) (registry s1);
  acq_released : released s1 = released s;
  acq_tracked : registry s = [] -> Tracked s s1;
  acq_passthrough :
    audioEnabled (cmp s) = false \/ micRejected env ->
    f = displayStreamAt sh s /\
    registry s1 = registry s ++ [StopTracks (displayStreamAt sh s)] /\
    openContexts (brw s1) = openContexts (brw s) /\
    audioNodes (brw s1) = audioNodes (brw s) /\
    audioCtxRef (cmp s1) = audioCtxRef (cmp s) /\
    creations s1 = creations s
}.

(** A start is fatal when the display request is rejected, or the
    recorder cannot be constructed or started. *)
Definition acquisitionFails (env : Env) : Prop :=
  exists e, envDisplay env = Rejected e.

Definition encoderFails (env : Env) : Prop :=
  (exists sh, envDisplay env = Fulfilled sh) /\
  ((exists e, envNewMediaRecorder env = Some e) \/
   (exists e, envRecorderStart env = Some e)).

Definition fatal (env : Env) : Prop := acquisitionFails env \/ encoderFails env.

(** Nothing is left for [cleanupResources] to do. *)
Definition Released (s : St) : Prop :=
  registry s = [] /\
  audioCtxRef (cmp s) = None /\
  (timerIntervalRef (cmp s) = None \/ timerIntervalRef (cmp s) = Some 0) /\
  (videoPreviewRef (cmp s) = None \/
   videoPreviewRef (cmp s) = Some {| srcObject := None |}).

(** The state [s'] a failed [startCapture] leaves, started in [s]. *)
Record FailedStart (s s' : St) : Prop := {
  fail_status : status (cmp s') = status (cmp s);
  fail_error : exists msg, error (cmp s') = Some msg;
  fail_data : recordedData (cmp s') = recordedData (cmp s);
  fail_released : Released s';
  fail_tracks : forall t, In t (liveTracks (brw s')) -> In t (liveTracks (brw s));
  fail_contexts : forall c, In c (openContexts (brw s')) -> In c (openContexts (brw s));
  fail_calls :
    exists ds, registrations s' = registrations s ++ ds /\
               released s' = released s ++ ds
}.

(** The state [s'] a successful [startCapture] leaves, started in [s] with
    a display stream of shape [sh]. *)
Record StartedFrom (env : Env) (sh : StreamShape) (s s' : St) : Prop := {
  start_status : status (cmp s') = RECORDING;
  start_error : error (cmp s') = None;
  start_data : recordedData (cmp s') = recordedData (cmp s);
  start_chunks : chunksRef (cmp s') = [];
  start_recorder :
    exists f,
      mediaRecorderRef (cmp s') =
        Some {| recState := Recording; recStream := f; recMimeType := pickMimeType env |} /\
      videoTracks f = videoTracks (displayStreamAt sh s) /\
      videoPreviewRef (cmp s') =
        match videoPreviewRef (cmp s) with
        | Some _ => Some {| srcObject := Some f |}
        | None => None
        end /\
      (audioEnabled (cmp s) = false \/ micRejected env -> f = displayStreamAt sh s);
  start_hook : In (S (nextId (brw s))) (onended (brw s'));
  start_live : In (S (nextId (brw s))) (liveTracks (brw s'));
  start_registry :
    exists rest, registry s' = StopTracks (displayStreamAt sh s) :: rest;
  start_registered : registrations s' = registrations s ++ registry s';
  start_released : released s' = released s;
  start_tracked : Tracked s s';
  start_passthrough :
    audioEnabled (cmp s) = false \/ micRejected env ->
    registry s' = [StopTracks (displayStreamAt sh s)] /\
    openContexts (brw s') = openContexts (brw s) /\
    audioNodes (brw s') = audioNodes (brw s) /\
    audioCtxRef (cmp s') = audioCtxRef (cmp s)
}.

(** [s'] holds the same resources and the same bookkeeping as [s]. *)
Record SameResources (s s' : St) : Prop := {
  same_status : status (cmp s') = status (cmp s);
  same_data : recordedData (cmp s') = recordedData (cmp s);
  same_live : liveTracks (brw s') = liveTracks (brw s);
  same_hooks : onended (brw s') = onended (brw s);
  same_open : openContexts (brw s') = openContexts (brw s);
  same_nodes : audioNodes (brw s') = audioNodes (brw s);
  same_registry : registry s' = registry s;
  same_ctx : audioCtxRef (cmp s') = audioCtxRef (cmp s);
  same_preview : videoPreviewRef (cmp s') = videoPreviewRef (cmp s);
  same_registered : registrations s' = registrations s;
  same_released : released s' = released s;
  same_creations : creations s' = creations s
}.

(** What [captureSnapshot] may change in the browser: it allocates
    handles, lets time pass, creates or tears down temporary video
    elements and logs; it leaves tracks, contexts, timers and the cleanup
    bookkeeping alone. *)
Record SnapshotFrame (b b' : Browser) : Prop := {
  snap_live : liveTracks b' = liveTracks b;
  snap_hooks : onended b' = onended b;
  snap_open : openContexts b' = openContexts b;
  snap_nodes : audioNodes b' = audioNodes b;
  snap_connections : connections b' = connections b;
  snap_intervals : activeIntervals b' = activeIntervals b;
  snap_registered : registered (trace b') = registered (trace b);
  snap_calls : cleanupCalls (trace b') = cleanupCalls (trace b);
  snap_clock : now b <= now b' <= now b + READINESS_TIMEOUT
}.

(** The state [onstop] leaves when it runs in [s] for a recorder of MIME
    type [mime]. *)
Record StoppedFrom (mime : string) (s s' : St) : Prop := {
  stop_status : status (cmp s') = REVIEW;
  stop_data :
    exists md, recordedData (cmp s') = Some md /\
               blob md = newBlob (chunksRef (cmp s)) mime /\
               mimeType md = mime /\
               duration md = now (brw s) - startTimeRef (cmp s);
  stop_error : error (cmp s') = error (cmp s);
  stop_recorder : mediaRecorderRef (cmp s') = mediaRecorderRef (cmp s);
  stop_chunks : chunksRef (cmp s') = chunksRef (cmp s);
  stop_Released : Released s';
  stop_live : liveTracks (brw s') = stopAll (registry s) (liveTracks (brw s));
  stop_hooks : onended (brw s') = onended (brw s);
  stop_open :
    forall c, In c (openContexts (brw s')) ->
              In c (openContexts (brw s)) /\ audioCtxRef (cmp s) <> Some c;
  stop_registered : registrations s' = registrations s;
  stop_calls : released s' = released s ++ registry s
}.

(** ** Sessions and their ends *)

(** Every cleanup closure pushed so far has been called already or is
    still on the list, and the list is empty while idle. *)
Definition Accounted (s : St) : Prop :=
  registrations s = released s ++ registry s /\
  (status (cmp s) = IDLE -> registry s = []).

Definition recorderActive (s : St) : Prop :=
  exists r, mediaRecorderRef (cmp s) = Some r /\ recState r <> Inactive.

(** The ways a capture session ends: the recorder's [stop] event
    ([onstop]), the Stop button, the [ended] event of a hooked track, and
    a start that fails. *)
Inductive Termination : Type :=
| NormalStop
| UserStop
| ExternalRevocation (t : TrackId)
| AcquisitionFailure.

Definition terminate (env : Env) (p : Termination) (s : St) : St :=
  match p with
  | NormalStop =>
      match mediaRecorderRef (cmp s) with
      | Some r => render (exec (onstop env (recStream r) (recMimeType r)) s)
      | None => s
      end
  | UserStop => handle env ClickStop s
  | ExternalRevocation t => handle env (TrackEnded t) s
  | AcquisitionFailure => handle env ClickStart s
  end.

Definition takes (env : Env) (p : Termination) (s : St) : Prop :=
  match p with
  | NormalStop => exists r, mediaRecorderRef (cmp s) = Some r
  | UserStop => status (cmp s) = RECORDING /\ recorderActive s
  | ExternalRevocation t =>
      status (cmp s) = RECORDING /\ recorderActive s /\
      In t (liveTracks (brw s)) /\ In t (onended (brw s))
  | AcquisitionFailure => status (cmp s) = IDLE /\ fatal env
  end.

(** A recording is running and [t] is a live track that carries the
    [onended] handler and is stopped by a registered closure. *)
Definition Hooked (s : St) (t : TrackId) : Prop :=
  status (cmp s) = RECORDING /\
  recorderActive s /\
  In t (liveTracks (brw s)) /\
  In t (onended (brw s)) /\
  covered t (registry s).

(** ** Order of release and error *)

Definition isRelease (e : Effect) : bool :=
  match e with
  | CallCleanup _ | CallCloseAudioContext _ | CallClearInterval _ => true
  | _ => false
  end.

Definition isSurfaced (e : Effect) : bool :=
  match e with
  | CallSetError (Some _) => true
  | _ => false
  end.

(** No release call follows a call that puts an error in the error slot. *)
Fixpoint releaseBeforeError (tr : list Effect) : bool :=
  match tr with
  | [] => true
  | e :: rest =>
      (if isSurfaced e then negb (existsb isRelease rest) else true)
      && releaseBeforeError rest
  end.

(** What was done between [s] and [s']. *)
Definition since (s s' : St) : list Effect :=
  skipn (List.length (trace (brw s))) (trace (brw s')).

(** ** Resources and what releases them *)

Inductive Resource : Type :=
| TrackResource (t : TrackId)
| ContextResource (c : nat)
| NodeResource (n : AudioNode).

(** Calling [d] releases [r]: a registered closure stops the tracks of its
    stream and does nothing else. *)
Definition disposes (d : Disposer) (r : Resource) : Prop :=
  match d, r with
  | StopTracks st, TrackResource t => In t (getTracks st)
  | _, _ => False
  end.

Definition registeredFor (ds : list Disposer) (r : Resource) : Prop :=
  exists d, In d ds /\ disposes d r.

(** ** Snapshot failures *)

(** Readiness is not signalled within the bound. *)
Definition notSignalled (env : Env) : Prop :=
  match envReadiness env with
  | ReadyAfter ms => READINESS_TIMEOUT <= ms
  | FailedAfter ms _ => READINESS_TIMEOUT <= ms
  | NeverReady => True
  end.

(** The temporary element does not become ready: it fails, or nothing is
    signalled in time. *)
Definition notReady (env : Env) : Prop :=
  match envReadiness env with
  | ReadyAfter ms => READINESS_TIMEOUT <= ms
  | FailedAfter _ _ => True
  | NeverReady => True
  end.

(** [captureSnapshot env stream] meets a failure in state [s]. *)
Definition snapshotFails (env : Env) (stream : MediaStream) (s : St) : Prop :=
  (boundTo (videoPreviewRef (cmp s)) stream = false /\ notReady env) \/
  envGetContext env = false \/
  (exists e, envDrawImage env = Some e) \/
  (exists e, envToDataURL env = Rejected e).

(** ** Example environments *)

Definition sampleFrame : string := "data:image/png;base64,iVBORw0KGgo=".

(** Everything is granted; the analysis service has no key. *)
Definition grantingEnv : Env :=
  {| envDisplay := Fulfilled {| moreVideo := 0; nAudio := 1 |};
     envMicrophone := Fulfilled 1;
     envNewAudioContext := None;
     envCreateDestination := None;
     envCreateSource := fun _ => None;
     envIsTypeSupported := fun _ => false;
     envNewMediaRecorder := None;
     envRecorderStart := None;
     envFinalData := {| blobBytes := [Byte.x1a; Byte.x45]; blobType := "video/webm" |};
     envReadiness := NeverReady;
     envVideoSize := (1280, 720);
     envGetContext := true;
     envDrawImage := None;
     envToDataURL := Fulfilled sampleFrame;
     envAnalysis := fun _ => Rejected {| message := "API Key is missing. Please check your environment configuration." |} |}.

Definition withDisplay (d : Settled StreamShape) (env : Env) : Env :=
  {| envDisplay := d;
     envMicrophone := envMicrophone env;
     envNewAudioContext := envNewAudioContext env;
     envCreateDestination := envCreateDestination env;
     envCreateSource := envCreateSource env;
     envIsTypeSupported := envIsTypeSupported env;
     envNewMediaRecorder := envNewMediaRecorder env;
     envRecorderStart := envRecorderStart env;
     envFinalData := envFinalData env;
     envReadiness := envReadiness env;
     envVideoSize := envVideoSize env;
     envGetContext := envGetContext env;
     envDrawImage := envDrawImage env;
     envToDataURL := envToDataURL env;
     envAnalysis := envAnalysis env |}.

Definition withMicrophone (m : Settled nat) (env : Env) : Env :=
  {| envDisplay := envDisplay env;
     envMicrophone := m;
     envNewAudioContext := envNewAudioContext env;
     envCreateDestination := envCreateDestination env;
     envCreateSource := envCreateSource env;
     envIsTypeSupported := envIsTypeSupported env;
     envNewMediaRecorder := envNewMediaRecorder env;
     envRecorderStart := envRecorderStart env;
     envFinalData := envFinalData env;
     envReadiness := envReadiness env;
     envVideoSize := envVideoSize env;
     envGetContext := envGetContext env;
     envDrawImage := envDrawImage env;
     envToDataURL := envToDataURL env;
     envAnalysis := envAnalysis env |}.

Definition withRecorder (r : option JsError) (env : Env) : Env :=
  {| envDisplay := envDisplay env;
     envMicrophone := envMicrophone env;
     envNewAudioContext := envNewAudioContext env;
     envCreateDestination := envCreateDestination env;
     envCreateSource := envCreateSource env;
     envIsTypeSupported := envIsTypeSupported env;
     envNewMediaRecorder := r;
     envRecorderStart := envRecorderStart env;
     envFinalData := envFinalData env;
     envReadiness := envReadiness env;
     envVideoSize := envVideoSize env;
     envGetContext := envGetContext env;
     envDrawImage := envDrawImage env;
     envToDataURL := envToDataURL env;
     envAnalysis := envAnalysis env |}.

Definition micDenied : Settled nat :=
  Rejected {| message := "Permission denied" |}.

Definition notSupported : option JsError :=
  Some {| message := "Failed to construct 'MediaRecorder': Unsupported mimeType" |}.

Definition displayDenied (msg : string) : Env :=
  withDisplay (Rejected {| message := msg |}) grantingEnv.

(** A recording started with everything granted. *)
Definition recordingState : St := handle grantingEnv ClickStart initial.

(** ** Chunks *)


(** The recorder's periodic [dataavailable] events, each in its own
    environment. *)
Definition dataEvents (emitted : list (Env * Blob)) : list (Env * Event) :=
  map (fun eb => (fst eb, DataAvailable (snd eb))) emitted.

(** A recording made and stopped with everything granted, then the
    "Retry Analysis" button: the preview is unmounted in REVIEW, so
    [captureSnapshot] builds a temporary element on a new, empty stream,
    which never becomes ready. *)
Definition retrySession : list (Env * Event) :=
  [ (grantingEnv, ClickStart); (grantingEnv, Elapse 3000);
    (grantingEnv, ClickStop); (grantingEnv, ClickRetryAnalysis) ].

(** ** The leak-freedom invariant *)

(** Nothing is out of the component's reach: every registration is either
    called or still listed, every live capture track is stopped by a
    listed closure, every open audio context is the one in [audioCtxRef],
    and outside RECORDING the list and the slot are empty. *)
Definition Sound (s : St) : Prop :=
  registrations s = released s ++ registry s /\
  (forall t, In t (liveTracks (brw s)) -> covered t (registry s)) /\
  (forall c, In c (openContexts (brw s)) -> audioCtxRef (cmp s) = Some c) /\
  (status (cmp s) <> RECORDING -> registry s = [] /\ audioCtxRef (cmp s) = None).

(** * The rest of the component, and the analysis service

    The functions of [components/VideoRecorder.tsx] that the session
    logic does not call ([formatTime], [downloadVideo]), the service
    [services/geminiService.ts] behind [analyzeRecording], and the
    predicates the later theorems are stated with. *)

(** ** The timer overlay *)

(** The character of a decimal digit. *)
Definition digitChar (d : nat) : ascii := ascii_of_nat (48 + d).

(** [n.toString()] for a non-negative integer: its decimal digits, most
    significant first, with no leading zero.  [fuel] bounds the number of
    digits. *)
Fixpoint toStringFrom (fuel n : nat) : string :=
  match fuel with
  | 0 => EmptyString
  | S fuel' =>
      if n <? 10 then String (digitChar n) EmptyString
      else String.append (toStringFrom fuel' (n / 10))
                         (String (digitChar (n mod 10)) EmptyString)
  end.

Definition toString (n : nat) : string := toStringFrom (S n) n.

(** [s.padStart(targetLength, pad)] for a one-character [pad]: a string
    that is long enough is returned as it is. *)
Definition padStart (targetLength : nat) (pad : ascii) (s : string) : string :=
  String.append
    (string_of_list_ascii (repeat pad (targetLength - String.length s))) s.

(** [formatTime], on the whole seconds that [recordingDuration] holds. *)
Definition formatTime (seconds : nat) : string :=
  let mins := seconds / 60 in
  let secs := seconds mod 60 in
  String.append (padStart 2 "0" (toString mins))
    (String ":" (padStart 2 "0" (toString secs))).

(** Reading a timer text back: the number a string of decimal digits
    denotes, and the seconds a [minutes:seconds] text stands for. *)
Definition digitValue (c : ascii) : nat := nat_of_ascii c - 48.

Fixpoint decimalValue (acc : nat) (s : string) : nat :=
  match s with
  | EmptyString => acc
  | String c rest => decimalValue (10 * acc + digitValue c) rest
  end.

Definition readTime (text : string) : option nat :=
  match split ":" text with
  | [m; s] => Some (60 * decimalValue 0 m + decimalValue 0 s)
  | _ => None
  end.

Definition isDigit (c : ascii) : bool :=
  (48 <=? nat_of_ascii c) && (nat_of_ascii c <=? 57).

Fixpoint allChars (p : ascii -> bool) (s : string) : bool :=
  match s with
  | EmptyString => true
  | String c rest => p c && allChars p rest
  end.

(** ** The MIME type of a recording *)

(** The first entry of [SUPPORTED_MIME_TYPES] the browser supports, and
    WebM when it supports none. *)
Definition firstSupported (env : Env) : string :=
  match find (envIsTypeSupported env) SUPPORTED_MIME_TYPES with
  | Some type => type
  | None => "video/webm"
  end.

(** ** Download *)

(** An [<a>] element; [anchorId] is its identity. *)
Record Anchor : Type := {
  anchorId : nat;
  href : nat;
  download : string
}.

(** The part of the document [downloadVideo] works on: the children of
    [document.body], and the downloads started by clicks, each the object
    URL and the file name offered. *)
Record Page : Type := {
  nextNode : nat;
  bodyChildren : list Anchor;
  downloads : list (nat * string)
}.

Definition appendChild (a : Anchor) (p : Page) : Page :=
  {| nextNode := nextNode p;
     bodyChildren := bodyChildren p ++ [a];
     downloads := downloads p |}.

Definition removeChild (a : Anchor) (p : Page) : Page :=
  {| nextNode := nextNode p;
     bodyChildren := filter (fun x => negb (anchorId x =? anchorId a)) (bodyChildren p);
     downloads := downloads p |}.

(** [a.click()] on an anchor that carries a [download] attribute. *)
Definition click (a : Anchor) (p : Page) : Page :=
  {| nextNode := nextNode p;
     bodyChildren := bodyChildren p;
     downloads := downloads p ++ [(href a, download a)] |}.

Definition inRange (lo hi : nat) (c : ascii) : bool :=
  (lo <=? nat_of_ascii c) && (nat_of_ascii c <=? hi).

Definition isLower (c : ascii) : bool := inRange 97 122 c.
Definition isUpper (c : ascii) : bool := inRange 65 90 c.

(** A character the class [[a-z0-9]] matches under the [i] flag. *)
Definition isAlnum (c : ascii) : bool := isLower c || isUpper c || isDigit c.

Fixpoint mapChars (f : ascii -> ascii) (s : string) : string :=
  match s with
  | EmptyString => EmptyString
  | String c rest => String (f c) (mapChars f rest)
  end.

(** [t.replace(/[^a-z0-9]/gi, '_')] *)
Definition replaceUnsafe (t : string) : string :=
  mapChars (fun c => if isAlnum c then c else "_"%char) t.

(** [t.toLowerCase()], on the letters A to Z; every other character the
    component passes to it is a digit, a lower-case letter or ["_"]. *)
Definition toLowerCase (t : string) : string :=
  mapChars (fun c => if isUpper c then ascii_of_nat (nat_of_ascii c + 32) else c) t.

(** [downloadVideo], reading the component's [recordedData] and
    [aiAnalysis]: an empty title is falsy, as a missing analysis is. *)
Definition downloadVideo (c : Component) (p : Page) : Page :=
  match recordedData c with
  | None => p
  | Some data =>
      let ext := if includes (mimeType data) "mp4" then "mp4" else "webm" in
      let name :=
        match aiAnalysis c with
        | Some analysis =>
            match title analysis with
            | EmptyString => "screen_recording"
            | t => toLowerCase (replaceUnsafe t)
            end
        | None => "screen_recording"
        end in
      let a := {| anchorId := nextNode p;
                  href := url data;
                  download := String.append name (String "." ext) |} in
      let created :=
        {| nextNode := S (nextNode p);
           bodyChildren := bodyChildren p;
           downloads := downloads p |} in
      removeChild a (click a (appendChild a created))
  end.

(** A character of a file name made by [downloadVideo]. *)
Definition isFileNameChar (c : ascii) : bool :=
  isLower c || isDigit c || Ascii.eqb c "_".

(** Every child of the body was created before [nextNode]. *)
Definition wellFormed (p : Page) : Prop :=
  forall a, In a (bodyChildren p) -> anchorId a < nextNode p.

(** A recording under review, as an example: an MP4 recording and an
    analysis whose title has upper-case letters, spaces and punctuation. *)
Definition sampleRecording : VideoMetadata :=
  {| blob := newBlob [] "video/mp4"; url := 7; mimeType := "video/mp4";
     duration := 3000; timestamp := 3000 |}.

Definition sampleAnalysis : AnalysisResult :=
  {| title := "Q3 Report: Sales/EMEA"; summary := "A spreadsheet."; tags := ["sales"] |}.

Definition reviewComponent : Component :=
  with_aiAnalysis (Some sampleAnalysis)
    (with_recordedData (Some sampleRecording)
       (with_status REVIEW
          (with_videoPreviewRef None initialComponent))).

Definition emptyPage : Page :=
  {| nextNode := 0; bodyChildren := []; downloads := [] |}.

(** A browser that records plain MP4 only. *)
Definition withTypeSupport (f : string -> bool) (env : Env) : Env :=
  {| envDisplay := envDisplay env;
     envMicrophone := envMicrophone env;
     envNewAudioContext := envNewAudioContext env;
     envCreateDestination := envCreateDestination env;
     envCreateSource := envCreateSource env;
     envIsTypeSupported := f;
     envNewMediaRecorder := envNewMediaRecorder env;
     envRecorderStart := envRecorderStart env;
     envFinalData := envFinalData env;
     envReadiness := envReadiness env;
     envVideoSize := envVideoSize env;
     envGetContext := envGetContext env;
     envDrawImage := envDrawImage env;
     envToDataURL := envToDataURL env;
     envAnalysis := envAnalysis env |}.

Definition mp4Env : Env := withTypeSupport (String.eqb "video/mp4") grantingEnv.

(** ** services/geminiService.ts *)

Module GeminiService.

Definition GEMINI_MODEL_NAME : string := "gemini-2.5-flash".

Definition PROMPT : string :=
  "Analyze this screenshot from a screen recording. Provide a catchy title, a concise summary of what is visible, and 3-5 relevant tags.".

Definition MISSING_KEY : string :=
  "API Key is missing. Please check your environment configuration.".

Definition NO_RESPONSE : string := "No response from Gemini.".

(** The argument of [ai.models.generateContent], with the key the client
    was constructed with; the response schema is a constant and is left
    out. *)
Record Request : Type := {
  apiKey : string;
  model : string;
  inlineMimeType : string;
  inlineData : string;
  text : string;
  responseMimeType : string
}.

(** What the function depends on: [process.env.API_KEY], what the API
    answers to a request (the [text] of the response, which may be
    undefined, or a rejection), and what [JSON.parse] makes of a text. *)
Record Backend : Type := {
  API_KEY : option string;
  generateContent : Request -> Settled (option string);
  parseJSON : string -> Settled AnalysisResult
}.

(** What the function does outside itself, in order: the requests sent
    and the [console.error] calls. *)
Record Outside : Type := {
  requests : list Request;
  errors : list (string * JsError)
}.

Definition Call (A : Type) : Type := Outside -> Completion A * Outside.

Definition pure {A} (a : A) : Call A := fun o => (Normal a, o).

Definition raise {A} (e : JsError) : Call A := fun o => (Thrown e, o).

Definition andThen {A B} (m : Call A) (k : A -> Call B) : Call B :=
  fun o =>
    match m o with
    | (Normal a, o') => k a o'
    | (Thrown e, o') => (Thrown e, o')
    end.

Definition attempt {A} (body : Call A) (handler : JsError -> Call A) : Call A :=
  fun o =>
    match body o with
    | (Normal a, o') => (Normal a, o')
    | (Thrown e, o') => handler e o'
    end.

(** [await ai.models.generateContent(request)], giving [response.text]. *)
Definition send (be : Backend) (request : Request) : Call (option string) :=
  fun o =>
    let o' := {| requests := requests o ++ [request]; errors := errors o |} in
    match generateContent be request with
    | Fulfilled answer => (Normal answer, o')
    | Rejected e => (Thrown e, o')
    end.

Definition consoleError (label : string) (e : JsError) : Call unit :=
  fun o => (Normal tt, {| requests := requests o; errors := errors o ++ [(label, e)] |}).

Definition jsonParse (be : Backend) (jsonText : string) : Call AnalysisResult :=
  match parseJSON be jsonText with
  | Fulfilled r => pure r
  | Rejected e => raise e
  end.

Definition requestFor (key base64Image : string) : Request :=
  {| apiKey := key;
     model := GEMINI_MODEL_NAME;
     inlineMimeType := "image/png";
     inlineData := base64Image;
     text := PROMPT;
     responseMimeType := "application/json" |}.

(** [generateVideoAnalysis]: a missing or empty key and a missing or empty
    response text are falsy. *)
Definition generateVideoAnalysis (be : Backend) (base64Image : string)
  : Call AnalysisResult :=
  match API_KEY be with
  | None | Some EmptyString => raise {| message := MISSING_KEY |}
  | Some key =>
      attempt
        (andThen (send be (requestFor key base64Image)) (fun jsonText =>
           match jsonText with
           | None | Some EmptyString => raise {| message := NO_RESPONSE |}
           | Some t => jsonParse be t
           end))
        (fun error =>
           andThen (consoleError "Gemini Analysis Failed:" error) (fun _ =>
           raise error))
  end.

Definition quiet : Outside := {| requests := []; errors := [] |}.

(** The promise the component awaits. *)
Definition answer (be : Backend) (base64Image : string) : Settled AnalysisResult :=
  match fst (generateVideoAnalysis be base64Image quiet) with
  | Normal r => Fulfilled r
  | Thrown e => Rejected e
  end.

Definition keyMissing (be : Backend) : Prop :=
  API_KEY be = None \/ API_KEY be = Some EmptyString.

(** A deployment with no key, and one whose API answers every request
    with the same JSON text. *)
Definition noKey : Backend :=
  {| API_KEY := None;
     generateContent := fun _ => Fulfilled None;
     parseJSON := fun _ => Rejected {| message := "Unexpected end of JSON input" |} |}.

Definition answering (jsonText : string) (r : AnalysisResult) : Backend :=
  {| API_KEY := Some "k";
     generateContent := fun _ => Fulfilled (Some jsonText);
     parseJSON := fun t =>
       if String.eqb t jsonText then Fulfilled r
       else Rejected {| message := "Unexpected token" |} |}.

End GeminiService.

(** The component with its analysis service answering from [be]. *)
Definition withAnalysis (f : string -> Settled AnalysisResult) (env : Env) : Env :=
  {| envDisplay := envDisplay env;
     envMicrophone := envMicrophone env;
     envNewAudioContext := envNewAudioContext env;
     envCreateDestination := envCreateDestination env;
     envCreateSource := envCreateSource env;
     envIsTypeSupported := envIsTypeSupported env;
     envNewMediaRecorder := envNewMediaRecorder env;
     envRecorderStart := envRecorderStart env;
     envFinalData := envFinalData env;
     envReadiness := envReadiness env;
     envVideoSize := envVideoSize env;
     envGetContext := envGetContext env;
     envDrawImage := envDrawImage env;
     envToDataURL := envToDataURL env;
     envAnalysis := f |}.

(** ** The status logic *)

(** The slots, cells and browser state that [acquire] never writes. *)
Definition sessionView (s : St) :=
  (status (cmp s), error (cmp s), recordedData (cmp s), aiAnalysis (cmp s),
   isAnalyzing (cmp s), recordingDuration (cmp s), mediaRecorderRef (cmp s),
   chunksRef (cmp s), timerIntervalRef (cmp s), startTimeRef (cmp s),
   audioEnabled (cmp s), activeIntervals (brw s), now (brw s),
   tempVideos (brw s)).

(** How the slots of the component hang together, at any point where a
    handler has returned: the status is never PAUSED; an error is shown
    only while idle; there is a recording exactly in REVIEW, of a listed
    MIME type that is also its blob's type; an analysis only in REVIEW;
    the status is RECORDING exactly when the recorder is recording, and
    the recorder is never paused; the only timer running is the one in
    [timerIntervalRef], and only while RECORDING; and while the session
    holds its resources the preview shows the recorded stream. *)
Record Consistent (s : St) : Prop := {
  coh_not_paused : status (cmp s) <> PAUSED;
  coh_error : error (cmp s) <> None -> status (cmp s) = IDLE;
  coh_review : status (cmp s) = REVIEW <-> recordedData (cmp s) <> None;
  coh_analysis : aiAnalysis (cmp s) <> None -> status (cmp s) = REVIEW;
  coh_analyzing : isAnalyzing (cmp s) = false;
  coh_recording :
    status (cmp s) = RECORDING <->
    exists r, mediaRecorderRef (cmp s) = Some r /\ recState r = Recording;
  coh_recorder :
    forall r, mediaRecorderRef (cmp s) = Some r ->
              recState r <> Paused /\ In (recMimeType r) SUPPORTED_MIME_TYPES;
  coh_artifact :
    forall md, recordedData (cmp s) = Some md ->
               In (mimeType md) SUPPORTED_MIME_TYPES /\
               blobType (blob md) = mimeType md;
  coh_timer :
    match timerIntervalRef (cmp s) with
    | Some id =>
        status (cmp s) = RECORDING /\ 0 < id /\ activeIntervals (brw s) = [id]
    | None => activeIntervals (brw s) = []
    end;
  coh_bound :
    status (cmp s) = RECORDING -> registry s <> [] ->
    exists r, mediaRecorderRef (cmp s) = Some r /\
              videoPreviewRef (cmp s) = Some {| srcObject := Some (recStream r) |}
}.

(** Between two events the preview element is mounted exactly outside
    REVIEW. *)
Definition Coherent (s : St) : Prop :=
  Consistent s /\
  (status (cmp s) = REVIEW <-> videoPreviewRef (cmp s) = None).

(** ** Example sessions *)

(** A start whose display request is refused. *)
Definition deniedStart : list (Env * Event) :=
  [ (displayDenied "Permission denied", ClickStart) ].

(** A service that answers every image with the same analysis. *)
Definition analysingEnv : Env :=
  withAnalysis (fun _ => Fulfilled sampleAnalysis) grantingEnv.

(** A recording made and stopped, with an analysis delivered. *)
Definition analysedSession : list (Env * Event) :=
  [ (analysingEnv, ClickStart); (analysingEnv, Elapse 2500);
    (analysingEnv, ClickStop) ].

Definition startedSession : list (Env * Event) := [ (grantingEnv, ClickStart) ].

(** ** The clock of a recording *)

(** Events after which the recorder is still recording. *)
Definition keepsRecording (ev : Event) : bool :=
  match ev with
  | ClickStop | TrackEnded _ | Unmount => false
  | _ => true
  end.

(** The milliseconds that pass during a list of events. *)
Fixpoint elapsed (evs : list (Env * Event)) : nat :=
  match evs with
  | [] => 0
  | (_, Elapse ms) :: rest => ms + elapsed rest
  | _ :: rest => elapsed rest
  end.

(** A recording that started at time [started] has been running for
    [passed] milliseconds, with its timer armed. *)
Definition Running (started passed : nat) (s : St) : Prop :=
  status (cmp s) = RECORDING /\
  (exists r, mediaRecorderRef (cmp s) = Some r /\ recState r = Recording) /\
  startTimeRef (cmp s) = started /\
  now (brw s) = started + passed /\
  exists id, timerIntervalRef (cmp s) = Some id /\ In id (activeIntervals (brw s)).

(** Two and a half seconds of a recording, with a chunk and a tick. *)
Definition quietStretch : list (Env * Event) :=
  [ (grantingEnv, Elapse 1000);
    (grantingEnv, DataAvailable {| blobBytes := [Byte.x1a]; blobType := "video/webm" |});
    (grantingEnv, IntervalFired);
    (grantingEnv, Elapse 1500) ].

(** ** The audio mix *)

(** The stream [getUserMedia] hands out in state [s]: [na] audio tracks. *)
Definition micStreamAt (na : nat) (s : St) : MediaStream :=
  let id := nextId (brw s) in
  {| streamId := id; videoTracks := []; audioTracks := seq (S id) na |}.

Definition webAudioWorks (env : Env) : Prop :=
  envNewAudioContext env = None /\
  envCreateDestination env = None /\
  (forall st, envCreateSource env st = None).

(** Building the mix of [display] and [mic] meets a failure. *)
Definition mixFails (env : Env) (display mic : MediaStream) : Prop :=
  (exists e, envNewAudioContext env = Some e) \/
  (exists e, envCreateDestination env = Some e) \/
  (audioTracks display <> [] /\ exists e, envCreateSource env display = Some e) \/
  (exists e, envCreateSource env mic = Some e).

Definition withNewAudioContext (r : option JsError) (env : Env) : Env :=
  {| envDisplay := envDisplay env;
     envMicrophone := envMicrophone env;
     envNewAudioContext := r;
     envCreateDestination := envCreateDestination env;
     envCreateSource := envCreateSource env;
     envIsTypeSupported := envIsTypeSupported env;
     envNewMediaRecorder := envNewMediaRecorder env;
     envRecorderStart := envRecorderStart env;
     envFinalData := envFinalData env;
     envReadiness := envReadiness env;
     envVideoSize := envVideoSize env;
     envGetContext := envGetContext env;
     envDrawImage := envDrawImage env;
     envToDataURL := envToDataURL env;
     envAnalysis := envAnalysis env |}.

(** A browser that grants the microphone and then cannot construct an
    audio context. *)
Definition noAudioContextEnv : Env :=
  withNewAudioContext (Some {| message := "The AudioContext could not be created" |})
    grantingEnv.

(** A display stream with one video and one audio track. *)
Definition sampleDisplay : MediaStream :=
  {| streamId := 0; videoTracks := [1]; audioTracks := [2] |}.

(** ** Snapshots *)

(** The snapshot can be taken: the frame comes from the preview or from a
    temporary element that becomes ready in time, a 2D context is
    available and drawing succeeds. *)
Definition snapshotWorks (env : Env) (stream : MediaStream) (s : St) : Prop :=
  (boundTo (videoPreviewRef (cmp s)) stream = true \/
   exists ms, envReadiness env = ReadyAfter ms /\ ms < READINESS_TIMEOUT) /\
  envGetContext env = true /\
  envDrawImage env = None.

Definition noComma (text : string) : bool :=
  allChars (fun c => negb (Ascii.eqb c ",")) text.

(** The component with its preview showing [stream]. *)
Definition previewing (stream : MediaStream) : St :=
  upd_cmp (with_videoPreviewRef (Some {| srcObject := Some stream |})) initial.

(** The component served by a deployment without API key. *)
Definition keylessEnv : Env :=
  withAnalysis (GeminiService.answer GeminiService.noKey) grantingEnv.

(** ** Encoder failures *)

(** The recorder cannot be constructed, or cannot be started, with [e]. *)
Definition encoderThrows (env : Env) (e : JsError) : Prop :=
  envNewMediaRecorder env = Some e \/
  (envNewMediaRecorder env = None /\ envRecorderStart env = Some e).

Definition withRecorderStart (r : option JsError) (env : Env) : Env :=
  {| envDisplay := envDisplay env;
     envMicrophone := envMicrophone env;
     envNewAudioContext := envNewAudioContext env;
     envCreateDestination := envCreateDestination env;
     envCreateSource := envCreateSource env;
     envIsTypeSupported := envIsTypeSupported env;
     envNewMediaRecorder := envNewMediaRecorder env;
     envRecorderStart := r;
     envFinalData := envFinalData env;
     envReadiness := envReadiness env;
     envVideoSize := envVideoSize env;
     envGetContext := envGetContext env;
     envDrawImage := envDrawImage env;
     envToDataURL := envToDataURL env;
     envAnalysis := envAnalysis env |}.

(** A browser whose recorder is constructed but refuses to start. *)
Definition startRefused : JsError :=
  {| message := "There was an error starting the MediaRecorder." |}.

Definition noStartEnv : Env := withRecorderStart (Some startRefused) grantingEnv.

(** ** Retrying the analysis *)

(** The stream [new MediaStream()] makes in state [s]: it has no track. *)
Definition emptyStreamAt (s : St) : MediaStream :=
  {| streamId := nextId (brw s); videoTracks := []; audioTracks := [] |}.

(** A recording made and stopped where the analysis service has no key:
    the review shows no analysis. *)
Definition keylessSession : list (Env * Event) :=
  [ (grantingEnv, ClickStart); (grantingEnv, Elapse 3000); (grantingEnv, ClickStop) ].

(** * Handlers that wait

    [startCapture] waits for the browser twice (lines 39 and 60) and
    [analyzeRecording] waits once for the analysis service (line 280);
    [onstop] calls [analyzeRecording] without waiting for it (line 180).
    While a handler waits, the component goes on handling events.
    [handle] runs a handler together with everything it waits for in one
    step.  Here the waiting handlers are cut at these [await]s: the code
    up to an [await] parks a [Task], and the task is run when its promise
    settles, after whatever events came in between.  The bounded wait
    inside [captureSnapshot] stays inside the step that takes the
    snapshot. *)

Inductive Task : Type :=
| AwaitDisplay (audio : bool)
| AwaitMicrophone (displayStream : MediaStream)
| AwaitAnalysis (base64Image : string).

(** Lines 33 to 39, up to the first [await].  [audio] is the
    [audioEnabled] of the render whose closure was clicked. *)
Definition startCapture_begin : M Task :=
  audio <- gets (fun s => audioEnabled (cmp s)) ;;
  setError None ;;
  modify (upd_cmp (with_cleanupCallbackRef [])) ;;
  emit CallGetDisplayMedia ;;
  ret (AwaitDisplay audio).

(** What the promise of [getDisplayMedia] settles to. *)
Definition settleDisplay (env : Env) : M MediaStream :=
  match envDisplay env with
  | Fulfilled sh => grantStream (S (moreVideo sh)) (nAudio sh)
  | Rejected e => throw e
  end.

(** What the promise of [getUserMedia] settles to. *)
Definition settleMicrophone (env : Env) : M MediaStream :=
  match envMicrophone env with
  | Fulfilled na => grantStream 0 na
  | Rejected e => throw e
  end.

(** Lines 97 to 108: the preview, the [onended] handler, the recorder. *)
Definition startCapture_finish (env : Env) (finalStream : MediaStream) : M unit :=
  preview <- gets (fun s => videoPreviewRef (cmp s)) ;;
  match preview with
  | Some _ =>
      modify (upd_cmp (with_videoPreviewRef (Some {| srcObject := Some finalStream |})))
  | None => ret tt
  end ;;
  match videoTracks finalStream with
  | t :: _ => modify (upd_brw (fun b => with_onended (onended b ++ [t]) b))
  | [] => throw undefinedTrackError
  end ;;
  startRecording env finalStream.

(** Lines 110 to 124, the [catch] of [startCapture]. *)
Definition startCapture_catch (err : JsError) : M unit :=
  emit (CallConsoleError "Error starting capture:") ;;
  cleanupResources ;;
  setError (Some (captureErrorText (message err))).

(** From the settling of the display promise to the [await] of line 60,
    or to the end of [startCapture] when the microphone is off. *)
Definition startCapture_afterDisplay (env : Env) (audio : bool) : M (option Task) :=
  try_catch
    (displayStream <- settleDisplay env ;;
     pushCleanup (StopTracks displayStream) ;;
     if audio
     then
       emit CallGetUserMedia ;;
       ret (Some (AwaitMicrophone displayStream))
     else
       startCapture_finish env displayStream ;;
       ret None)
    (fun err => startCapture_catch err ;; ret None).

(** Lines 67 to 89, the inner [try] after its [await]. *)
Definition mixAudio_rest (env : Env) (displayStream micStream : MediaStream)
  : M MediaStream :=
  pushCleanup (StopTracks micStream) ;;
  audioContext <- newAudioContext env ;;
  modify (upd_cmp (with_audioCtxRef (Some audioContext))) ;;
  dest <- createMediaStreamDestination env audioContext ;;
  (if 0 <? List.length (audioTracks displayStream)
   then
     sysSource <- createMediaStreamSource env audioContext displayStream ;;
     connect sysSource (fst dest)
   else ret tt) ;;
  micSource <- createMediaStreamSource env audioContext micStream ;;
  connect micSource (fst dest) ;;
  newMediaStream (videoTracks displayStream) (audioTracks (snd dest)).

(** From the settling of the microphone promise to the end of
    [startCapture]. *)
Definition startCapture_afterMicrophone (env : Env) (displayStream : MediaStream)
  : M unit :=
  try_catch
    (finalStream <-
       try_catch
         (micStream <- settleMicrophone env ;;
          mixAudio_rest env displayStream micStream)
         (fun micErr =>
            emit (CallConsoleWarn "Microphone access denied or unavailable:") ;;
            ret displayStream) ;;
     startCapture_finish env finalStream)
    startCapture_catch.

(** Lines 277 to 280 of [analyzeRecording], up to its [await]. *)
Definition analyzeRecording_begin (base64Image : string) : M Task :=
  setIsAnalyzing true ;;
  setAiAnalysis None ;;
  ret (AwaitAnalysis base64Image).

(** Lines 280 to 286, once the service has answered. *)
Definition analyzeRecording_settle (env : Env) (base64Image : string) : M unit :=
  try_catch
    (result <- generateVideoAnalysis env base64Image ;;
     setAiAnalysis (Some result))
    (fun e => emit (CallConsoleError "AI Analysis failed")) ;;
  setIsAnalyzing false.

(** [if (snapshot) analyzeRecording(snapshot)] without waiting for it. *)
Definition startAnalysis (snapshot : option string) : M (option Task) :=
  match truthy snapshot with
  | Some s => t <- analyzeRecording_begin s ;; ret (Some t)
  | None => ret None
  end.

(** [recorder.onstop]: lines 159 to 181, where [analyzeRecording] is
    called and left to finish by itself. *)
Definition onstop_cut (env : Env) (stream : MediaStream) (mime : string)
  : M (option Task) :=
  stopped <- dateNow ;;
  started <- gets (fun s => startTimeRef (cmp s)) ;;
  chunks <- gets (fun s => chunksRef (cmp s)) ;;
  let payload := newBlob chunks mime in
  u <- createObjectURL payload ;;
  snapshot <- captureSnapshot env stream ;;
  stamp <- dateNow ;;
  setRecordedData
    (Some {| blob := payload; url := u; mimeType := mime;
             duration := stopped - started; timestamp := stamp |}) ;;
  setStatus REVIEW ;;
  cleanupResources ;;
  startAnalysis snapshot.

Definition recorderStop_cut (env : Env) (r : MediaRecorder) : M (option Task) :=
  emit CallRecorderStop ;;
  modify (upd_cmp (with_mediaRecorderRef (Some (setRecState Inactive r)))) ;;
  ondataavailable (envFinalData env) ;;
  onstop_cut env (recStream r) (recMimeType r).

Definition stopRecording_cut (env : Env) : M (option Task) :=
  r <- gets (fun s => mediaRecorderRef (cmp s)) ;;
  match r with
  | Some rec =>
      match recState rec with
      | Inactive => ret None
      | _ => recorderStop_cut env rec
      end
  | None => ret None
  end.

Definition retryAnalysis_cut (env : Env) : M (option Task) :=
  data <- gets (fun s => recordedData (cmp s)) ;;
  match data with
  | Some _ =>
      empty <- newMediaStream [] [] ;;
      s <- captureSnapshot env empty ;;
      startAnalysis s
  | None => ret None
  end.

(** What an event runs at once, and the task it leaves waiting. *)
Definition fires (env : Env) (ev : Event) : M (option Task) :=
  st <- gets (fun s => status (cmp s)) ;;
  match ev with
  | ClickStart =>
      if isStatus st IDLE then t <- startCapture_begin ;; ret (Some t) else ret None
  | ClickStop => if isStatus st RECORDING then stopRecording_cut env else ret None
  | ClickRetryAnalysis =>
      analyzing <- gets (fun s => isAnalyzing (cmp s)) ;;
      analysis <- gets (fun s => aiAnalysis (cmp s)) ;;
      match analysis with
      | None =>
          if isStatus st REVIEW && negb analyzing then retryAnalysis_cut env else ret None
      | Some _ => ret None
      end
  | TrackEnded t =>
      live <- gets (fun s => liveTracks (brw s)) ;;
      if memTrack t live then
        stopTracks [t] ;;
        hooked <- gets (fun s => onended (brw s)) ;;
        if memTrack t hooked then stopRecording_cut env else ret None
      else ret None
  | ClickNewRecording | ClickDismiss | ToggleMicrophone _ | DataAvailable _
  | IntervalFired | Elapse _ | Unmount =>
      handler env ev ;; ret None
  end.

(** What a parked task runs when its promise settles. *)
Definition resume (env : Env) (t : Task) : M (option Task) :=
  match t with
  | AwaitDisplay audio => startCapture_afterDisplay env audio
  | AwaitMicrophone displayStream =>
      startCapture_afterMicrophone env displayStream ;; ret None
  | AwaitAnalysis base64Image =>
      analyzeRecording_settle env base64Image ;; ret None
  end.

(** What a cut handler leaves to the task it parks: nothing, or the
    settling of the analysis. *)
Definition rest_of (env : Env) (r : option Task) : M unit :=
  match r with
  | Some (AwaitAnalysis img) => analyzeRecording_settle env img
  | _ => ret tt
  end.

Definition parksAnalysis (r : option Task) : Prop :=
  r = None \/ exists img, r = Some (AwaitAnalysis img).

(** The component together with the handlers that are waiting. *)
Record Live : Type := { page : St; parked : list Task }.

Inductive Occurrence : Type :=
| Fires (ev : Event)
| Settles (k : nat).

Definition spawned (r : Completion (option Task)) : list Task :=
  match r with
  | Normal (Some t) => [t]
  | _ => []
  end.

Definition unpark (k : nat) (ts : list Task) : list Task :=
  firstn k ts ++ skipn (S k) ts.

(** One occurrence: an event fires, or the promise of the [k]-th parked
    task settles; React re-renders after either. *)
Definition occur (env : Env) (o : Occurrence) (w : Live) : Live :=
  match o with
  | Fires ev =>
      let r := fires env ev (page w) in
      {| page := match ev with
                 | Unmount => snd r
                 | _ => render (snd r)
                 end;
         parked := parked w ++ spawned (fst r) |}
  | Settles k =>
      match nth_error (parked w) k with
      | Some t =>
          let r := resume env t (page w) in
          {| page := render (snd r);
             parked := unpark k (parked w) ++ spawned (fst r) |}
      | None => w
      end
  end.

Fixpoint play (sched : list (Env * Occurrence)) (w : Live) : Live :=
  match sched with
  | [] => w
  | (env, o) :: rest => play rest (occur env o w)
  end.

Definition boot : Live := {| page := initial; parked := [] |}.

(** Nothing but the passing of time happens while a handler waits: every
    event other than [Elapse] finds no task parked. *)
Definition unhurried (o : Occurrence) (w : Live) : bool :=
  match o with
  | Fires (Elapse _) => true
  | Fires _ =>
      match parked w with
      | [] => true
      | _ :: _ => false
      end
  | Settles _ => true
  end.

Fixpoint calm (sched : list (Env * Occurrence)) (w : Live) : bool :=
  match sched with
  | [] => true
  | (env, o) :: rest => unhurried o w && calm rest (occur env o w)
  end.

(** The display stream granted to the first start of a run. *)
Definition firstDisplay : MediaStream :=
  {| streamId := 0; videoTracks := [1]; audioTracks := [2] |}.

(** A second click on Start while the first start waits for the
    microphone; the second display request is refused. *)
Definition overlappingStarts : list (Env * Occurrence) :=
  [ (grantingEnv, Fires ClickStart);
    (grantingEnv, Settles 0);
    (grantingEnv, Fires ClickStart);
    (displayDenied "Permission denied", Settles 1) ].

(** The same, carried to its end: the first start goes on without
    microphone, records for two seconds and is stopped, and the analysis
    request fails. *)
Definition overlappingSession : list (Env * Occurrence) :=
  overlappingStarts ++
  [ (withMicrophone micDenied grantingEnv, Settles 0);
    (grantingEnv, Fires (Elapse 2000));
    (grantingEnv, Fires ClickStop);
    (grantingEnv, Settles 0) ].

(** ** Chunks of a recording *)

(** The chunks the recorder emits during a list of events. *)
Fixpoint emittedChunks (evs : list (Env * Event)) : list Blob :=
  match evs with
  | [] => []
  | (_, DataAvailable data) :: rest => data :: emittedChunks rest
  | _ :: rest => emittedChunks rest
  end.

(** ** Runs in which nothing overlaps *)

(** A state the component reaches when every handler, with all it waits
    for, runs before the next event. *)
Definition Reached (s : St) : Prop := exists evs, s = run evs initial.

(** The state in which a start waits for the microphone, after a display
    stream of shape [sh] was granted to a start made in [s]. *)
Definition awaitingMicrophone (sh : StreamShape) (s : St) : St :=
  snd (startCapture_afterDisplay (withDisplay (Fulfilled sh) grantingEnv) true
         (snd (startCapture_begin s))).

(** The cut component in a run where nothing overlaps: no handler is
    waiting, or the one handler that waits was started in a state reached
    without overlap. *)
Inductive Orderly : Live -> Prop :=
| orderly_settled s :
    Reached s -> Orderly {| page := s; parked := [] |}
| orderly_display s0 :
    Reached s0 -> status (cmp s0) = IDLE ->
    Orderly {| page := snd (startCapture_begin s0);
               parked := [AwaitDisplay (audioEnabled (cmp s0))] |}
| orderly_microphone s0 sh :
    Reached s0 -> status (cmp s0) = IDLE -> audioEnabled (cmp s0) = true ->
    Orderly {| page := awaitingMicrophone sh s0;
               parked := [AwaitMicrophone (displayStreamAt sh s0)] |}
| orderly_analysis s img :
    (forall env, Reached (render (exec (analyzeRecording_settle env img) s))) ->
    Orderly {| page := s; parked := [AwaitAnalysis img] |}.

(** Everything in a state but the analysis slot, the spinner and the
    log, which are all that the settling of an analysis writes. *)
Definition apartFromAnalysis (s : St) :=
  (status (cmp s), recordedData (cmp s), audioEnabled (cmp s), error (cmp s),
   recordingDuration (cmp s), mediaRecorderRef (cmp s), audioCtxRef (cmp s),
   chunksRef (cmp s), videoPreviewRef (cmp s), timerIntervalRef (cmp s),
   startTimeRef (cmp s), cleanupCallbackRef (cmp s),
   (nextId (brw s), now (brw s), liveTracks (brw s), onended (brw s),
    openContexts (brw s), audioNodes (brw s), connections (brw s),
    tempVideos (brw s), activeIntervals (brw s))).

(** ** Example runs *)

(** A start that is granted everything, each promise settling before
    anything else happens. *)
Definition grantedStart : list (Env * Occurrence) :=
  [ (grantingEnv, Fires ClickStart); (grantingEnv, Settles 0);
    (grantingEnv, Settles 0) ].

(** A start whose display request is refused. *)
Definition refusedStart : list (Env * Occurrence) :=
  [ (displayDenied "Permission denied", Fires ClickStart);
    (displayDenied "Permission denied", Settles 0) ].

(** A recording made and stopped; the analysis arrives 800 ms after the
    stop. *)
Definition analysedRun : list (Env * Occurrence) :=
  [ (analysingEnv, Fires ClickStart); (analysingEnv, Settles 0);
    (analysingEnv, Settles 0); (analysingEnv, Fires (Elapse 2500));
    (analysingEnv, Fires ClickStop); (analysingEnv, Fires (Elapse 800));
    (analysingEnv, Settles 0) ].

(** A recording stopped in a deployment without API key; the request for
    an analysis fails as soon as it is made. *)
Definition keylessStop : list (Env * Occurrence) :=
  [ (keylessEnv, Fires ClickStop); (keylessEnv, Settles 0) ].

(** "New Recording" clicked while the analysis of the stopped recording
    is still awaited; the analysis arrives afterwards. *)
Definition lateAnalysis : list (Env * Occurrence) :=
  [ (analysingEnv, Fires ClickStart); (analysingEnv, Settles 0);
    (analysingEnv, Settles 0); (analysingEnv, Fires (Elapse 2500));
    (analysingEnv, Fires ClickStop); (analysingEnv, Fires ClickNewRecording);
    (analysingEnv, Settles 0) ].



(** ** The stream of the mix *)

(** [dest.stream] of a destination node: [createMediaStreamDestination]
    numbers the node, its stream and the one audio track of the stream
    consecutively. *)
Definition destinationStream (dest : AudioNode) : MediaStream :=
  {| streamId := S (nodeId dest);
     videoTracks := [];
     audioTracks := [S (S (nodeId dest))] |}.

(** * Proofs *)

Unset Implicit Arguments.

Section Framework.
Context {A B : Type}.

Lemma keeps_ret I (a : A) : keeps I (ret a).
Proof. intros s H. exact H. Qed.

Lemma keeps_throw I e : keeps I (@throw A e).
Proof. intros s H. exact H. Qed.

Lemma keeps_gets I (f : St -> A) : keeps I (gets f).
Proof. intros s H. exact H. Qed.

Lemma keeps_bind I (m : M A) (k : A -> M B) :
  keeps I m -> (forall a, keeps I (k a)) -> keeps I (bind m k).
Proof.
  intros Hm Hk s H. unfold bind. specialize (Hm s H).
  destruct (m s) as [[a|e] s1]; cbn in *.
  - apply Hk, Hm.
  - exact Hm.
Qed.

Lemma keeps_try I (m : M A) (h : JsError -> M A) :
  keeps I m -> (forall e, keeps I (h e)) -> keeps I (try_catch m h).
Proof.
  intros Hm Hh s H. unfold try_catch. specialize (Hm s H).
  destruct (m s) as [[a|e] s1]; cbn in *.
  - exact Hm.
  - apply Hh, Hm.
Qed.





End Framework.

Lemma keeps_modify I (f : St -> St) :
  (forall s, I s -> I (f s)) -> keeps I (modify f).
Proof. intros Hf s H. apply Hf, H. Qed.

Lemma keeps_forEach {A} I (f : A -> M unit) xs :
  (forall x, keeps I (f x)) -> keeps I (forEach xs f).
Proof.
  intros Hf. induction xs as [|x xs IH]; cbn [forEach].
  - apply keeps_ret.
  - apply keeps_bind; [apply Hf | intros _; exact IH].
Qed.

Lemma registered_app l1 l2 : registered (l1 ++ l2) = registered l1 ++ registered l2.
Proof.
  induction l1 as [|e l1 IH]; [reflexivity|].
  destruct e; cbn; rewrite IH; reflexivity.
Qed.

Lemma cleanupCalls_app l1 l2 : cleanupCalls (l1 ++ l2) = cleanupCalls l1 ++ cleanupCalls l2.
Proof.
  induction l1 as [|e l1 IH]; [reflexivity|].
  destruct e; cbn; rewrite IH; reflexivity.
Qed.

Lemma created_app l1 l2 : created (l1 ++ l2) = created l1 ++ created l2.
Proof.
  induction l1 as [|e l1 IH]; [reflexivity|].
  destruct e; cbn; rewrite IH; reflexivity.
Qed.

Lemma created_calls ds : created (map CallCleanup ds) = [].
Proof. induction ds; cbn; auto. Qed.

Lemma registered_calls ds : registered (map CallCleanup ds) = [].
Proof. induction ds; cbn; auto. Qed.

Lemma cleanupCalls_calls ds : cleanupCalls (map CallCleanup ds) = ds.
Proof. induction ds; cbn; congruence. Qed.

Ltac reduce_fields_in_all :=
  unfold atTry, registry, registrations, released, creations, displayStreamAt in *;
  cbn [cmp brw status recordedData audioEnabled error recordingDuration
       isAnalyzing aiAnalysis mediaRecorderRef audioCtxRef chunksRef
       videoPreviewRef timerIntervalRef startTimeRef cleanupCallbackRef
       nextId now liveTracks onended openContexts audioNodes connections
       tempVideos activeIntervals trace
       upd_cmp upd_brw with_status with_recordedData with_audioEnabled
       with_error with_recordingDuration with_isAnalyzing with_aiAnalysis
       with_mediaRecorderRef with_audioCtxRef with_chunksRef
       with_videoPreviewRef with_timerIntervalRef with_startTimeRef
       with_cleanupCallbackRef with_nextId with_now with_liveTracks
       with_onended with_openContexts with_audioNodes with_connections
       with_tempVideos with_activeIntervals with_trace] in *.

Ltac trace_calls :=
  rewrite ?registered_app, ?cleanupCalls_app, ?created_app,
    ?registered_calls, ?cleanupCalls_calls, ?created_calls;
  cbn [registered cleanupCalls created app];
  rewrite ?app_nil_r.

Lemma forEach_callCleanup ds : forall s,
  forEach ds callCleanup s =
  (Normal tt,
   upd_brw (fun b => with_trace (trace b ++ map CallCleanup ds)
                       (with_liveTracks (stopAll ds (liveTracks b)) b)) s).
Proof.
  induction ds as [|[st] ds IH]; intros s.
  - split_state s. js. cbn. rewrite app_nil_r. reflexivity.
  - cbn [forEach]. unfold bind at 1. unfold callCleanup at 1.
    split_state s. js. rewrite IH. js.
    rewrite <- app_assoc. reflexivity.
Qed.

Lemma cleanupResources_cleaned s : cleanupResources s = (Normal tt, cleaned s).
Proof.
  split_state s.
  unfold cleanupResources, cleaned. js.
  destruct timerIntervalRef0 as [[|n]|].
  all: js; rewrite forEach_callCleanup; js.
  all: destruct audioCtxRef0; js.
  all: destruct videoPreviewRef0; js.
  all: rewrite ?app_nil_r, <- ?app_assoc; cbn [app]; try reflexivity.
Qed.

Lemma skipn_length_app {A} (l r : list A) : skipn (List.length l) (l ++ r) = r.
Proof. induction l; cbn; auto. Qed.

Lemma covered_here t st ds : In t (getTracks st) -> covered t (StopTracks st :: ds).
Proof. intros H. exists st. split; [left; reflexivity | exact H]. Qed.

Lemma covered_later t d ds : covered t ds -> covered t (d :: ds).
Proof. intros (st & H1 & H2). exists st. split; [right; exact H1 | exact H2]. Qed.

Ltac in_list :=
  unfold getTracks; cbn [videoTracks audioTracks seq app];
  rewrite ?in_app_iff; cbn [In]; auto 8.

Ltac tracked :=
  let H := fresh in
  intros H; cbn in H; subst;
  repeat split; unfold registry; cbn [cmp brw liveTracks openContexts audioNodes
                                      cleanupCallbackRef audioCtxRef app];
  intros ? ?;
  repeat match goal with
         | H : In _ (_ ++ _) |- _ => apply in_app_or in H; destruct H
         | H : In _ [_] |- _ => destruct H as [<-|[]]
         end;
  first [ left; assumption
        | right; reflexivity
        | right; apply covered_here; assumption
        | right; apply covered_later, covered_here; assumption ].

Ltac acq_leaf :=
  eexists; eexists; (split; [reflexivity|]);
  constructor;
  unfold registrations, released, registry, creations, displayStreamAt; reduce_fields;
  first
    [ reflexivity
    | solve [in_list]
    | solve [eexists; rewrite <- ?app_assoc; reflexivity]
    | solve [rewrite !registered_app; cbn [registered];
             rewrite <- ?app_assoc, skipn_length_app;
             cbn [app]; rewrite ?app_nil_r; reflexivity]
    | solve [rewrite !cleanupCalls_app; cbn [cleanupCalls]; rewrite ?app_nil_r; reflexivity]
    | solve [tracked]
    | solve [let H := fresh in
             intros H;
             first [ repeat split; trace_calls; reflexivity
                   | exfalso; destruct H as [H|[? H]]; congruence ]]
    | idtac ].

Ltac split_env :=
  match goal with
  | |- context [match envMicrophone ?e with _ => _ end] =>
      destruct (envMicrophone e) eqn:?
  | |- context [match envNewAudioContext ?e with _ => _ end] =>
      destruct (envNewAudioContext e) eqn:?
  | |- context [match envCreateDestination ?e with _ => _ end] =>
      destruct (envCreateDestination e) eqn:?
  | |- context [match envCreateSource ?e ?x with _ => _ end] =>
      destruct (envCreateSource e x) eqn:?
  | |- context [match envNewMediaRecorder ?e with _ => _ end] =>
      destruct (envNewMediaRecorder e) eqn:?
  | |- context [match envRecorderStart ?e with _ => _ end] =>
      destruct (envRecorderStart e) eqn:?
  | |- context [if 0 <? ?n then _ else _] => destruct (0 <? n) eqn:?
  end.

Lemma acquire_granted env sh s :
  envDisplay env = Fulfilled sh ->
  exists f s1, acquire env s = (Normal f, s1) /\ Acquired env sh s s1 f.
Proof.
  intros Hd. split_state s.
  unfold acquire, mixAudio, getDisplayMedia, getUserMedia. js. rewrite Hd. js.
  destruct audioEnabled0; js.
  2: { destruct videoPreviewRef0; js; acq_leaf. }
  repeat (split_env; js).
  all: destruct videoPreviewRef0; js; acq_leaf.
Qed.

Lemma acquire_rejected env e s :
  envDisplay env = Rejected e ->
  acquire env s = (Thrown e, exec (emit CallGetDisplayMedia) s).
Proof.
  intros Hd. unfold acquire, getDisplayMedia. js. rewrite Hd. reflexivity.
Qed.

Lemma stopAll_subset ds : forall live t, In t (stopAll ds live) -> In t live.
Proof.
  induction ds as [|[st] ds IH]; intros live t H; cbn in *; [exact H|].
  apply IH in H. apply filter_In in H. tauto.
Qed.

Lemma stopAll_uncovered ds : forall live t,
  In t (stopAll ds live) -> ~ covered t ds.
Proof.
  induction ds as [|[st] ds IH]; intros live t H (st' & Hin & Ht); cbn in *.
  - exact Hin.
  - destruct Hin as [Heq|Hin].
    + injection Heq as <-. apply stopAll_subset in H. apply filter_In in H.
      destruct H as [_ H]. apply negb_true_iff in H.
      assert (memTrack t (getTracks st) = true).
      { apply existsb_exists. exists t. split; [exact Ht | apply Nat.eqb_refl]. }
      congruence.
    + apply (IH _ _ H). exists st'. auto.
Qed.

(** The state in which the [try] block of [startCapture] starts. *)
Lemma startCapture_try env s :
  startCapture env s =
  try_catch
    (finalStream <- acquire env ;; startRecording env finalStream)
    (fun err =>
       emit (CallConsoleError "Error starting capture:") ;;
       cleanupResources ;;
       setError (Some (captureErrorText (message err))))
    (atTry s).
Proof. reflexivity. Qed.

Lemma startRecording_total env f s : fst (startRecording env f s) = Normal tt.
Proof.
  split_state s. unfold startRecording. js.
  repeat (split_env; js); rewrite ?cleanupResources_cleaned; reflexivity.
Qed.

Lemma startCapture_granted env sh s :
  envDisplay env = Fulfilled sh ->
  exists f s1,
    Acquired env sh (atTry s) s1 f /\
    exec (startCapture env) s = exec (startRecording env f) s1.
Proof.
  intros Hd. unfold exec at 1. rewrite startCapture_try.
  destruct (acquire_granted env sh
              (atTry s) Hd)
    as (f & s1 & Heq & Hacq).
  exists f, s1. split; [exact Hacq|].
  unfold try_catch, bind. rewrite Heq.
  pose proof (startRecording_total env f s1) as Ht. unfold exec.
  destruct (startRecording env f s1) as [r s2]. cbn [fst] in Ht. subst r. reflexivity.
Qed.

Lemma startCapture_rejected env e s :
  envDisplay env = Rejected e ->
  exec (startCapture env) s =
  exec (setError (Some (captureErrorText (message e))))
    (cleaned
       (exec (emit (CallConsoleError "Error starting capture:"))
          (exec (emit CallGetDisplayMedia)
             (atTry s)))).
Proof.
  intros Hd. unfold exec at 1. rewrite startCapture_try.
  unfold try_catch, bind at 1. rewrite (acquire_rejected env e _ Hd).
  unfold bind at 1, emit at 1, modify at 1. unfold bind at 1.
  rewrite cleanupResources_cleaned. reflexivity.
Qed.

(** [startCapture] never throws. *)
Lemma startCapture_normal env s : fst (startCapture env s) = Normal tt.
Proof.
  rewrite startCapture_try. unfold try_catch, bind at 1.
  destruct (envDisplay env) as [sh|e] eqn:Hd.
  - destruct (acquire_granted env sh
                (atTry s) Hd)
      as (f & s1 & -> & _).
    pose proof (startRecording_total env f s1) as Ht.
    destruct (startRecording env f s1) as [r s2]. cbn [fst] in Ht. subst r. reflexivity.
  - rewrite (acquire_rejected env e _ Hd).
    unfold bind at 1, emit at 1, modify at 1. unfold bind at 1.
    rewrite cleanupResources_cleaned. reflexivity.
Qed.

Lemma cleaned_registrations s : registrations (cleaned s) = registrations s.
Proof.
  split_state s. unfold registrations, cleaned. js.
  destruct timerIntervalRef0 as [[|n]|]; destruct audioCtxRef0;
    trace_calls; reflexivity.
Qed.

Lemma cleaned_released s : released (cleaned s) = released s ++ registry s.
Proof.
  split_state s. unfold released, registry, cleaned. js.
  destruct timerIntervalRef0 as [[|n]|]; destruct audioCtxRef0;
    trace_calls; reflexivity.
Qed.

Lemma cleaned_creations s : creations (cleaned s) = creations s.
Proof.
  split_state s. unfold creations, cleaned. js.
  destruct timerIntervalRef0 as [[|n]|]; destruct audioCtxRef0;
    trace_calls; reflexivity.
Qed.

Lemma cleaned_trace e s :
  In e (trace (brw s)) -> In e (trace (brw (cleaned s))).
Proof.
  split_state s. unfold cleaned. js. intros H. apply in_or_app. left. exact H.
Qed.

Lemma cleaned_Released s : Released (cleaned s).
Proof.
  split_state s. unfold Released, cleaned, registry. js.
  repeat split.
  - destruct timerIntervalRef0 as [[|n]|]; auto.
  - destruct videoPreviewRef0; auto.
Qed.

Lemma cleaned_tracks s0 s t :
  Tracked s0 s -> In t (liveTracks (brw (cleaned s))) -> In t (liveTracks (brw s0)).
Proof.
  intros (Hl & _ & _) H. split_state s. unfold cleaned in H. reduce_fields_in_all.
  revert H. js. intros H.
  pose proof (stopAll_subset _ _ _ H) as Hin.
  pose proof (stopAll_uncovered _ _ _ H) as Hun.
  destruct (Hl t Hin) as [?|Hc]; [assumption | contradiction].
Qed.

Lemma cleaned_contexts s0 s c :
  Tracked s0 s -> In c (openContexts (brw (cleaned s))) -> In c (openContexts (brw s0)).
Proof.
  intros (_ & Hc & _) H. split_state s. unfold cleaned in H. reduce_fields_in_all.
  revert H. js. destruct audioCtxRef0 as [x|]; intros H.
  - apply filter_In in H. destruct H as [Hin Hne].
    destruct (Hc c Hin) as [?|Heq]; [assumption|].
    injection Heq as <-. rewrite Nat.eqb_refl in Hne. discriminate.
  - destruct (Hc c H) as [?|Heq]; [assumption | discriminate].
Qed.

Lemma Tracked_fields s0 s s' :
  liveTracks (brw s') = liveTracks (brw s) ->
  openContexts (brw s') = openContexts (brw s) ->
  audioNodes (brw s') = audioNodes (brw s) ->
  registry s' = registry s ->
  audioCtxRef (cmp s') = audioCtxRef (cmp s) ->
  Tracked s0 s -> Tracked s0 s'.
Proof.
  unfold Tracked. intros -> -> -> -> ->. auto.
Qed.

Lemma Tracked_same s0 s s' :
  SameResources s s' -> Tracked s0 s -> Tracked s0 s'.
Proof.
  intros []. apply Tracked_fields; assumption.
Qed.

Lemma Tracked_from s0' s0 s :
  liveTracks (brw s0') = liveTracks (brw s0) ->
  openContexts (brw s0') = openContexts (brw s0) ->
  audioNodes (brw s0') = audioNodes (brw s0) ->
  Tracked s0' s -> Tracked s0 s.
Proof.
  unfold Tracked. intros -> -> ->. auto.
Qed.

Ltac same_resources :=
  constructor; reduce_fields_in_all; trace_calls; reflexivity.

(** A failed [startRecording] sets the error and then runs
    [cleanupResources]. *)
Lemma startRecording_fails env f s :
  (exists e, envNewMediaRecorder env = Some e) \/
  (exists e, envRecorderStart env = Some e) ->
  exists s2,
    startRecording env f s = (Normal tt, cleaned s2) /\
    (exists msg, error (cmp s2) = Some msg) /\
    In (CallNewMediaRecorder f (pickMimeType env)) (trace (brw s2)) /\
    SameResources s s2.
Proof.
  intros Henc. unfold startRecording. split_state s. js.
  destruct Henc as [[e He]|[e He]].
  - rewrite He. js. rewrite cleanupResources_cleaned.
    eexists. split; [reflexivity|]. split; [eexists; reflexivity|].
    split; [cbn [trace brw]; rewrite !in_app_iff; cbn [In]; auto|]. same_resources.
  - destruct (envNewMediaRecorder env); js; rewrite ?He; js;
      rewrite cleanupResources_cleaned;
      (eexists; split; [reflexivity|]; split; [eexists; reflexivity|]);
      (split; [cbn [trace brw]; rewrite !in_app_iff; cbn [In]; auto 7|]); same_resources.
Qed.

Lemma startCapture_fails env s :
  fatal env -> FailedStart s (exec (startCapture env) s).
Proof.
  intros Hf. destruct (envDisplay env) as [sh|e] eqn:Hd.
  - destruct (startCapture_granted env sh s Hd) as (f & s1 & Hacq & ->).
    assert (Htr : Tracked s s1).
    { apply Tracked_from
        with (atTry s);
        try reflexivity.
      apply Hacq. reflexivity. }
    destruct Hacq. clear acq_tracked0 acq_passthrough0.
    destruct Hf as [[e He]|[_ Henc]]; [congruence|].
    destruct (startRecording_fails env f s1 Henc) as (s2 & Heq & Herr & _ & Hsame).
    unfold exec at 1. rewrite Heq. cbn [snd].
    assert (Htr2 : Tracked s s2) by (eapply Tracked_same; eauto).
    destruct Hsame.
    unfold atTry, exec, setError, bind, emit, modify in *. cbn [fst snd] in *.
    constructor.
    + unfold cleaned. reduce_fields_in_all. congruence.
    + unfold cleaned. reduce_fields_in_all. exact Herr.
    + unfold cleaned. reduce_fields_in_all. congruence.
    + apply cleaned_Released.
    + intros t. apply cleaned_tracks. exact Htr2.
    + intros c. apply cleaned_contexts. exact Htr2.
    + exists (registry s1).
      rewrite cleaned_registrations, cleaned_released, same_registered0,
        same_released0, same_registry0, acq_registered0, acq_released0.
      reduce_fields_in_all. trace_calls. cbn [List.length skipn]. auto.
  - rewrite (startCapture_rejected env e s Hd). split_state s.
    unfold atTry, exec, setError, bind, emit, modify, cleaned. cbn [fst snd].
    constructor; reduce_fields_in_all.
    + reflexivity.
    + eauto.
    + reflexivity.
    + unfold Released, registry. reduce_fields_in_all. repeat split.
      * destruct timerIntervalRef0 as [[|n]|]; auto.
      * destruct videoPreviewRef0; auto.
    + intros t H. exact H.
    + intros c. destruct audioCtxRef0; [|auto]. intros H. apply filter_In in H. tauto.
    + exists []. trace_calls.
      destruct timerIntervalRef0 as [[|n]|]; destruct audioCtxRef0;
      cbn [app]; trace_calls; rewrite ?app_nil_r; auto.
Qed.

Lemma startCapture_starts env sh s :
  envDisplay env = Fulfilled sh ->
  envNewMediaRecorder env = None ->
  envRecorderStart env = None ->
  StartedFrom env sh s (exec (startCapture env) s).
Proof.
  intros Hd Hctor Hstart.
  destruct (startCapture_granted env sh s Hd) as (f & s1 & Hacq & ->).
  assert (Htr : Tracked s s1).
  { apply Tracked_from
      with (atTry s);
      try reflexivity.
    apply Hacq. reflexivity. }
  destruct Hacq. clear acq_tracked0.
  unfold atTry, exec, setError, bind, emit, modify in *. cbn [fst snd] in *.
  reduce_fields_in_all.
  unfold startRecording. split_state s1. js. rewrite Hctor. js. rewrite Hstart. js.
  reduce_fields_in_all. subst.
  destruct acq_registry0 as [rest Hrest]. cbn [app] in Hrest.
  constructor; reduce_fields_in_all; trace_calls.
  - reflexivity.
  - reflexivity.
  - reflexivity.
  - reflexivity.
  - exists f. repeat split; auto.
    intros H. apply acq_passthrough0 in H. tauto.
  - assumption.
  - assumption.
  - eauto.
  - rewrite acq_registered0. trace_calls. reflexivity.
  - rewrite acq_released0. trace_calls. reflexivity.
  - revert Htr. apply Tracked_fields; reflexivity.
  - intros H. apply acq_passthrough0 in H. cbn [app] in H. tauto.
Qed.

Ltac split_snapshot :=
  match goal with
  | |- context [match envReadiness ?e with _ => _ end] =>
      destruct (envReadiness e) eqn:?
  | |- context [match envDrawImage ?e with _ => _ end] =>
      destruct (envDrawImage e) eqn:?
  | |- context [match envToDataURL ?e with _ => _ end] =>
      destruct (envToDataURL e) eqn:?
  | |- context [if negb (envGetContext ?e) then _ else _] =>
      destruct (envGetContext e) eqn:?
  | |- context [if ?n <? READINESS_TIMEOUT then _ else _] =>
      destruct (n <? READINESS_TIMEOUT) eqn:?
  | |- context [if boundTo ?p ?st then _ else _] =>
      destruct (boundTo p st) eqn:?
  end.

Lemma captureSnapshot_spec env stream s :
  exists r b',
    captureSnapshot env stream s = (Normal r, {| cmp := cmp s; brw := b' |}) /\
    SnapshotFrame (brw s) b'.
Proof.
  split_state s. unfold captureSnapshot. js.
  repeat (split_snapshot; js; cbn [negb]).
  all: eexists; eexists; (split; [reflexivity|]).
  all: constructor; cbn [liveTracks onended openContexts audioNodes connections
                         activeIntervals trace now];
       try reflexivity; trace_calls; try reflexivity.
  all: try (apply Nat.ltb_lt in Heqb0); unfold READINESS_TIMEOUT in *; try lia.
Qed.

Lemma analyzeRecording_run env img s :
  exists a tr,
    registered tr = [] /\ cleanupCalls tr = [] /\
    analyzeRecording env img s =
    (Normal tt,
     upd_cmp (fun c => with_isAnalyzing false (with_aiAnalysis a c))
       (upd_brw (fun b => with_trace (trace b ++ tr) b) s)).
Proof.
  split_state s. unfold analyzeRecording. js.
  destruct (envAnalysis env img); js.
  - exists (Some a), []. rewrite app_nil_r. auto.
  - exists None, [CallConsoleError "AI Analysis failed"]. auto.
Qed.

Lemma StoppedFrom_analysis mime s s1 a tr :
  registered tr = [] -> cleanupCalls tr = [] ->
  StoppedFrom mime s s1 ->
  StoppedFrom mime s
    (upd_cmp (fun c => with_isAnalyzing false (with_aiAnalysis a c))
       (upd_brw (fun b => with_trace (trace b ++ tr) b) s1)).
Proof.
  intros Hr Hc []. unfold Released in *.
  constructor; reduce_fields_in_all; trace_calls; rewrite ?Hr, ?Hc, ?app_nil_r;
    assumption.
Qed.

(** [cleanupResources] run in a state [m] that holds the resources of [s]
    and already shows the artifact. *)
Lemma cleaned_StoppedFrom mime s m :
  status (cmp m) = REVIEW ->
  (exists md, recordedData (cmp m) = Some md /\
              blob md = newBlob (chunksRef (cmp s)) mime /\
              mimeType md = mime /\
              duration md = now (brw s) - startTimeRef (cmp s)) ->
  error (cmp m) = error (cmp s) ->
  mediaRecorderRef (cmp m) = mediaRecorderRef (cmp s) ->
  chunksRef (cmp m) = chunksRef (cmp s) ->
  registry m = registry s ->
  audioCtxRef (cmp m) = audioCtxRef (cmp s) ->
  liveTracks (brw m) = liveTracks (brw s) ->
  onended (brw m) = onended (brw s) ->
  openContexts (brw m) = openContexts (brw s) ->
  registrations m = registrations s ->
  released m = released s ->
  StoppedFrom mime s (cleaned m).
Proof.
  intros Hst Hdata Herr Hrec Hch Hreg Hctx Hlive Hhook Hopen Hregs Hrel.
  constructor; try apply cleaned_Released;
    rewrite ?cleaned_registrations, ?cleaned_released;
    unfold cleaned; reduce_fields_in_all; try congruence.
  intros c. rewrite Hctx, Hopen. destruct (audioCtxRef (cmp s)) as [x|]; intros H.
  - apply filter_In in H. destruct H as [Hin Hne]. split; [exact Hin|].
    intros Heq. injection Heq as <-. rewrite Nat.eqb_refl in Hne. discriminate.
  - split; [exact H | discriminate].
Qed.

Ltac run_monad :=
  cbv beta iota delta
    [bind gets modify ret dateNow createObjectURL freshId setRecordedData
     setStatus emit].

Lemma onstop_spec env stream mime s :
  exists s', onstop env stream mime s = (Normal tt, s') /\ StoppedFrom mime s s'.
Proof.
  unfold onstop. run_monad.
  match goal with |- context [captureSnapshot env stream ?s0] =>
    destruct (captureSnapshot_spec env stream s0) as (r & b' & -> & Hframe)
  end.
  run_monad. rewrite cleanupResources_cleaned.
  match goal with |- context [cleaned ?m] =>
    assert (Hclean : StoppedFrom mime s (cleaned m))
  end.
  { destruct Hframe.
    apply cleaned_StoppedFrom; reduce_fields_in_all; trace_calls;
      try reflexivity; try assumption.
    eexists. repeat split. }
  destruct (truthy r) as [img|].
  - match goal with |- context [analyzeRecording env img ?x] =>
      destruct (analyzeRecording_run env img x) as (a & tr & Hr & Hc & ->)
    end.
    eexists. split; [reflexivity|]. apply StoppedFrom_analysis; assumption.
  - eexists. split; [reflexivity|]. exact Hclean.
Qed.







(** ** Every end of a session releases everything *)

Lemma Released_cleaned s : Released s -> cleaned s = s.
Proof.
  unfold Released, registry. split_state s. unfold cleaned. reduce_fields_in_all.
  intros (-> & -> & Ht & Hp).
  destruct Ht as [->| ->], Hp as [->| ->]; cbn [map app stopAll fold_left];
    rewrite app_nil_r; reflexivity.
Qed.

Lemma render_Released s : Released s -> Released (render s).
Proof.
  split_state s. unfold Released, render, registry. reduce_fields_in_all.
  intros (H1 & H2 & H3 & H4).
  destruct status0, recordedData0, videoPreviewRef0; reduce_fields_in_all; auto.
Qed.

Lemma render_frame s :
  registry (render s) = registry s /\
  registrations (render s) = registrations s /\
  released (render s) = released s /\
  status (cmp (render s)) = status (cmp s) /\
  recordedData (cmp (render s)) = recordedData (cmp s) /\
  error (cmp (render s)) = error (cmp s) /\
  audioCtxRef (cmp (render s)) = audioCtxRef (cmp s) /\
  brw (render s) = brw s.
Proof.
  split_state s. unfold render. reduce_fields_in_all.
  destruct status0, recordedData0, videoPreviewRef0;
    reduce_fields_in_all; repeat split; reflexivity.
Qed.


Lemma memTrack_In t ts : In t ts -> memTrack t ts = true.
Proof.
  intros H. apply existsb_exists. exists t. split; [exact H | apply Nat.eqb_refl].
Qed.

(** What [stopRecording] does to an active recorder: the final data goes
    through [ondataavailable], then [onstop] runs. *)
Lemma stopRecording_active env s r :
  mediaRecorderRef (cmp s) = Some r -> recState r <> Inactive ->
  exists m s',
    stopRecording env s = (Normal tt, s') /\
    StoppedFrom (recMimeType r) m s' /\
    SameResources s m /\
    chunksRef (cmp m) =
      chunksRef (cmp s) ++ filter (fun b => 0 <? blobSize b) [envFinalData env].
Proof.
  intros Hr Hact. unfold stopRecording, recorderStop. split_state s.
  reduce_fields_in_all. subst.
  destruct r as [st f mime]. cbn [recState recMimeType] in *. js.
  destruct st; [congruence| |].
  all: destruct (0 <? blobSize (envFinalData env)) eqn:Hsize; js.
  all: match goal with |- context [onstop ?e ?f ?mime ?m] =>
         destruct (onstop_spec e f mime m) as (s' & -> & Hstop);
         exists m, s'
       end.
  all: split; [reflexivity|]; split; [exact Hstop|]; split;
       [same_resources | cbn [filter]; rewrite ?Hsize, ?app_nil_r; reflexivity].
Qed.

Lemma stop_Accounted mime s m s' :
  Accounted s -> SameResources s m -> StoppedFrom mime m s' ->
  registry s' = [] /\ released s' = registrations s' /\ cleaned s' = s'.
Proof.
  intros [Hacc _] [] [].
  split; [apply stop_Released0|]. split.
  - rewrite stop_calls0, stop_registered0, same_released0, same_registry0,
      same_registered0. symmetry. exact Hacc.
  - apply Released_cleaned. exact stop_Released0.
Qed.

Lemma render_done s :
  registry s = [] /\ released s = registrations s /\ cleaned s = s ->
  Released s ->
  registry (render s) = [] /\
  released (render s) = registrations (render s) /\
  exec cleanupResources (render s) = render s.
Proof.
  intros (H1 & H2 & H3) HR.
  destruct (render_frame s) as (E1 & E2 & E3 & _).
  rewrite E1, E2, E3. repeat split; try assumption.
  unfold exec. rewrite cleanupResources_cleaned. cbn [snd].
  apply Released_cleaned, render_Released, HR.
Qed.

Lemma stop_path env s r :
  Accounted s ->
  mediaRecorderRef (cmp s) = Some r -> recState r <> Inactive ->
  registry (render (exec (stopRecording env) s)) = [] /\
  released (render (exec (stopRecording env) s)) =
    registrations (render (exec (stopRecording env) s)) /\
  exec cleanupResources (render (exec (stopRecording env) s)) =
    render (exec (stopRecording env) s).
Proof.
  intros Hacc Hr Hact.
  destruct (stopRecording_active env s r Hr Hact) as (m & s' & Heq & Hstop & Hsame & _).
  replace (exec (stopRecording env) s) with s' by (unfold exec; rewrite Heq; reflexivity).
  apply render_done.
  - eapply stop_Accounted; eauto.
  - apply Hstop.
Qed.

Lemma FailedStart_done s s' :
  Accounted s -> status (cmp s) = IDLE -> FailedStart s s' ->
  registry s' = [] /\ released s' = registrations s' /\ cleaned s' = s'.
Proof.
  intros [Hacc Hidle] Hst [].
  destruct fail_calls0 as (ds & Hregs & Hrel).
  split; [apply fail_released0|]. split.
  - rewrite Hregs, Hrel, Hacc, (Hidle Hst), app_nil_r. reflexivity.
  - apply Released_cleaned. exact fail_released0.
Qed.

(** Where the bookkeeping is intact ([Accounted]: every closure pushed so
    far has been called or is still on the list), each way a capture
    session ends (the recorder's stop event, the Stop button, the ended
    event of the hooked track, a start that fails) leaves the cleanup list
    empty, with the closures called exactly the closures ever registered,
    each once and in order, and running [cleanupResources] again changes
    nothing.  [Accounted] holds as long as no start runs while another
    start is waiting; the theorem after this one shows what happens
    otherwise. *)
Lemma release_on_every_termination env p s :
  Accounted s -> takes env p s ->
  registry (terminate env p s) = [] /\
  released (terminate env p s) = registrations (terminate env p s) /\
  exec cleanupResources (terminate env p s) = terminate env p s.
Proof.
  intros Hacc Htakes. destruct p as [| |t|]; cbn [terminate takes] in *.
  - destruct Htakes as [r Hr]. rewrite Hr.
    destruct (onstop_spec env (recStream r) (recMimeType r) s) as (s' & Heq & Hstop).
    replace (exec (onstop env (recStream r) (recMimeType r)) s) with s'
      by (unfold exec; rewrite Heq; reflexivity).
    apply render_done.
    + eapply stop_Accounted; [exact Hacc | | exact Hstop].
      constructor; reflexivity.
    + apply Hstop.
  - destruct Htakes as [Hst (r & Hr & Hact)].
    replace (handle env ClickStop s) with (render (exec (stopRecording env) s))
      by (unfold handle, handler, exec, bind, gets; rewrite Hst; reflexivity).
    apply (stop_path env s r); assumption.
  - destruct Htakes as (Hst & (r & Hr & Hact) & Hlive & Hhook).
    assert (Heq : exec (handler env (TrackEnded t)) s =
                  exec (stopRecording env) (dropTrack t s)).
    { unfold handler, exec. unfold bind at 1, gets at 1. unfold bind at 1, gets at 1.
      rewrite (memTrack_In _ _ Hlive).
      unfold bind at 1. unfold stopTracks at 1, modify at 1.
      unfold bind at 1, gets at 1.
      change (onended (brw (upd_brw _ s))) with (onended (brw s)).
      rewrite (memTrack_In _ _ Hhook). reflexivity. }
    unfold handle. rewrite Heq.
    apply (stop_path env (dropTrack t s) r); assumption.
  - destruct Htakes as [Hst Hfatal].
    replace (handle env ClickStart s) with (render (exec (startCapture env) s))
      by (unfold handle, handler, exec, bind, gets; rewrite Hst; reflexivity).
    pose proof (startCapture_fails env s Hfatal) as Hfail.
    apply render_done.
    + apply (FailedStart_done s); assumption.
    + apply Hfail.
Qed.

Lemma release_on_every_termination_example :
  registry (terminate grantingEnv UserStop recordingState) = [] /\
  released (terminate grantingEnv UserStop recordingState) =
    registrations (terminate grantingEnv UserStop recordingState) /\
  exec cleanupResources (terminate grantingEnv UserStop recordingState) =
    terminate grantingEnv UserStop recordingState.
Proof.
  apply (release_on_every_termination grantingEnv UserStop recordingState).
  - split; [vm_compute; reflexivity | intros H; vm_compute in H; discriminate H].
  - split; [vm_compute; reflexivity|].
    eexists. split; [vm_compute; reflexivity | vm_compute; discriminate].
Qed.

(** C1 fails on the code.  Start is clicked, the display stream is
    granted and its stopper pushed on the cleanup list (line 53), and
    [startCapture] waits for the microphone (line 60).  The status is
    still IDLE, so the Start button is still there; a second click runs
    line 34 again and empties the list without calling the stopper.  When
    the second display request is refused, the [catch] runs
    [cleanupResources] on the empty list: the list is empty afterwards,
    one closure has been registered, none has been called, and the
    display tracks are live.  The first start then goes on and records;
    after Stop the component is in REVIEW, the timer is cleared and the
    list is empty, and the stopper has still not been called: the screen
    is captured after the session has ended. *)
Theorem overlapping_start_drops_the_display_stopper :
  (registry (page (play overlappingStarts boot)) = [] /\
   registrations (page (play overlappingStarts boot)) = [StopTracks firstDisplay] /\
   released (page (play overlappingStarts boot)) = [] /\
   liveTracks (brw (page (play overlappingStarts boot))) = getTracks firstDisplay) /\
  (status (cmp (page (play overlappingSession boot))) = REVIEW /\
   parked (play overlappingSession boot) = [] /\
   activeIntervals (brw (page (play overlappingSession boot))) = [] /\
   registry (page (play overlappingSession boot)) = [] /\
   registrations (page (play overlappingSession boot)) = [StopTracks firstDisplay] /\
   released (page (play overlappingSession boot)) = [] /\
   liveTracks (brw (page (play overlappingSession boot))) = getTracks firstDisplay).
Proof. vm_compute. repeat split. Qed.

(** ** Reachable states leak nothing *)

Lemma Sound_same s s' :
  registry s' = registry s ->
  registrations s' = registrations s ->
  released s' = released s ->
  liveTracks (brw s') = liveTracks (brw s) ->
  openContexts (brw s') = openContexts (brw s) ->
  audioCtxRef (cmp s') = audioCtxRef (cmp s) ->
  status (cmp s') = status (cmp s) ->
  Sound s -> Sound s'.
Proof.
  unfold Sound. intros -> -> -> -> -> -> ->. auto.
Qed.

Lemma Sound_idle s :
  Sound s -> status (cmp s) <> RECORDING ->
  registry s = [] /\ audioCtxRef (cmp s) = None /\
  liveTracks (brw s) = [] /\ openContexts (brw s) = [].
Proof.
  intros (_ & Hl & Hc & Hq) Hst. destruct (Hq Hst) as [Hreg Hctx].
  repeat split; try assumption.
  - destruct (liveTracks (brw s)) as [|t l]; [reflexivity|].
    destruct (Hl t (or_introl eq_refl)) as (st & Hin & _).
    rewrite Hreg in Hin. destruct Hin.
  - destruct (openContexts (brw s)) as [|c l]; [reflexivity|].
    specialize (Hc c (or_introl eq_refl)). congruence.
Qed.

Lemma Sound_initial : Sound initial.
Proof.
  repeat split; try reflexivity; intros x H; destruct H.
Qed.

Lemma render_Sound s : Sound s -> Sound (render s).
Proof.
  destruct (render_frame s) as (E1 & E2 & E3 & E4 & _ & _ & E7 & E8).
  apply Sound_same; try assumption; rewrite E8; reflexivity.
Qed.

Lemma Sound_cleaned s : Sound s -> Sound (cleaned s).
Proof.
  intros (Ha & Hl & Hc & _).
  assert (Hlive : liveTracks (brw (cleaned s)) = []).
  { destruct (liveTracks (brw (cleaned s))) as [|t l] eqn:E; [reflexivity|].
    assert (Hin : In t (liveTracks (brw (cleaned s)))) by (rewrite E; left; reflexivity).
    clear E. exfalso. revert Hin. split_state s. unfold cleaned. reduce_fields_in_all.
    intros Hin. apply (stopAll_uncovered _ _ _ Hin). apply Hl.
    apply (stopAll_subset _ _ _ Hin). }
  destruct (cleaned_Released s) as (R1 & R2 & _).
  repeat split.
  - rewrite cleaned_registrations, cleaned_released, R1, app_nil_r. exact Ha.
  - rewrite Hlive. intros t [].
  - intros c. split_state s. unfold cleaned. reduce_fields_in_all.
    destruct audioCtxRef0 as [x|]; intros Hin.
    + apply filter_In in Hin. destruct Hin as [Hin Hne].
      specialize (Hc c Hin). injection Hc as <-.
      rewrite Nat.eqb_refl in Hne. discriminate.
    + specialize (Hc c Hin). discriminate.
Qed.

Lemma Sound_dropTrack t s : Sound s -> Sound (dropTrack t s).
Proof.
  intros (Ha & Hl & Hc & Hq). repeat split; try assumption.
  - intros x Hx. apply Hl. split_state s. unfold dropTrack in Hx.
    reduce_fields_in_all. apply filter_In in Hx. tauto.
  - apply Hq. assumption.
  - apply Hq. assumption.
Qed.

Lemma not_fatal env :
  fatal env \/
  exists sh, envDisplay env = Fulfilled sh /\
             envNewMediaRecorder env = None /\ envRecorderStart env = None.
Proof.
  unfold fatal, acquisitionFails, encoderFails.
  destruct (envDisplay env) as [sh|e] eqn:Hd; [|eauto].
  destruct (envNewMediaRecorder env) eqn:Hc; [eauto 8|].
  destruct (envRecorderStart env) eqn:Hs; [eauto 8|].
  right. eauto.
Qed.

Lemma Sound_startCapture env s :
  status (cmp s) <> RECORDING -> Sound s -> Sound (exec (startCapture env) s).
Proof.
  intros Hst Hs. destruct (Sound_idle s Hs Hst) as (Hreg & Hctx & Hlive & Hopen).
  destruct Hs as (Ha & _). rewrite Hreg, app_nil_r in Ha.
  destruct (not_fatal env) as [Hf|(sh & Hd & Hc & Hr)].
  - destruct (startCapture_fails env s Hf).
    destruct fail_released0 as (R1 & R2 & _).
    destruct fail_calls0 as (ds & Hregs & Hrel).
    repeat split; try assumption.
    + rewrite Hregs, Hrel, R1, Ha, app_nil_r. reflexivity.
    + intros t Ht. apply fail_tracks0 in Ht. rewrite Hlive in Ht. destruct Ht.
    + intros c Hc. apply fail_contexts0 in Hc. rewrite Hopen in Hc. destruct Hc.
  - destruct (startCapture_starts env sh s Hd Hc Hr).
    destruct start_tracked0 as (Tl & Tc & _).
    repeat split.
    + rewrite start_registered0, start_released0, Ha. reflexivity.
    + intros t Ht. destruct (Tl t Ht) as [H|H]; [|exact H].
      rewrite Hlive in H. destruct H.
    + intros c Hin. destruct (Tc c Hin) as [H|H]; [|exact H].
      rewrite Hopen in H. destruct H.
    + congruence.
    + congruence.
Qed.

Lemma Sound_stopped mime m s' : Sound m -> StoppedFrom mime m s' -> Sound s'.
Proof.
  intros (Ha & Hl & Hc & _) [].
  destruct stop_Released0 as (R1 & R2 & _).
  repeat split; try assumption.
  - rewrite stop_registered0, stop_calls0, R1, app_nil_r. exact Ha.
  - intros t Ht. rewrite stop_live0 in Ht. exfalso.
    apply (stopAll_uncovered _ _ _ Ht). apply Hl. apply (stopAll_subset _ _ _ Ht).
  - intros c Hin. destruct (stop_open0 c Hin) as [Hin' Hne].
    specialize (Hc c Hin'). contradiction.
Qed.

Lemma Sound_stopRecording env s : Sound s -> Sound (exec (stopRecording env) s).
Proof.
  intros Hs.
  destruct (mediaRecorderRef (cmp s)) as [r|] eqn:Hr.
  - destruct (recState r) eqn:Hstate.
    + unfold exec, stopRecording, bind, gets. rewrite Hr, Hstate. exact Hs.
    + assert (Hact : recState r <> Inactive) by congruence.
      destruct (stopRecording_active env s r Hr Hact) as (m & s' & Heq & Hstop & [] & _).
      unfold exec. rewrite Heq. cbn [snd].
      apply (Sound_stopped (recMimeType r) m); [|exact Hstop].
      revert Hs. apply Sound_same; assumption.
    + assert (Hact : recState r <> Inactive) by congruence.
      destruct (stopRecording_active env s r Hr Hact) as (m & s' & Heq & Hstop & [] & _).
      unfold exec. rewrite Heq. cbn [snd].
      apply (Sound_stopped (recMimeType r) m); [|exact Hstop].
      revert Hs. apply Sound_same; assumption.
  - unfold exec, stopRecording, bind, gets. rewrite Hr. exact Hs.
Qed.

Lemma Sound_captureSnapshot env stream s :
  Sound s -> Sound (exec (captureSnapshot env stream) s).
Proof.
  destruct (captureSnapshot_spec env stream s) as (r & b' & Heq & []).
  unfold exec. rewrite Heq. cbn [snd].
  apply Sound_same; unfold registry, registrations, released; cbn [cmp brw];
    congruence.
Qed.

Lemma Sound_analyzeRecording env img s :
  Sound s -> Sound (exec (analyzeRecording env img) s).
Proof.
  destruct (analyzeRecording_run env img s) as (a & tr & Hr & Hc & Heq).
  unfold exec. rewrite Heq. cbn [snd].
  apply Sound_same; reduce_fields_in_all; trace_calls; rewrite ?Hr, ?Hc, ?app_nil_r;
    reflexivity.
Qed.

Lemma Sound_reset s : Sound s -> Sound (exec reset s).
Proof.
  intros Hs. apply Sound_cleaned in Hs. destruct Hs as (Ha & Hl & Hc & Hq).
  destruct (cleaned_Released s) as (R1 & R2 & _).
  unfold exec, reset. unfold bind at 1. rewrite cleanupResources_cleaned.
  unfold setStatus, setRecordedData, setAiAnalysis, setError, setRecordingDuration,
    bind, emit, modify. cbn [fst snd].
  repeat split; reduce_fields_in_all; trace_calls; try assumption.
  rewrite Ha, R1, app_nil_r. reflexivity.
Qed.

Lemma Sound_retryAnalysis env : keeps Sound (retryAnalysis env).
Proof.
  unfold retryAnalysis.
  apply keeps_bind; [apply keeps_gets|]. intros [md|]; [|apply keeps_ret].
  apply keeps_bind.
  { unfold newMediaStream. apply keeps_bind; [|intros; apply keeps_ret].
    intros x. apply Sound_same; reflexivity. }
  intros st. apply keeps_bind; [intros x; apply Sound_captureSnapshot|].
  intros r. destruct (truthy r); [intros x; apply Sound_analyzeRecording | apply keeps_ret].
Qed.

(** Every handler keeps the invariant. *)
Lemma Sound_handle env ev s : Sound s -> Sound (handle env ev s).
Proof.
  intros Hs.
  assert (Hh : Sound (exec (handler env ev) s)).
  { unfold exec, handler, bind at 1, gets at 1.
    destruct ev.
    - destruct (status (cmp s)) eqn:Hst; cbn [isStatus]; try exact Hs.
      apply Sound_startCapture; [congruence | exact Hs].
    - destruct (status (cmp s)); cbn [isStatus]; try exact Hs.
      apply Sound_stopRecording, Hs.
    - destruct (status (cmp s)); cbn [isStatus]; try exact Hs.
      apply Sound_reset, Hs.
    - unfold bind, gets. destruct (aiAnalysis (cmp s)); [exact Hs|].
      destruct (isStatus (status (cmp s)) REVIEW && negb (isAnalyzing (cmp s)));
        [|exact Hs].
      apply Sound_retryAnalysis, Hs.
    - unfold bind, gets. destruct (error (cmp s)); [|exact Hs].
      revert Hs. unfold setError, bind, emit, modify. cbn [fst snd].
      apply Sound_same; reduce_fields_in_all; trace_calls; reflexivity.
    - destruct (isStatus (status (cmp s)) IDLE); [|exact Hs].
      revert Hs. apply Sound_same; reflexivity.
    - unfold bind at 1, gets at 1.
      destruct (memTrack t (liveTracks (brw s))); [|exact Hs].
      unfold bind at 1, stopTracks at 1, modify at 1. unfold bind at 1, gets at 1.
      fold (dropTrack t s).
      destruct (memTrack t (onended (brw (dropTrack t s)))).
      + apply Sound_stopRecording, Sound_dropTrack, Hs.
      + apply Sound_dropTrack, Hs.
    - unfold bind, gets. destruct (mediaRecorderRef (cmp s)) as [r|]; [|exact Hs].
      destruct (recState r); try exact Hs.
      unfold ondataavailable. destruct (0 <? blobSize data); [|exact Hs].
      revert Hs. apply Sound_same; reflexivity.
    - unfold bind, gets. destruct (timerIntervalRef (cmp s)); [|exact Hs].
      destruct (existsb _ _); [|exact Hs].
      revert Hs. apply Sound_same; reflexivity.
    - revert Hs. apply Sound_same; reflexivity.
    - rewrite cleanupResources_cleaned. apply Sound_cleaned, Hs. }
  unfold handle. destruct ev; try apply render_Sound; exact Hh.
Qed.

(** In every state the component can reach, nothing has leaked: outside
    RECORDING no capture track is live, no audio context is open and the
    cleanup list is empty. *)
Lemma reachable_Sound evs : forall s, Sound s -> Sound (run evs s).
Proof.
  induction evs as [|[env ev] rest IH]; intros s Hs; [exact Hs|].
  cbn [run]. apply IH, Sound_handle, Hs.
Qed.

Lemma Sound_Accounted s : Sound s -> Accounted s.
Proof.
  intros (Ha & _ & _ & Hq). split; [exact Ha|].
  intros Hst. apply Hq. congruence.
Qed.

Lemma reachable_Accounted evs : Accounted (run evs initial).
Proof. apply Sound_Accounted, reachable_Sound, Sound_initial. Qed.

(** Outside RECORDING, a reachable state holds no live capture track, no
    open audio context and no registered closure. *)
Lemma reachable_leak_free evs :
  status (cmp (run evs initial)) <> RECORDING ->
  registry (run evs initial) = [] /\
  audioCtxRef (cmp (run evs initial)) = None /\
  liveTracks (brw (run evs initial)) = [] /\
  openContexts (brw (run evs initial)) = [].
Proof. apply Sound_idle, reachable_Sound, Sound_initial. Qed.

(** In a reachable state, a live hooked track of a running recording is
    always stopped by a registered closure. *)
Lemma reachable_Hooked evs t :
  status (cmp (run evs initial)) = RECORDING ->
  recorderActive (run evs initial) ->
  In t (liveTracks (brw (run evs initial))) ->
  In t (onended (brw (run evs initial))) ->
  Hooked (run evs initial) t.
Proof.
  intros Hst Hact Hlive Hhook.
  destruct (reachable_Sound evs initial Sound_initial) as (_ & Hl & _).
  repeat split; try assumption. apply Hl, Hlive.
Qed.

(** ** A failed start leaves nothing behind *)

Lemma handle_ClickStart env s :
  status (cmp s) = IDLE ->
  handle env ClickStart s = render (exec (startCapture env) s).
Proof.
  intros Hst. unfold handle, handler, exec, bind, gets. rewrite Hst. reflexivity.
Qed.




(** Inside the handler the two [catch] blocks differ in the order of
    their statements: that of [startCapture] releases first (lines 112 to
    123), that of [startRecording] calls the setter first and releases in
    the next statement (lines 194 and 195).  Both run to their end before
    React renders. *)
Lemma encoder_failure_sets_the_error_slot_first :
  releaseBeforeError
    (since initial (handle (displayDenied "Permission denied") ClickStart initial)) = true /\
  releaseBeforeError
    (since initial (handle (withRecorder notSupported grantingEnv) ClickStart initial)) = false.
Proof. split; vm_compute; reflexivity. Qed.

(** ** External revocation is the Stop button *)






(** A successful start hooks the first video track of the display
    stream, which is the first video track of the recorded stream. *)
Lemma start_hooks_primary_track env sh s :
  StartedFrom env sh s (exec (startCapture env) s) ->
  Hooked (exec (startCapture env) s) (S (nextId (brw s))) /\
  exists f, mediaRecorderRef (cmp (exec (startCapture env) s)) =
              Some {| recState := Recording; recStream := f;
                      recMimeType := pickMimeType env |} /\
            hd_error (videoTracks f) = Some (S (nextId (brw s))).
Proof.
  intros []. destruct start_recorder0 as (f & Hrec & Hvideo & _).
  destruct start_registry0 as (rest & Hreg).
  split.
  - repeat split; try assumption.
    + exists {| recState := Recording; recStream := f; recMimeType := pickMimeType env |}.
      split; [exact Hrec | discriminate].
    + rewrite Hreg. apply covered_here. unfold displayStreamAt, getTracks.
      cbn [videoTracks seq app In]. left. reflexivity.
  - exists f. split; [exact Hrec|]. rewrite Hvideo. reflexivity.
Qed.


(** ** Where the audio graph is kept *)

Lemma nothing_registered_for_graph ds :
  (forall c, ~ registeredFor ds (ContextResource c)) /\
  (forall n, ~ registeredFor ds (NodeResource n)).
Proof.
  split; intros x (d & _ & H); destruct d; exact H.
Qed.

Lemma exec_cleanupResources s : exec cleanupResources s = cleaned s.
Proof. unfold exec. rewrite cleanupResources_cleaned. reflexivity. Qed.

(** C4, as the code has it.  After a successful start every capture track
    that went live is stopped by a closure on the cleanup list; the audio
    context opened for the mix is the one held in [audioCtxRef], and every
    source or destination node created belongs to it; no closure on the
    list is for the context or for a node.  [cleanupResources] then stops
    all those tracks and closes that context. *)
Theorem mix_resources_are_tracked env sh s :
  envDisplay env = Fulfilled sh ->
  envNewMediaRecorder env = None ->
  envRecorderStart env = None ->
  Tracked s (exec (startCapture env) s) /\
  (forall c, ~ registeredFor (registry (exec (startCapture env) s)) (ContextResource c)) /\
  (forall n, ~ registeredFor (registry (exec (startCapture env) s)) (NodeResource n)) /\
  (forall t, In t (liveTracks (brw (exec cleanupResources (exec (startCapture env) s)))) ->
             In t (liveTracks (brw s))) /\
  (forall c, In c (openContexts (brw (exec cleanupResources (exec (startCapture env) s)))) ->
             In c (openContexts (brw s))).
Proof.
  intros Hd Hctor Hstart.
  destruct (startCapture_starts env sh s Hd Hctor Hstart).
  destruct (nothing_registered_for_graph (registry (exec (startCapture env) s))) as [Hc Hn].
  rewrite !exec_cleanupResources.
  repeat split; try apply start_tracked0; try assumption.
  - intros t. apply cleaned_tracks. exact start_tracked0.
  - intros c. apply cleaned_contexts. exact start_tracked0.
Qed.

Lemma mix_resources_are_tracked_witness :
  Tracked initial (exec (startCapture grantingEnv) initial) /\
  (forall c, ~ registeredFor (registry (exec (startCapture grantingEnv) initial))
               (ContextResource c)) /\
  (forall n, ~ registeredFor (registry (exec (startCapture grantingEnv) initial))
               (NodeResource n)) /\
  (forall t,
     In t (liveTracks (brw (exec cleanupResources (exec (startCapture grantingEnv) initial)))) ->
     In t (liveTracks (brw initial))) /\
  (forall c,
     In c (openContexts (brw (exec cleanupResources (exec (startCapture grantingEnv) initial)))) ->
     In c (openContexts (brw initial))).
Proof.
  apply (mix_resources_are_tracked grantingEnv {| moreVideo := 0; nAudio := 1 |} initial);
    reflexivity.
Defined.

(** C4 as stated fails: with the microphone granted, the audio context
    opened for the mix is open after the start and no closure on the
    cleanup list releases it. *)
Lemma audio_context_is_not_registered :
  ~ (forall env s c,
       In c (openContexts (brw (exec (startCapture env) s))) ->
       In c (openContexts (brw s)) \/
       registeredFor (registry (exec (startCapture env) s)) (ContextResource c)).
Proof.
  intros H. specialize (H grantingEnv initial 5).
  destruct H as [H|H].
  - vm_compute. auto.
  - vm_compute in H. exact H.
  - destruct (nothing_registered_for_graph
                (registry (exec (startCapture grantingEnv) initial))) as [Hc _].
    exact (Hc 5 H).
Qed.

(** ** A refused microphone *)

Lemma refused_microphone_trace env sh e s :
  audioEnabled (cmp s) = true ->
  envDisplay env = Fulfilled sh ->
  envMicrophone env = Rejected e ->
  envNewMediaRecorder env = None ->
  envRecorderStart env = None ->
  since s (exec (startCapture env) s) =
    [ CallSetError None; CallGetDisplayMedia;
      Register (StopTracks (displayStreamAt sh s)); CallGetUserMedia;
      CallConsoleWarn "Microphone access denied or unavailable:";
      CallNewMediaRecorder (displayStreamAt sh s) (pickMimeType env);
      CallRecorderStart; CallSetStatus RECORDING;
      CallSetInterval (S (S (nextId (brw s)) + S (moreVideo sh) + nAudio sh)) ].
Proof.
  intros Ha Hd Hm Hctor Hstart. split_state s. reduce_fields_in_all. subst.
  unfold startCapture, acquire, mixAudio, startRecording, since. js.
  rewrite Hd. js. rewrite Hm. js.
  destruct videoPreviewRef0; js; rewrite Hctor; js; rewrite Hstart; js.
  all: rewrite <- !app_assoc, skipn_length_app; cbn [app].
  all: reflexivity.
Qed.

(** C5, as the code has it.  With the microphone requested, the display
    granted and the microphone refused, if the recorder can be constructed
    and started then the start goes through: no call puts an error in the
    error slot, the stream recorded is the display stream itself, the
    only cleanup closure is the display stream's, no audio context is
    opened, and the status becomes RECORDING. *)
Theorem microphone_failure_is_not_fatal env sh s :
  status (cmp s) = IDLE ->
  audioEnabled (cmp s) = true ->
  envDisplay env = Fulfilled sh ->
  micRejected env ->
  envNewMediaRecorder env = None ->
  envRecorderStart env = None ->
  error (cmp (handle env ClickStart s)) = None /\
  existsb isSurfaced (since s (handle env ClickStart s)) = false /\
  status (cmp (handle env ClickStart s)) = RECORDING /\
  mediaRecorderRef (cmp (handle env ClickStart s)) =
    Some {| recState := Recording; recStream := displayStreamAt sh s;
            recMimeType := pickMimeType env |} /\
  registry (handle env ClickStart s) = [StopTracks (displayStreamAt sh s)] /\
  openContexts (brw (handle env ClickStart s)) = openContexts (brw s).
Proof.
  intros Hst Ha Hd Hmic Hctor Hstart. rewrite (handle_ClickStart env s Hst).
  destruct (startCapture_starts env sh s Hd Hctor Hstart).
  destruct (render_frame (exec (startCapture env) s))
    as (E1 & E2 & E3 & E4 & E5 & E6 & E7 & E8).
  unfold since. rewrite E1, E4, E6, E8.
  destruct start_recorder0 as (f & Hrec & _ & _ & Hf).
  destruct (start_passthrough0 (or_intror Hmic)) as (Hreg & Hopen & _).
  rewrite (Hf (or_intror Hmic)) in Hrec.
  repeat split; try assumption.
  - destruct Hmic as [e He].
    fold (since s (exec (startCapture env) s)).
    rewrite (refused_microphone_trace env sh e s Ha Hd He Hctor Hstart). reflexivity.
  - unfold render.
    destruct (status (cmp (exec (startCapture env) s))); try discriminate.
    destruct (videoPreviewRef (cmp (exec (startCapture env) s))); exact Hrec.
Qed.

Lemma microphone_failure_is_not_fatal_witness :
  error (cmp (handle (withMicrophone micDenied grantingEnv) ClickStart initial)) = None /\
  existsb isSurfaced
    (since initial (handle (withMicrophone micDenied grantingEnv) ClickStart initial)) = false /\
  status (cmp (handle (withMicrophone micDenied grantingEnv) ClickStart initial)) = RECORDING /\
  mediaRecorderRef (cmp (handle (withMicrophone micDenied grantingEnv) ClickStart initial)) =
    Some {| recState := Recording;
            recStream := displayStreamAt {| moreVideo := 0; nAudio := 1 |} initial;
            recMimeType := pickMimeType (withMicrophone micDenied grantingEnv) |} /\
  registry (handle (withMicrophone micDenied grantingEnv) ClickStart initial) =
    [StopTracks (displayStreamAt {| moreVideo := 0; nAudio := 1 |} initial)] /\
  openContexts (brw (handle (withMicrophone micDenied grantingEnv) ClickStart initial)) =
    openContexts (brw initial).
Proof.
  apply (microphone_failure_is_not_fatal (withMicrophone micDenied grantingEnv)
           {| moreVideo := 0; nAudio := 1 |} initial); try reflexivity.
  eexists. reflexivity.
Defined.

(** C5 as stated fails: the microphone is refused and the display granted,
    but the recorder cannot be constructed; an error is shown and the
    status stays IDLE. *)
Lemma refused_microphone_may_still_fail :
  ~ (forall env sh s,
       status (cmp s) = IDLE ->
       audioEnabled (cmp s) = true ->
       envDisplay env = Fulfilled sh ->
       micRejected env ->
       error (cmp (handle env ClickStart s)) = None /\
       status (cmp (handle env ClickStart s)) = RECORDING).
Proof.
  intros H.
  destruct (H (withRecorder notSupported (withMicrophone micDenied grantingEnv))
              {| moreVideo := 0; nAudio := 1 |} initial
              eq_refl eq_refl eq_refl (ex_intro _ _ eq_refl)) as [_ Hst].
  vm_compute in Hst. discriminate Hst.
Qed.

(** ** Snapshots never throw *)

Ltac ltb_facts :=
  repeat match goal with
         | H : (_ <? _) = true |- _ => apply Nat.ltb_lt in H
         | H : (_ <? _) = false |- _ => apply Nat.ltb_ge in H
         end.

Ltac snapshot_contradiction :=
  match goal with
  | H : snapshotFails _ _ _ |- _ =>
      let Hn := fresh "Hn" in
      unfold snapshotFails, notReady in H; reduce_fields_in_all;
      destruct H as [[? Hn]|[?|[[? ?]|[? ?]]]];
      solve [ congruence
            | match goal with
              | E : envReadiness _ = _ |- _ => rewrite E in Hn
              end;
              unfold READINESS_TIMEOUT in *; lia ]
  | H : notSignalled _ |- _ =>
      unfold notSignalled in H;
      match goal with
      | E : envReadiness _ = _ |- _ => rewrite E in H
      end;
      unfold READINESS_TIMEOUT in *; solve [congruence | lia]
  end.

(** C6. [captureSnapshot] always returns to its caller and never throws.
    Whenever it meets a failure (the temporary element fails or is not
    ready in time, there is no drawing context, drawing or serialising
    throws) it returns null.  It never takes more than 1000 ms, and when a
    temporary element is needed and readiness is not signalled within
    1000 ms it returns null after exactly 1000 ms. *)
Theorem snapshot_never_throws env stream s :
  exists r,
    fst (captureSnapshot env stream s) = Normal r /\
    (snapshotFails env stream s -> r = None) /\
    now (brw (exec (captureSnapshot env stream) s)) <= now (brw s) + READINESS_TIMEOUT /\
    (boundTo (videoPreviewRef (cmp s)) stream = false -> notSignalled env ->
     r = None /\
     now (brw (exec (captureSnapshot env stream) s)) = now (brw s) + READINESS_TIMEOUT).
Proof.
  split_state s. unfold captureSnapshot. js.
  repeat (split_snapshot; js; cbn [negb]).
  all: eexists; (split; [reflexivity|]); ltb_facts; reduce_fields_in_all.
  all: split; [intros Hfail; first [reflexivity | exfalso; snapshot_contradiction]|].
  all: split; [unfold READINESS_TIMEOUT in *; lia|].
  all: intros Hbound Hsig;
       first [ split; [reflexivity | unfold READINESS_TIMEOUT in *; lia]
             | exfalso; solve [congruence | snapshot_contradiction] ].
Qed.

Lemma snapshot_never_throws_witness :
  exists r,
    fst (captureSnapshot grantingEnv
           {| streamId := 0; videoTracks := []; audioTracks := [] |} initial) = Normal r /\
    r = None /\
    now (brw (exec (captureSnapshot grantingEnv
                      {| streamId := 0; videoTracks := []; audioTracks := [] |}) initial)) =
      now (brw initial) + READINESS_TIMEOUT.
Proof.
  destruct (snapshot_never_throws grantingEnv
              {| streamId := 0; videoTracks := []; audioTracks := [] |} initial)
    as (r & Hr & _ & _ & Htimeout).
  exists r. split; [exact Hr|]. apply Htimeout; [reflexivity | exact I].
Defined.

(** ** Temporary video elements *)

(** When the temporary element is ready in time and drawing and
    serialising succeed, [captureSnapshot] tears it down. *)
Lemma temp_video_torn_down_on_success env stream s ms u :
  boundTo (videoPreviewRef (cmp s)) stream = false ->
  envReadiness env = ReadyAfter ms -> ms < READINESS_TIMEOUT ->
  envGetContext env = true -> envDrawImage env = None ->
  envToDataURL env = Fulfilled u ->
  In {| tempId := nextId (brw s); tempSrcObject := None; tempRemoved := true |}
     (tempVideos (brw (exec (captureSnapshot env stream) s))).
Proof.
  intros Hb Hr Hms Hc Hd Hu. split_state s. reduce_fields_in_all.
  unfold captureSnapshot. js. rewrite Hb. js. rewrite Hr. js.
  apply Nat.ltb_lt in Hms. rewrite Hms. js. rewrite Hc. cbn [negb]. js.
  rewrite Hd. js. rewrite Hu. js.
  rewrite map_app. apply in_or_app. right. cbn [map]. rewrite Nat.eqb_refl.
  left. reflexivity.
Qed.

(** When a temporary element is needed and anything fails, the element is
    left as created: still bound to the stream and not removed. *)
Lemma temp_video_left_on_failure env stream s :
  boundTo (videoPreviewRef (cmp s)) stream = false ->
  snapshotFails env stream s ->
  tempVideos (brw (exec (captureSnapshot env stream) s)) =
    tempVideos (brw s) ++
    [{| tempId := nextId (brw s); tempSrcObject := Some stream; tempRemoved := false |}].
Proof.
  intros Hb Hfail. split_state s. reduce_fields_in_all.
  unfold captureSnapshot. js. rewrite Hb. js.
  repeat (split_snapshot; js; cbn [negb]); ltb_facts.
  all: first [reflexivity | exfalso; snapshot_contradiction].
Qed.

(** C7 fails on the code.  After the retry, whose snapshot times out and
    returns null, the temporary element is still bound to the stream and
    has not been removed. *)
Theorem retry_leaves_temp_video_attached :
  status (cmp (run retrySession initial)) = REVIEW /\
  tempVideos (brw (run retrySession initial)) =
    [{| tempId := 15;
        tempSrcObject := Some {| streamId := 14; videoTracks := []; audioTracks := [] |};
        tempRemoved := false |}].
Proof. vm_compute. split; reflexivity. Qed.

(** ** No audio source, no audio context *)

Lemma creations_setError v s : creations (exec (setError v) s) = creations s.
Proof.
  unfold creations, exec, setError, bind, emit, modify. cbn [fst snd].
  reduce_fields_in_all. trace_calls. reflexivity.
Qed.

Lemma creations_console msg s :
  creations (exec (emit (CallConsoleError msg)) s) = creations s.
Proof.
  unfold creations, exec, emit, modify. cbn [fst snd].
  reduce_fields_in_all. trace_calls. reflexivity.
Qed.

Lemma creations_display s :
  creations (exec (emit CallGetDisplayMedia) s) = creations s.
Proof.
  unfold creations, exec, emit, modify. cbn [fst snd].
  reduce_fields_in_all. trace_calls. reflexivity.
Qed.

Lemma creations_upd_cmp f s : creations (upd_cmp f s) = creations s.
Proof. reflexivity. Qed.

Lemma creations_atTry s : creations (atTry s) = creations s.
Proof. unfold atTry. rewrite creations_upd_cmp. apply creations_setError. Qed.

(** The recorder is constructed on the stream it is given. *)
Lemma startRecording_constructs env f s :
  In (CallNewMediaRecorder f (pickMimeType env))
     (trace (brw (exec (startRecording env f) s))) /\
  creations (exec (startRecording env f) s) = creations s.
Proof.
  destruct (envNewMediaRecorder env) as [e|] eqn:Hctor;
    [|destruct (envRecorderStart env) as [e|] eqn:Hstart].
  1, 2: assert (Henc : (exists e, envNewMediaRecorder env = Some e) \/
                       (exists e, envRecorderStart env = Some e)) by eauto;
        destruct (startRecording_fails env f s Henc) as (s2 & Heq & _ & Hin & []);
        unfold exec; rewrite Heq; cbn [snd];
        (split; [apply cleaned_trace, Hin | rewrite cleaned_creations; assumption]).
  split_state s. unfold startRecording, creations. js.
  rewrite Hctor. js. rewrite Hstart. js.
  split; [rewrite !in_app_iff; cbn [In]; auto 8 | trace_calls; reflexivity].
Qed.

(** C8. When the microphone is switched off, or is requested and refused,
    a start never constructs an audio context: the history gains no
    [new AudioContext()] call and the set of open contexts does not grow.
    If the display stream is granted, the stream handed on by the mixing
    step is that very stream object, and it is the stream the recorder is
    constructed on. *)
Theorem no_audio_source_no_context env s :
  audioEnabled (cmp s) = false \/ micRejected env ->
  creations (exec (startCapture env) s) = creations s /\
  (forall sh, envDisplay env = Fulfilled sh ->
     (exists s1,
        acquire env (atTry s) =
        (Normal (displayStreamAt sh s), s1)) /\
     In (CallNewMediaRecorder (displayStreamAt sh s) (pickMimeType env))
        (trace (brw (exec (startCapture env) s)))).
Proof.
  intros Hno. split.
  - destruct (envDisplay env) as [sh|e] eqn:Hd.
    + destruct (startCapture_granted env sh s Hd) as (f & s1 & Hacq & ->).
      destruct (startRecording_constructs env f s1) as [_ ->].
      destruct Hacq. destruct (acq_passthrough0 Hno) as (_ & _ & _ & _ & _ & ->).
      apply creations_atTry.
    + rewrite (startCapture_rejected env e s Hd).
      rewrite creations_setError, cleaned_creations, creations_console,
        creations_display.
      apply creations_atTry.
  - intros sh Hd.
    destruct (acquire_granted env sh
                (atTry s) Hd)
      as (f & s1 & Heq & Hacq).
    destruct (startCapture_granted env sh s Hd) as (f' & s1' & Hacq' & ->).
    destruct Hacq as [_ _ _ _ _ _ _ _ _ _ _ _ _ _ _ Hpass].
    destruct Hacq' as [_ _ _ _ _ _ _ _ _ _ _ _ _ _ _ Hpass'].
    destruct (Hpass Hno) as (-> & _). destruct (Hpass' Hno) as (-> & _).
    split.
    + exists s1. exact Heq.
    + apply startRecording_constructs.
Qed.

Lemma no_audio_source_no_context_witness :
  creations (exec (startCapture (withMicrophone micDenied grantingEnv)) initial) =
    creations initial /\
  (forall sh, envDisplay (withMicrophone micDenied grantingEnv) = Fulfilled sh ->
     (exists s1,
        acquire (withMicrophone micDenied grantingEnv)
          (atTry initial) =
        (Normal (displayStreamAt sh initial), s1)) /\
     In (CallNewMediaRecorder (displayStreamAt sh initial)
           (pickMimeType (withMicrophone micDenied grantingEnv)))
        (trace (brw (exec (startCapture (withMicrophone micDenied grantingEnv)) initial)))).
Proof.
  apply (no_audio_source_no_context (withMicrophone micDenied grantingEnv) initial).
  right. eexists. reflexivity.
Defined.

(** ** The message shown when the display request is rejected *)








(** *** Other spellings of the denial *)











(** ** The payload is the non-empty chunks, in order *)




Lemma emittedChunks_dataEvents emitted :
  emittedChunks (dataEvents emitted) = map snd emitted.
Proof.
  induction emitted as [|[env data] rest IH]; [reflexivity|].
  cbn [dataEvents map emittedChunks fst snd]. f_equal. exact IH.
Qed.





(** A successful start leaves a recording that has just started. *)
Lemma started_recording env sh s :
  StartedFrom env sh s (exec (startCapture env) s) ->
  status (cmp (exec (startCapture env) s)) = RECORDING /\
  chunksRef (cmp (exec (startCapture env) s)) = [] /\
  exists r, mediaRecorderRef (cmp (exec (startCapture env) s)) = Some r /\
            recState r = Recording /\ recMimeType r = pickMimeType env.
Proof.
  intros []. destruct start_recorder0 as (f & Hrec & _).
  repeat split; try assumption. eexists. split; [exact Hrec|]. split; reflexivity.
Qed.


(** * More of the component *)

(** ** The timer overlay *)

Lemma length_append s1 s2 :
  String.length (String.append s1 s2) = String.length s1 + String.length s2.
Proof.
  induction s1 as [|c s1 IH]; cbn; [reflexivity | rewrite IH; reflexivity].
Qed.

Lemma toStringFrom_fuel f1 : forall f2 n,
  n < f1 -> n < f2 -> toStringFrom f1 n = toStringFrom f2 n.
Proof.
  induction f1 as [|f1 IH]; intros f2 n H1 H2; [lia|].
  destruct f2 as [|f2]; [lia|]. cbn [toStringFrom].
  destruct (n <? 10) eqn:Hn; [reflexivity|].
  apply Nat.ltb_ge in Hn.
  assert (n / 10 < n) by (apply Nat.div_lt; lia).
  rewrite (IH f2 (n / 10)); [reflexivity | lia | lia].
Qed.

Lemma toString_digit n : n < 10 -> toString n = String (digitChar n) EmptyString.
Proof.
  intros H. unfold toString. cbn [toStringFrom].
  apply Nat.ltb_lt in H. rewrite H. reflexivity.
Qed.

Lemma toString_step n :
  10 <= n ->
  toString n =
  String.append (toString (n / 10)) (String (digitChar (n mod 10)) EmptyString).
Proof.
  intros H. unfold toString at 1. cbn [toStringFrom].
  apply Nat.ltb_ge in H. rewrite H. apply Nat.ltb_ge in H.
  assert (n / 10 < n) by (apply Nat.div_lt; lia).
  unfold toString. rewrite (toStringFrom_fuel n (S (n / 10)) (n / 10)); [reflexivity | lia | lia].
Qed.

Lemma toString_two_digits n :
  10 <= n < 100 ->
  toString n = String (digitChar (n / 10)) (String (digitChar (n mod 10)) EmptyString).
Proof.
  intros H. rewrite toString_step by lia.
  rewrite toString_digit; [reflexivity|].
  apply Nat.Div0.div_lt_upper_bound; lia.
Qed.

Lemma padStart_digit c :
  padStart 2 "0" (String c EmptyString) = String "0" (String c EmptyString).
Proof. reflexivity. Qed.

Lemma padStart_long s : 2 <= String.length s -> padStart 2 "0" s = s.
Proof.
  intros H. unfold padStart.
  replace (2 - String.length s) with 0 by lia. reflexivity.
Qed.

(** A number below 100, padded to two places. *)
Lemma two_places n :
  n < 100 ->
  padStart 2 "0" (toString n) =
  String (digitChar (n / 10)) (String (digitChar (n mod 10)) EmptyString).
Proof.
  intros H. destruct (Nat.lt_ge_cases n 10) as [Hlt|Hge].
  - rewrite toString_digit by exact Hlt. rewrite padStart_digit.
    rewrite Nat.div_small, Nat.mod_small by exact Hlt. reflexivity.
  - rewrite toString_two_digits by lia. apply padStart_long. cbn. lia.
Qed.

(** Within a hundred minutes the overlay shows a four-digit clock face:
    two digits of minutes, a colon, two digits of seconds. *)
Theorem formatTime_clock_face seconds :
  seconds < 100 * 60 ->
  formatTime seconds =
  String (digitChar (seconds / 60 / 10))
    (String (digitChar (seconds / 60 mod 10))
       (String ":"
          (String (digitChar (seconds mod 60 / 10))
             (String (digitChar (seconds mod 60 mod 10)) EmptyString)))).
Proof.
  intros H. unfold formatTime. cbv zeta.
  assert (Hs : seconds mod 60 < 60) by (apply Nat.mod_upper_bound; discriminate).
  assert (Hm : seconds / 60 < 100) by (apply Nat.Div0.div_lt_upper_bound; lia).
  rewrite !two_places by lia. reflexivity.
Qed.

Lemma formatTime_clock_face_witness :
  75 < 100 * 60 /\ formatTime 75 = "01:15".
Proof.
  split; [lia|]. rewrite (formatTime_clock_face 75) by lia. reflexivity.
Defined.

Lemma digitValue_digitChar d : d < 10 -> digitValue (digitChar d) = d.
Proof.
  intros H. unfold digitValue, digitChar.
  rewrite nat_ascii_embedding by lia. lia.
Qed.

Lemma isDigit_digitChar d : d < 10 -> isDigit (digitChar d) = true.
Proof.
  intros H. unfold isDigit, digitChar. rewrite nat_ascii_embedding by lia.
  apply andb_true_intro. split; apply Nat.leb_le; lia.
Qed.

Lemma decimalValue_append s1 : forall acc s2,
  decimalValue acc (String.append s1 s2) = decimalValue (decimalValue acc s1) s2.
Proof.
  induction s1 as [|c s1 IH]; intros acc s2; cbn; [reflexivity | apply IH].
Qed.

Lemma allChars_append p s1 s2 :
  allChars p (String.append s1 s2) = allChars p s1 && allChars p s2.
Proof.
  induction s1 as [|c s1 IH]; cbn; [reflexivity|].
  rewrite IH. apply andb_assoc.
Qed.

(** The decimal text of a number denotes that number and consists of
    digits. *)
Lemma toString_spec n :
  decimalValue 0 (toString n) = n /\
  allChars isDigit (toString n) = true /\
  1 <= String.length (toString n).
Proof.
  induction n as [n IH] using lt_wf_ind.
  destruct (Nat.lt_ge_cases n 10) as [Hlt|Hge].
  - rewrite toString_digit by exact Hlt. cbn [decimalValue allChars String.length].
    rewrite digitValue_digitChar, isDigit_digitChar by exact Hlt.
    repeat split; lia.
  - rewrite toString_step by exact Hge.
    assert (Hq : n / 10 < n) by (apply Nat.div_lt; lia).
    assert (Hr : n mod 10 < 10) by (apply Nat.mod_upper_bound; discriminate).
    destruct (IH (n / 10) Hq) as (Hv & Hd & Hl).
    rewrite decimalValue_append, allChars_append, length_append, Hv, Hd.
    cbn [decimalValue allChars String.length].
    rewrite digitValue_digitChar, isDigit_digitChar by exact Hr.
    repeat split; try lia.
    pose proof (Nat.div_mod_eq n 10). lia.
Qed.

(** Padding with zeros changes neither the number nor the alphabet. *)
Lemma padStart_spec s :
  decimalValue 0 (padStart 2 "0" s) = decimalValue 0 s /\
  allChars isDigit (padStart 2 "0" s) = allChars isDigit s /\
  String.length (padStart 2 "0" s) = Nat.max 2 (String.length s).
Proof.
  unfold padStart.
  destruct (String.length s) as [|[|k]] eqn:Hlen; cbn [Nat.sub repeat string_of_list_ascii];
    rewrite ?decimalValue_append, ?allChars_append, ?length_append, ?Hlen;
    repeat split; cbn; lia.
Qed.

Lemma split_whole sep s :
  allChars (fun c => negb (Ascii.eqb c sep)) s = true ->
  split sep s = [s].
Proof.
  induction s as [|c s IH]; cbn; [reflexivity|].
  intros H. apply andb_prop in H. destruct H as [Hc Hs].
  apply negb_true_iff in Hc. rewrite Hc, (IH Hs). reflexivity.
Qed.

Lemma split_at sep s1 s2 :
  allChars (fun c => negb (Ascii.eqb c sep)) s1 = true ->
  split sep (String.append s1 (String sep s2)) = s1 :: split sep s2.
Proof.
  induction s1 as [|c s1 IH]; cbn.
  - intros _. rewrite Ascii.eqb_refl. reflexivity.
  - intros H. apply andb_prop in H. destruct H as [Hc Hs].
    apply negb_true_iff in Hc. rewrite Hc, (IH Hs). reflexivity.
Qed.

Lemma allChars_weaken (p q : ascii -> bool) s :
  (forall c, p c = true -> q c = true) ->
  allChars p s = true -> allChars q s = true.
Proof.
  intros Hpq. induction s as [|c s IH]; cbn; [reflexivity|].
  intros H. apply andb_prop in H. destruct H as [Hc Hs].
  rewrite (Hpq c Hc), (IH Hs). reflexivity.
Qed.

Lemma digit_is_not_colon c : isDigit c = true -> negb (Ascii.eqb c ":") = true.
Proof.
  intros H. apply negb_true_iff, Ascii.eqb_neq. intros ->. discriminate H.
Qed.

(** The seconds can be read back from the text. *)
Lemma readTime_formatTime seconds : readTime (formatTime seconds) = Some seconds.
Proof.
  unfold readTime, formatTime. cbv zeta.
  destruct (toString_spec (seconds / 60)) as (Hv1 & Hd1 & _).
  destruct (toString_spec (seconds mod 60)) as (Hv2 & Hd2 & _).
  destruct (padStart_spec (toString (seconds / 60))) as (Pv1 & Pd1 & _).
  destruct (padStart_spec (toString (seconds mod 60))) as (Pv2 & Pd2 & _).
  rewrite split_at, split_whole.
  - rewrite Pv1, Pv2, Hv1, Hv2. f_equal.
    pose proof (Nat.div_mod_eq seconds 60). lia.
  - apply (allChars_weaken isDigit); [apply digit_is_not_colon|]. congruence.
  - apply (allChars_weaken isDigit); [apply digit_is_not_colon|]. congruence.
Qed.

(** Two different durations are never shown as the same text. *)
Theorem formatTime_distinguishes a b :
  a <> b -> formatTime a <> formatTime b.
Proof.
  intros Hne Heq. apply Hne.
  pose proof (readTime_formatTime a) as Ha.
  rewrite Heq, readTime_formatTime in Ha. congruence.
Qed.

Lemma formatTime_distinguishes_witness :
  59 <> 60 /\ formatTime 59 <> formatTime 60.
Proof.
  assert (H : 59 <> 60) by discriminate.
  split; [exact H | exact (formatTime_distinguishes 59 60 H)].
Defined.

Lemma toString_long n : 100 <= n -> 3 <= String.length (toString n).
Proof.
  intros H. rewrite toString_step by lia. rewrite length_append. cbn [String.length].
  assert (Hq : 10 <= n / 10) by (apply Nat.div_le_lower_bound; lia).
  rewrite toString_step by exact Hq. rewrite length_append. cbn [String.length].
  destruct (toString_spec (n / 10 / 10)) as (_ & _ & Hl). lia.
Qed.

(** The text is never shorter than [MM:SS]; it is exactly that long up to
    99:59, and from a hundred minutes on the minutes take more places:
    they are neither cut off nor carried into an hours field. *)
Theorem formatTime_width seconds :
  5 <= String.length (formatTime seconds) /\
  (String.length (formatTime seconds) = 5 <-> seconds < 100 * 60) /\
  (exists minutes,
     formatTime seconds =
     String.append minutes
       (String ":"
          (String (digitChar (seconds mod 60 / 10))
             (String (digitChar (seconds mod 60 mod 10)) EmptyString))) /\
     decimalValue 0 minutes = seconds / 60).
Proof.
  assert (Hs : seconds mod 60 < 60) by (apply Nat.mod_upper_bound; discriminate).
  assert (Hlen : String.length (formatTime seconds) =
                 Nat.max 2 (String.length (toString (seconds / 60))) + 3).
  { unfold formatTime. cbv zeta. rewrite length_append. cbn [String.length].
    rewrite (two_places (seconds mod 60)) by lia. cbn [String.length].
    destruct (padStart_spec (toString (seconds / 60))) as (_ & _ & ->). lia. }
  split; [lia|]. split.
  - rewrite Hlen. split.
    + intros H. destruct (Nat.lt_ge_cases seconds (100 * 60)) as [Hlt|Hge]; [exact Hlt|].
      assert (100 <= seconds / 60) by (apply Nat.div_le_lower_bound; lia).
      pose proof (toString_long (seconds / 60)). lia.
    + intros H.
      assert (Hm : seconds / 60 < 100) by (apply Nat.Div0.div_lt_upper_bound; lia).
      destruct (Nat.lt_ge_cases (seconds / 60) 10) as [Hlt|Hge].
      * rewrite toString_digit by exact Hlt. reflexivity.
      * rewrite toString_two_digits by lia. reflexivity.
  - exists (padStart 2 "0" (toString (seconds / 60))). split.
    + unfold formatTime. cbv zeta.
      rewrite (two_places (seconds mod 60)) by lia. reflexivity.
    + destruct (padStart_spec (toString (seconds / 60))) as (-> & _).
      apply toString_spec.
Qed.

(** ** The MIME type of a recording *)

Lemma pickMimeType_in_list env : In (pickMimeType env) SUPPORTED_MIME_TYPES.
Proof.
  unfold pickMimeType, SUPPORTED_MIME_TYPES. cbn [find In].
  destruct (envIsTypeSupported env "video/mp4; codecs=avc1,opus"); [auto|].
  destruct (envIsTypeSupported env "video/mp4"); [auto|].
  destruct (envIsTypeSupported env "video/webm; codecs=vp9,opus"); [auto|].
  destruct (envIsTypeSupported env "video/webm"); auto.
Qed.

(** [startRecording] picks the first entry of [SUPPORTED_MIME_TYPES] the
    browser supports, in the order of the list (its two explicit MP4
    tests agree with that order), and WebM when none is supported.  The
    type picked is always on the list, and the browser supports it
    whenever it supports any listed type. *)
Theorem pickMimeType_first_supported env :
  pickMimeType env = firstSupported env /\
  In (pickMimeType env) SUPPORTED_MIME_TYPES /\
  ((exists type, In type SUPPORTED_MIME_TYPES /\ envIsTypeSupported env type = true) ->
   envIsTypeSupported env (pickMimeType env) = true).
Proof.
  unfold pickMimeType, firstSupported, SUPPORTED_MIME_TYPES. cbn [find In].
  destruct (envIsTypeSupported env "video/mp4; codecs=avc1,opus") eqn:H1;
    [repeat split; auto|].
  destruct (envIsTypeSupported env "video/mp4") eqn:H2; [repeat split; auto|].
  destruct (envIsTypeSupported env "video/webm; codecs=vp9,opus") eqn:H3;
    [repeat split; auto|].
  destruct (envIsTypeSupported env "video/webm") eqn:H4; [repeat split; auto|].
  repeat split; auto.
  intros (type & Hin & Hs).
  destruct Hin as [<-|[<-|[<-|[<-|[]]]]]; congruence.
Qed.

(** ** Download *)

Lemma mapChars_length f s : String.length (mapChars f s) = String.length s.
Proof. induction s as [|c s IH]; cbn; [reflexivity | rewrite IH; reflexivity]. Qed.

Lemma mapChars_all (p : ascii -> bool) f s :
  (forall c, p (f c) = true) -> allChars p (mapChars f s) = true.
Proof.
  intros H. induction s as [|c s IH]; cbn; [reflexivity|].
  rewrite H, IH. reflexivity.
Qed.

Lemma mapChars_compose f g s : mapChars f (mapChars g s) = mapChars (fun c => f (g c)) s.
Proof. induction s as [|c s IH]; cbn; [reflexivity | rewrite IH; reflexivity]. Qed.

(** Replacing and lower-casing one character gives a lower-case letter,
    a digit or an underscore. *)
Lemma safe_char c :
  isFileNameChar
    ((fun c => if isUpper c then ascii_of_nat (nat_of_ascii c + 32) else c)
       (if isAlnum c then c else "_"%char)) = true.
Proof. destruct c as [[] [] [] [] [] [] [] []]; reflexivity. Qed.

Lemma baseName_safe t : allChars isFileNameChar (toLowerCase (replaceUnsafe t)) = true.
Proof.
  unfold toLowerCase, replaceUnsafe. rewrite mapChars_compose.
  apply mapChars_all. intros c. apply safe_char.
Qed.

Lemma baseName_length t :
  String.length (toLowerCase (replaceUnsafe t)) = String.length t.
Proof. unfold toLowerCase, replaceUnsafe. rewrite !mapChars_length. reflexivity. Qed.

Lemma filter_fresh a (l : list Anchor) :
  (forall x, In x l -> anchorId x < anchorId a) ->
  filter (fun x => negb (anchorId x =? anchorId a)) (l ++ [a]) = l.
Proof.
  intros H. rewrite filter_app. cbn [filter]. rewrite Nat.eqb_refl. cbn [negb].
  rewrite app_nil_r. apply forallb_filter_id. apply forallb_forall.
  intros x Hx. apply negb_true_iff, Nat.eqb_neq. specialize (H x Hx). lia.
Qed.

(** With a recording to offer, [downloadVideo] starts exactly one
    download, of the recording's object URL.  The file name is a
    non-empty base of lower-case letters, digits and underscores (as long
    as the analysis title when there is one), a dot and the extension
    [mp4] or [webm]; it is [mp4] exactly when the recording's MIME type
    mentions mp4. *)
Theorem download_file_name c p data :
  recordedData c = Some data ->
  exists name ext,
    downloads (downloadVideo c p) =
      downloads p ++ [(url data, String.append name (String "." ext))] /\
    allChars isFileNameChar name = true /\
    name <> EmptyString /\
    (ext = "mp4" \/ ext = "webm") /\
    (ext = "mp4" <-> includes (mimeType data) "mp4" = true) /\
    (forall analysis,
       aiAnalysis c = Some analysis -> title analysis <> EmptyString ->
       String.length name = String.length (title analysis)) /\
    (aiAnalysis c = None -> name = "screen_recording").
Proof.
  intros Hdata. unfold downloadVideo. rewrite Hdata. cbv zeta.
  cbn [removeChild click appendChild downloads href download].
  eexists. eexists. split; [reflexivity|].
  assert (Hext :
    let ext := if includes (mimeType data) "mp4" then "mp4" else "webm" in
    (ext = "mp4" \/ ext = "webm") /\ (ext = "mp4" <-> includes (mimeType data) "mp4" = true)).
  { destruct (includes (mimeType data) "mp4"); cbn; split; auto; split;
      intros; auto; discriminate. }
  destruct Hext as [Hext1 Hext2].
  destruct (aiAnalysis c) as [analysis|].
  - destruct (title analysis) as [|ch t] eqn:Ht.
    + repeat split; try assumption; try apply Hext2; try discriminate.
      intros a [= <-]. congruence.
    + repeat split; try assumption; try apply Hext2; try discriminate.
      * apply baseName_safe.
      * intros a [= <-] _. rewrite Ht. apply baseName_length.
  - repeat split; try assumption; try apply Hext2; try discriminate.
Qed.

Lemma download_file_name_witness :
  recordedData reviewComponent = Some sampleRecording /\
  exists name ext,
    downloads (downloadVideo reviewComponent emptyPage) =
      downloads emptyPage ++ [(url sampleRecording, String.append name (String "." ext))] /\
    allChars isFileNameChar name = true /\
    name <> EmptyString /\
    (ext = "mp4" \/ ext = "webm") /\
    (ext = "mp4" <-> includes (mimeType sampleRecording) "mp4" = true) /\
    (forall analysis,
       aiAnalysis reviewComponent = Some analysis -> title analysis <> EmptyString ->
       String.length name = String.length (title analysis)) /\
    (aiAnalysis reviewComponent = None -> name = "screen_recording").
Proof.
  split; [reflexivity|].
  exact (download_file_name reviewComponent emptyPage sampleRecording eq_refl).
Defined.

(** [downloadVideo] leaves nothing behind in the document: the anchor it
    appends to the body is removed again, so the children of the body are
    what they were.  It starts at most one download, and none (changing
    nothing) when there is no recording. *)
Theorem download_leaves_page_clean c p :
  wellFormed p ->
  bodyChildren (downloadVideo c p) = bodyChildren p /\
  wellFormed (downloadVideo c p) /\
  List.length (downloads (downloadVideo c p)) <= S (List.length (downloads p)) /\
  (recordedData c = None -> downloadVideo c p = p).
Proof.
  intros Hwf. unfold downloadVideo.
  destruct (recordedData c) as [data|]; [|repeat split; auto].
  cbv zeta.
  match goal with |- context [removeChild ?a _] => set (anchor := a) end.
  match goal with |- context [removeChild anchor ?q] => set (page := q) end.
  assert (Hkeep : bodyChildren (removeChild anchor page) = bodyChildren p).
  { apply (filter_fresh anchor (bodyChildren p)). exact Hwf. }
  repeat split.
  - exact Hkeep.
  - unfold wellFormed. rewrite Hkeep. cbn [removeChild nextNode page click appendChild].
    intros a Ha. specialize (Hwf a Ha). lia.
  - cbn [removeChild downloads page click appendChild]. rewrite length_app. cbn. lia.
  - discriminate.
Qed.

Lemma download_leaves_page_clean_witness :
  wellFormed emptyPage /\
  bodyChildren (downloadVideo reviewComponent emptyPage) = bodyChildren emptyPage.
Proof.
  assert (H : wellFormed emptyPage) by (intros a []).
  split; [exact H | exact (proj1 (download_leaves_page_clean reviewComponent emptyPage H))].
Defined.

Lemma listed_type_extension type :
  In type SUPPORTED_MIME_TYPES ->
  includes type "mp4" =
  (String.eqb type "video/mp4; codecs=avc1,opus" || String.eqb type "video/mp4").
Proof.
  intros [<-|[<-|[<-|[<-|[]]]]]; reflexivity.
Qed.

(** The file offered for a recording made by [startRecording] gets the
    extension [mp4] exactly when the browser supports one of the two MP4
    types, and [webm] otherwise. *)
Theorem download_extension_follows_support env c p data :
  recordedData c = Some data ->
  mimeType data = pickMimeType env ->
  exists name,
    downloads (downloadVideo c p) =
    downloads p ++
    [(url data,
      String.append name
        (if envIsTypeSupported env "video/mp4; codecs=avc1,opus"
            || envIsTypeSupported env "video/mp4"
         then ".mp4" else ".webm"))].
Proof.
  intros Hdata Hmime. unfold downloadVideo. rewrite Hdata. cbv zeta.
  cbn [removeChild click appendChild downloads href download].
  eexists. f_equal. f_equal. f_equal. f_equal.
  rewrite Hmime, listed_type_extension by apply pickMimeType_in_list.
  unfold pickMimeType.
  destruct (envIsTypeSupported env "video/mp4; codecs=avc1,opus") eqn:H1; [reflexivity|].
  destruct (envIsTypeSupported env "video/mp4") eqn:H2; [reflexivity|].
  unfold SUPPORTED_MIME_TYPES. cbn [find]. rewrite H1, H2.
  destruct (envIsTypeSupported env "video/webm; codecs=vp9,opus"); [reflexivity|].
  destruct (envIsTypeSupported env "video/webm"); reflexivity.
Qed.

Lemma download_extension_follows_support_witness :
  recordedData reviewComponent = Some sampleRecording /\
  mimeType sampleRecording = pickMimeType mp4Env /\
  exists name,
    downloads (downloadVideo reviewComponent emptyPage) =
    downloads emptyPage ++
    [(url sampleRecording,
      String.append name
        (if envIsTypeSupported mp4Env "video/mp4; codecs=avc1,opus"
            || envIsTypeSupported mp4Env "video/mp4"
         then ".mp4" else ".webm"))].
Proof.
  split; [reflexivity|]. split; [reflexivity|].
  exact (download_extension_follows_support mp4Env reviewComponent emptyPage
           sampleRecording eq_refl eq_refl).
Defined.

(** ** The analysis service *)

(** Without an API key (missing or empty) [generateVideoAnalysis] throws
    the missing-key error at once: no request is sent and nothing is
    logged, the test being outside the [try] block. *)
Theorem missing_key_sends_nothing be base64Image o :
  GeminiService.keyMissing be ->
  GeminiService.generateVideoAnalysis be base64Image o =
  (Thrown {| message := GeminiService.MISSING_KEY |}, o).
Proof.
  unfold GeminiService.generateVideoAnalysis.
  intros [-> | ->]; reflexivity.
Qed.

Lemma missing_key_sends_nothing_witness :
  GeminiService.keyMissing GeminiService.noKey /\
  GeminiService.generateVideoAnalysis GeminiService.noKey "iVBORw0KGgo=" GeminiService.quiet =
  (Thrown {| message := GeminiService.MISSING_KEY |}, GeminiService.quiet).
Proof.
  assert (H : GeminiService.keyMissing GeminiService.noKey) by (left; reflexivity).
  split; [exact H|].
  exact (missing_key_sends_nothing GeminiService.noKey "iVBORw0KGgo=" GeminiService.quiet H).
Defined.

(** With a key, [generateVideoAnalysis] sends exactly one request, for
    the configured model and with the image as inline PNG data.  It
    returns the parsed text when the API answers with a non-empty text
    that parses, and logs nothing then.  Otherwise it throws: the API's
    rejection, the no-response error for a missing or empty text, or the
    parser's error; whatever is thrown is logged once and is the very
    error rethrown. *)
Theorem service_outcome be base64Image o key :
  GeminiService.API_KEY be = Some key -> key <> EmptyString ->
  let request := GeminiService.requestFor key base64Image in
  let result := GeminiService.generateVideoAnalysis be base64Image o in
  GeminiService.requests (snd result) = GeminiService.requests o ++ [request] /\
  GeminiService.model request = "gemini-2.5-flash" /\
  GeminiService.inlineData request = base64Image /\
  match fst result with
  | Normal r =>
      GeminiService.errors (snd result) = GeminiService.errors o /\
      exists jsonText,
        GeminiService.generateContent be request = Fulfilled (Some jsonText) /\
        jsonText <> EmptyString /\
        GeminiService.parseJSON be jsonText = Fulfilled r
  | Thrown e =>
      GeminiService.errors (snd result) =
        GeminiService.errors o ++ [("Gemini Analysis Failed:", e)] /\
      (GeminiService.generateContent be request = Rejected e \/
       (e = {| message := GeminiService.NO_RESPONSE |} /\
        (GeminiService.generateContent be request = Fulfilled None \/
         GeminiService.generateContent be request = Fulfilled (Some EmptyString))) \/
       exists jsonText,
         GeminiService.generateContent be request = Fulfilled (Some jsonText) /\
         GeminiService.parseJSON be jsonText = Rejected e)
  end.
Proof.
  intros Hkey Hne. cbv zeta.
  unfold GeminiService.generateVideoAnalysis. rewrite Hkey.
  destruct key as [|k0 key]; [congruence|].
  unfold GeminiService.attempt, GeminiService.andThen, GeminiService.send,
    GeminiService.jsonParse, GeminiService.consoleError, GeminiService.raise,
    GeminiService.pure.
  destruct (GeminiService.generateContent be _) as [[[|c t]|]|e] eqn:Hsend; cbn.
  - repeat split; auto.
  - destruct (GeminiService.parseJSON be (String c t)) as [r|e] eqn:Hparse; cbn.
    + repeat split. exists (String c t).
      split; [reflexivity|]. split; [discriminate | exact Hparse].
    + repeat split. right. right. exists (String c t). auto.
  - repeat split; auto.
  - repeat split; auto.
Qed.

Lemma service_outcome_witness :
  let be := GeminiService.answering "{}" sampleAnalysis in
  GeminiService.API_KEY be = Some "k" /\ "k" <> EmptyString /\
  fst (GeminiService.generateVideoAnalysis be "iVBORw0KGgo=" GeminiService.quiet) =
  Normal sampleAnalysis /\
  GeminiService.requests
    (snd (GeminiService.generateVideoAnalysis be "iVBORw0KGgo=" GeminiService.quiet)) =
  [GeminiService.requestFor "k" "iVBORw0KGgo="].
Proof.
  cbv zeta.
  assert (Hne : "k" <> EmptyString) by discriminate.
  split; [reflexivity|]. split; [exact Hne|]. split; [reflexivity|].
  exact (proj1 (service_outcome (GeminiService.answering "{}" sampleAnalysis)
                  "iVBORw0KGgo=" GeminiService.quiet "k" eq_refl Hne)).
Defined.

(** ** What the handlers leave alone *)

Ltac split_named s :=
  destruct s as [[?st ?data ?mic ?err ?dur ?analyzing ?analysis ?rec ?ctx ?chunks
                  ?preview ?timer ?started ?callbacks]
                 [?next ?clock ?live ?hooks ?open ?nodes ?conns ?temps ?intervals ?tr]].

Ltac keeps_view :=
  repeat first
    [ apply keeps_ret
    | apply keeps_throw
    | apply keeps_gets
    | apply keeps_bind; [|intros ?]
    | apply keeps_try; [|intros ?]
    | apply keeps_forEach; intros ?
    | match goal with
      | |- keeps _ (match ?x with _ => _ end) => destruct x
      | |- keeps _ (if ?x then _ else _) => destruct x
      end
    | solve [let s := fresh "s" in let H := fresh "H" in intros s H; exact H] ].

(** [acquire] writes only the cleanup list, the audio-context slot and
    the preview. *)
Lemma acquire_view env v : keeps (fun s => sessionView s = v) (acquire env).
Proof.
  unfold acquire, mixAudio, getDisplayMedia, getUserMedia, grantStream,
    pushCleanup, newAudioContext, createMediaStreamDestination,
    createMediaStreamSource, connect, newMediaStream, addNode, emit.
  keeps_view.
Qed.

(** What [startRecording] leaves: either the recorder runs, or an error
    is shown and everything is released. *)
Lemma startRecording_slots env f s :
  let s' := exec (startRecording env f) s in
  aiAnalysis (cmp s') = aiAnalysis (cmp s) /\
  isAnalyzing (cmp s') = isAnalyzing (cmp s) /\
  recordedData (cmp s') = recordedData (cmp s) /\
  audioEnabled (cmp s') = audioEnabled (cmp s) /\
  now (brw s') = now (brw s) /\
  tempVideos (brw s') = tempVideos (brw s) /\
  ((envNewMediaRecorder env = None /\ envRecorderStart env = None /\
    status (cmp s') = RECORDING /\
    error (cmp s') = error (cmp s) /\
    mediaRecorderRef (cmp s') =
      Some {| recState := Recording; recStream := f; recMimeType := pickMimeType env |} /\
    timerIntervalRef (cmp s') = Some (S (nextId (brw s))) /\
    activeIntervals (brw s') = activeIntervals (brw s) ++ [S (nextId (brw s))] /\
    videoPreviewRef (cmp s') = videoPreviewRef (cmp s) /\
    registry s' = registry s /\
    startTimeRef (cmp s') = now (brw s) /\
    recordingDuration (cmp s') = 0 /\
    chunksRef (cmp s') = [])
   \/
   (((exists e, envNewMediaRecorder env = Some e) \/
     (exists e, envRecorderStart env = Some e)) /\
    status (cmp s') = status (cmp s) /\
    (exists msg, error (cmp s') = Some msg) /\
    (mediaRecorderRef (cmp s') = mediaRecorderRef (cmp s) \/
     mediaRecorderRef (cmp s') =
       Some {| recState := Inactive; recStream := f; recMimeType := pickMimeType env |}) /\
    timerIntervalRef (cmp s') = timerIntervalRef (cmp (cleaned s)) /\
    activeIntervals (brw s') = activeIntervals (brw (cleaned s)) /\
    videoPreviewRef (cmp s') = videoPreviewRef (cmp (cleaned s)) /\
    recordingDuration (cmp s') = recordingDuration (cmp s) /\
    registry s' = [])).
Proof.
  cbv zeta. unfold startRecording. split_state s. js.
  destruct (envNewMediaRecorder env) as [e|] eqn:Hctor; js.
  - rewrite cleanupResources_cleaned. unfold cleaned, registry. reduce_fields_in_all.
    repeat (split; [reflexivity|]). right.
    split; [eauto|]. repeat split; eauto.
  - destruct (envRecorderStart env) as [e|] eqn:Hstart; js.
    + rewrite cleanupResources_cleaned. unfold cleaned, registry. reduce_fields_in_all.
      repeat (split; [reflexivity|]). right.
      split; [eauto|]. repeat split; eauto.
    + unfold registry. reduce_fields_in_all.
      repeat (split; [reflexivity|]). left. repeat split.
Qed.

Lemma cleaned_slots s :
  status (cmp (cleaned s)) = status (cmp s) /\
  error (cmp (cleaned s)) = error (cmp s) /\
  recordedData (cmp (cleaned s)) = recordedData (cmp s) /\
  aiAnalysis (cmp (cleaned s)) = aiAnalysis (cmp s) /\
  isAnalyzing (cmp (cleaned s)) = isAnalyzing (cmp s) /\
  recordingDuration (cmp (cleaned s)) = recordingDuration (cmp s) /\
  mediaRecorderRef (cmp (cleaned s)) = mediaRecorderRef (cmp s) /\
  chunksRef (cmp (cleaned s)) = chunksRef (cmp s) /\
  startTimeRef (cmp (cleaned s)) = startTimeRef (cmp s) /\
  audioEnabled (cmp (cleaned s)) = audioEnabled (cmp s) /\
  now (brw (cleaned s)) = now (brw s) /\
  tempVideos (brw (cleaned s)) = tempVideos (brw s) /\
  videoPreviewRef (cmp (cleaned s)) =
    match videoPreviewRef (cmp s) with
    | Some _ => Some {| srcObject := None |}
    | None => None
    end.
Proof. repeat split. Qed.

(** With at most the component's own timer running, [cleanupResources]
    leaves no timer. *)
Lemma cleaned_timer s :
  match timerIntervalRef (cmp s) with
  | Some id => 0 < id /\ activeIntervals (brw s) = [id]
  | None => activeIntervals (brw s) = []
  end ->
  timerIntervalRef (cmp (cleaned s)) = None /\
  activeIntervals (brw (cleaned s)) = [].
Proof.
  split_named s. unfold cleaned. reduce_fields_in_all.
  destruct timer as [[|n]|].
  - intros [H _]. lia.
  - intros [_ ->]. cbn [filter]. rewrite Nat.eqb_refl. split; reflexivity.
  - intros ->. split; reflexivity.
Qed.

(** What [startCapture] leaves when no timer is running: either the
    recorder runs on a stream the preview shows, with the component's one
    timer, or an error is shown and nothing is held. *)
Lemma startCapture_slots env s :
  timerIntervalRef (cmp s) = None ->
  let s' := exec (startCapture env) s in
  aiAnalysis (cmp s') = aiAnalysis (cmp s) /\
  isAnalyzing (cmp s') = isAnalyzing (cmp s) /\
  recordedData (cmp s') = recordedData (cmp s) /\
  audioEnabled (cmp s') = audioEnabled (cmp s) /\
  ((status (cmp s') = RECORDING /\
    error (cmp s') = None /\
    (exists f,
       mediaRecorderRef (cmp s') =
         Some {| recState := Recording; recStream := f; recMimeType := pickMimeType env |} /\
       videoPreviewRef (cmp s') =
         match videoPreviewRef (cmp s) with
         | Some _ => Some {| srcObject := Some f |}
         | None => None
         end) /\
    (exists n,
       timerIntervalRef (cmp s') = Some (S n) /\
       activeIntervals (brw s') = activeIntervals (brw s) ++ [S n]) /\
    startTimeRef (cmp s') = now (brw s') /\
    now (brw s') = now (brw s) /\
    recordingDuration (cmp s') = 0)
   \/
   (status (cmp s') = status (cmp s) /\
    (exists msg, error (cmp s') = Some msg) /\
    (mediaRecorderRef (cmp s') = mediaRecorderRef (cmp s) \/
     exists f,
       mediaRecorderRef (cmp s') =
         Some {| recState := Inactive; recStream := f; recMimeType := pickMimeType env |}) /\
    timerIntervalRef (cmp s') = None /\
    activeIntervals (brw s') = activeIntervals (brw s) /\
    videoPreviewRef (cmp s') =
      match videoPreviewRef (cmp s) with
      | Some _ => Some {| srcObject := None |}
      | None => None
      end /\
    recordingDuration (cmp s') = recordingDuration (cmp s) /\
    registry s' = [])).
Proof.
  intros Htimer. cbv zeta.
  destruct (envDisplay env) as [sh|e] eqn:Hd.
  - destruct (acquire_granted env sh (atTry s) Hd) as (f & s1 & Heq & Hacq).
    assert (Hexec : exec (startCapture env) s = exec (startRecording env f) s1).
    { unfold exec at 1. rewrite startCapture_try. unfold try_catch, bind. rewrite Heq.
      pose proof (startRecording_total env f s1) as Ht. unfold exec.
      destruct (startRecording env f s1) as [r s2]. cbn [fst] in Ht. subst r. reflexivity. }
    pose proof (acquire_view env (sessionView (atTry s)) (atTry s) eq_refl) as Hview.
    rewrite Heq in Hview. cbn [snd] in Hview. unfold sessionView in Hview.
    injection Hview as V1 V2 V3 V4 V5 V6 V7 V8 V9 V10 V11 V12 V13 V14.
    pose proof (acq_preview Hacq) as Hprev.
    change (videoPreviewRef (cmp (atTry s))) with (videoPreviewRef (cmp s)) in Hprev.
    rewrite Hexec.
    destruct (startRecording_slots env f s1)
      as (A1 & A2 & A3 & A4 & A5 & A6 & [Hok|Hfail]).
    + destruct Hok as (_ & _ & B1 & B2 & B3 & B4 & B5 & B6 & B7 & B8 & B9 & _).
      rewrite A1, A2, A3, A4, V4, V5, V3, V11.
      repeat (split; [reflexivity|]). left.
      split; [exact B1|]. split; [rewrite B2, V2; reflexivity|].
      split; [exists f; split; [exact B3 | rewrite B6, Hprev; reflexivity]|].
      split; [exists (nextId (brw s1)); split; [exact B4 | rewrite B5, V12; reflexivity]|].
      split; [rewrite B8, A5; reflexivity|].
      split; [rewrite A5, V13; reflexivity | exact B9].
    + destruct Hfail as (_ & B1 & B2 & B3 & B4 & B5 & B6 & B7 & B8).
      destruct (cleaned_slots s1) as (_ & _ & _ & _ & _ & _ & _ & _ & _ & _ & _ & _ & C13).
      assert (Ht : timerIntervalRef (cmp (cleaned s1)) = None /\
                   activeIntervals (brw (cleaned s1)) = activeIntervals (brw s)).
      { change (timerIntervalRef (cmp (atTry s))) with (timerIntervalRef (cmp s)) in V9.
        change (activeIntervals (brw (atTry s))) with (activeIntervals (brw s)) in V12.
        rewrite Htimer in V9. rewrite <- V12. clear - V9. revert V9. split_named s1.
        unfold cleaned. reduce_fields_in_all. intros ->. split; reflexivity. }
      destruct Ht as [Ht1 Ht2].
      rewrite A1, A2, A3, A4, V4, V5, V3, V11.
      repeat (split; [reflexivity|]). right.
      split; [rewrite B1, V1; reflexivity|]. split; [exact B2|].
      split; [destruct B3 as [B3|B3]; [left; rewrite B3, V7; reflexivity | right; eauto]|].
      split; [rewrite B4; exact Ht1|]. split; [rewrite B5; exact Ht2|].
      split; [rewrite B6, C13, Hprev; destruct (videoPreviewRef (cmp s)); reflexivity|].
      split; [rewrite B7, V6; reflexivity | exact B8].
  - rewrite (startCapture_rejected env e s Hd). revert Htimer. split_named s.
    cbn [timerIntervalRef cmp]. intros ->.
    unfold atTry, cleaned, registry. js.
    repeat (split; [reflexivity|]). right. repeat split; eauto.
Qed.

(** [analyzeRecording], in closed form: the analysis slot takes the
    service's answer, or nothing when the service fails. *)
Lemma analyzeRecording_exact env img s :
  analyzeRecording env img s =
  (Normal tt,
   upd_cmp
     (fun c =>
        with_isAnalyzing false
          (with_aiAnalysis
             match envAnalysis env img with
             | Fulfilled r => Some r
             | Rejected _ => None
             end c))
     (upd_brw
        (fun b =>
           with_trace
             (trace b ++
              match envAnalysis env img with
              | Fulfilled _ => []
              | Rejected _ => [CallConsoleError "AI Analysis failed"]
              end) b) s)).
Proof.
  split_state s. unfold analyzeRecording. js.
  destruct (envAnalysis env img); js; rewrite ?app_nil_r; reflexivity.
Qed.

(** With the preview showing the stream, [captureSnapshot] reads the frame
    from it: no element is created and no time passes. *)
Lemma captureSnapshot_bound env stream s :
  boundTo (videoPreviewRef (cmp s)) stream = true ->
  exists r b',
    captureSnapshot env stream s = (Normal r, {| cmp := cmp s; brw := b' |}) /\
    tempVideos b' = tempVideos (brw s) /\
    now b' = now (brw s) /\
    nextId b' = nextId (brw s).
Proof.
  split_state s. unfold captureSnapshot. js. intros ->. js.
  repeat (split_snapshot; js; cbn [negb]).
  all: eexists; eexists; (split; [reflexivity|]); repeat split.
Qed.

Lemma onstop_slots env stream mime s :
  exists s',
    onstop env stream mime s = (Normal tt, s') /\
    timerIntervalRef (cmp s') = timerIntervalRef (cmp (cleaned s)) /\
    activeIntervals (brw s') = activeIntervals (brw (cleaned s)) /\
    videoPreviewRef (cmp s') = videoPreviewRef (cmp (cleaned s)) /\
    recordingDuration (cmp s') = recordingDuration (cmp s) /\
    audioEnabled (cmp s') = audioEnabled (cmp s) /\
    startTimeRef (cmp s') = startTimeRef (cmp s) /\
    (aiAnalysis (cmp s') = aiAnalysis (cmp s) /\
     isAnalyzing (cmp s') = isAnalyzing (cmp s) \/
     isAnalyzing (cmp s') = false /\
     exists img,
       aiAnalysis (cmp s') =
       match envAnalysis env img with
       | Fulfilled r => Some r
       | Rejected _ => None
       end) /\
    (boundTo (videoPreviewRef (cmp s)) stream = true ->
     now (brw s') = now (brw s) /\ tempVideos (brw s') = tempVideos (brw s)).
Proof.
  unfold onstop. run_monad.
  match goal with |- context [captureSnapshot env stream ?s0] =>
    destruct (captureSnapshot_spec env stream s0) as (r & b' & Heq & Hframe);
    assert (Hbound : boundTo (videoPreviewRef (cmp s)) stream = true ->
                     now b' = now (brw s) /\ tempVideos b' = tempVideos (brw s));
    [ intros Hb; destruct (captureSnapshot_bound env stream s0 Hb)
        as (r2 & b2 & Heq2 & T1 & T2 & _);
      rewrite Heq in Heq2; injection Heq2 as _ <-; split; assumption
    | rewrite Heq ]
  end.
  run_monad. rewrite cleanupResources_cleaned.
  pose proof (snap_intervals Hframe) as Hint.
  destruct (truthy r) as [img|].
  - rewrite analyzeRecording_exact. eexists. split; [reflexivity|].
    unfold cleaned. reduce_fields_in_all. rewrite Hint.
    repeat (split; [reflexivity|]).
    split; [right; split; [reflexivity | exists img; reflexivity] | exact Hbound].
  - eexists. split; [reflexivity|].
    unfold cleaned. reduce_fields_in_all. rewrite Hint.
    repeat (split; [reflexivity|]).
    split; [left; split; reflexivity | exact Hbound].
Qed.

(** What stopping an active recorder leaves. *)
Lemma stopRecording_slots env s r :
  mediaRecorderRef (cmp s) = Some r -> recState r <> Inactive ->
  exists s',
    stopRecording env s = (Normal tt, s') /\
    status (cmp s') = REVIEW /\
    (exists md,
       recordedData (cmp s') = Some md /\
       mimeType md = recMimeType r /\
       blobType (blob md) = recMimeType r /\
       duration md = now (brw s) - startTimeRef (cmp s)) /\
    error (cmp s') = error (cmp s) /\
    mediaRecorderRef (cmp s') = Some (setRecState Inactive r) /\
    timerIntervalRef (cmp s') = timerIntervalRef (cmp (cleaned s)) /\
    activeIntervals (brw s') = activeIntervals (brw (cleaned s)) /\
    videoPreviewRef (cmp s') = videoPreviewRef (cmp (cleaned s)) /\
    recordingDuration (cmp s') = recordingDuration (cmp s) /\
    audioEnabled (cmp s') = audioEnabled (cmp s) /\
    (aiAnalysis (cmp s') = aiAnalysis (cmp s) /\
     isAnalyzing (cmp s') = isAnalyzing (cmp s) \/
     isAnalyzing (cmp s') = false /\
     exists img,
       aiAnalysis (cmp s') =
       match envAnalysis env img with
       | Fulfilled r => Some r
       | Rejected _ => None
       end) /\
    registry s' = [] /\
    (boundTo (videoPreviewRef (cmp s)) (recStream r) = true ->
     now (brw s') = now (brw s) /\ tempVideos (brw s') = tempVideos (brw s)).
Proof.
  intros Hr Hact. unfold stopRecording, recorderStop. split_state s.
  reduce_fields_in_all. subst.
  destruct r as [state f mime]. cbn [recState recMimeType recStream] in *. js.
  destruct state; [congruence| |].
  all: destruct (0 <? blobSize (envFinalData env)) eqn:Hsize; js.
  all: match goal with |- context [onstop ?e ?f ?mime ?m] =>
         destruct (onstop_slots e f mime m)
           as (s' & Heq & T1 & T2 & T3 & T4 & T5 & T6 & T7 & T8);
         destruct (onstop_spec e f mime m) as (s'' & Heq' & Hstop);
         rewrite Heq in Heq'; injection Heq' as <-; rewrite Heq;
         exists s'
       end.
  all: pose proof (stop_status Hstop) as S1;
       destruct (stop_data Hstop) as (md & S2 & S3 & S4 & S5);
       pose proof (stop_error Hstop) as S6;
       pose proof (stop_recorder Hstop) as S7;
       destruct (stop_Released Hstop) as (S8 & _).
  all: split; [reflexivity|]; split; [exact S1|].
  all: split; [exists md; rewrite S3; repeat split; assumption|].
  all: split; [exact S6|]; split; [exact S7|]; split; [exact T1|];
       split; [exact T2|]; split; [exact T3|]; split; [exact T4|];
       split; [exact T5|]; split; [exact T7|]; split; [exact S8 | exact T8].
Qed.

(** ** The status logic *)

Lemma Consistent_same s s' :
  status (cmp s') = status (cmp s) ->
  (error (cmp s') = error (cmp s) \/ error (cmp s') = None) ->
  recordedData (cmp s') = recordedData (cmp s) ->
  aiAnalysis (cmp s') = aiAnalysis (cmp s) ->
  isAnalyzing (cmp s') = isAnalyzing (cmp s) ->
  mediaRecorderRef (cmp s') = mediaRecorderRef (cmp s) ->
  timerIntervalRef (cmp s') = timerIntervalRef (cmp s) ->
  activeIntervals (brw s') = activeIntervals (brw s) ->
  videoPreviewRef (cmp s') = videoPreviewRef (cmp s) ->
  registry s' = registry s ->
  Consistent s -> Consistent s'.
Proof.
  intros E1 E2 E3 E4 E5 E6 E7 E8 E9 E10 [].
  constructor; rewrite ?E1, ?E3, ?E4, ?E5, ?E6, ?E7, ?E8, ?E9, ?E10; try assumption.
  destruct E2 as [-> | ->]; [assumption | congruence].
Qed.

Lemma Coherent_initial : Coherent initial.
Proof.
  split; [constructor|]; cbn; try congruence; try tauto.
  all: try (split; discriminate).
  all: try (intros; discriminate).
  - split; [discriminate | intros H; congruence].
  - split; [discriminate | intros (r & H & _); discriminate].
Qed.

(** Rendering mounts or unmounts the preview and touches nothing else. *)
Lemma render_preview s :
  render s =
  upd_cmp
    (with_videoPreviewRef
       match status (cmp s), recordedData (cmp s) with
       | REVIEW, Some _ => None
       | _, _ =>
           match videoPreviewRef (cmp s) with
           | Some v => Some v
           | None => Some {| srcObject := None |}
           end
       end) s.
Proof.
  split_named s. unfold render. cbn [cmp status recordedData videoPreviewRef].
  destruct st, data, preview; reflexivity.
Qed.

Lemma render_Coherent s : Consistent s -> Coherent (render s).
Proof.
  intros Hc. rewrite render_preview.
  destruct Hc as [C1 C2 C3 C4 C5 C6 C7 C8 C9 C10].
  split; [constructor; try assumption|].
  - intros Hrec Hreg. destruct (C10 Hrec Hreg) as (r & Hr & Hp).
    exists r. split; [exact Hr|].
    cbn [upd_cmp cmp with_videoPreviewRef videoPreviewRef].
    change (status (cmp (upd_cmp _ s))) with (status (cmp s)) in Hrec.
    rewrite Hrec, Hp. reflexivity.
  - cbn [upd_cmp cmp with_videoPreviewRef videoPreviewRef status].
    destruct C3 as [H1 H2].
    destruct (status (cmp s)) eqn:Es; destruct (recordedData (cmp s)) eqn:Ed;
      destruct (videoPreviewRef (cmp s)); split; intros H;
      try reflexivity; try discriminate; try congruence.
    all: exfalso; first [ apply (H1 eq_refl); reflexivity
                        | discriminate (H2 ltac:(discriminate)) ].
Qed.

Lemma Consistent_no_timer s :
  Consistent s -> status (cmp s) <> RECORDING ->
  timerIntervalRef (cmp s) = None /\ activeIntervals (brw s) = [].
Proof.
  intros Hc Hst. pose proof (coh_timer Hc) as Ht.
  destruct (timerIntervalRef (cmp s)) as [id|]; [|split; [reflexivity | exact Ht]].
  destruct Ht as [Hrec _]. contradiction.
Qed.

Lemma Consistent_timer s :
  Consistent s ->
  timerIntervalRef (cmp (cleaned s)) = None /\
  activeIntervals (brw (cleaned s)) = [].
Proof.
  intros Hc. apply cleaned_timer. pose proof (coh_timer Hc) as Ht.
  destruct (timerIntervalRef (cmp s)); [tauto | exact Ht].
Qed.

Lemma startCapture_Consistent env s :
  Coherent s -> status (cmp s) = IDLE -> Consistent (exec (startCapture env) s).
Proof.
  intros [Hc Hprev] Hidle.
  destruct (Consistent_no_timer s Hc) as [Htimer Hint]; [congruence|].
  destruct (startCapture_slots env s Htimer) as (A1 & A2 & A3 & A4 & [Hok|Hfail]).
  - destruct Hok as (B1 & B2 & (f & B3 & B4) & (n & B5 & B6) & _).
    assert (Hdata : recordedData (cmp s) = None).
    { destruct (recordedData (cmp s)) eqn:E; [|reflexivity].
      assert (status (cmp s) = REVIEW) by (apply (coh_review Hc); congruence). congruence. }
    assert (Hai : aiAnalysis (cmp s) = None).
    { destruct (aiAnalysis (cmp s)) eqn:E; [|reflexivity].
      assert (status (cmp s) = REVIEW) by (apply (coh_analysis Hc); congruence). congruence. }
    constructor; rewrite ?B1, ?B2, ?B3, ?B5, ?B6, ?A1, ?A2, ?A3, ?Hdata, ?Hai, ?Hint.
    + discriminate.
    + congruence.
    + split; [discriminate | congruence].
    + congruence.
    + apply (coh_analyzing Hc).
    + split; [eauto | reflexivity].
    + intros r [= <-]. split; [discriminate | apply pickMimeType_in_list].
    + discriminate.
    + repeat split. lia.
    + intros _ _. eexists. split; [reflexivity|]. rewrite B4. cbn [recStream].
      destruct (videoPreviewRef (cmp s)) eqn:E; [reflexivity|].
      assert (status (cmp s) = REVIEW) by (apply Hprev; reflexivity). congruence.
  - destruct Hfail as (B1 & (msg & B2) & B3 & B4 & B5 & B6 & _ & B8).
    constructor; rewrite ?B1, ?B2, ?B4, ?B5, ?B8, ?A1, ?A2, ?A3, ?Hint; try apply Hc.
    + intros _. exact Hidle.
    + split; [congruence|].
      intros (r & Hr & Hrec).
      destruct B3 as [B3|(f & B3)]; rewrite B3 in Hr.
      * apply (coh_recording Hc). eauto.
      * injection Hr as <-. discriminate.
    + intros r Hr. destruct B3 as [B3|(f & B3)]; rewrite B3 in Hr.
      * apply (coh_recorder Hc), Hr.
      * injection Hr as <-. split; [discriminate | apply pickMimeType_in_list].
    + reflexivity.
    + congruence.
Qed.

Lemma stopRecording_Consistent env s :
  Consistent s -> Consistent (exec (stopRecording env) s).
Proof.
  intros Hc.
  destruct (mediaRecorderRef (cmp s)) as [r|] eqn:Hr.
  - destruct (recState r) eqn:Hstate.
    + unfold exec, stopRecording, bind, gets. rewrite Hr, Hstate. exact Hc.
    + assert (Hact : recState r <> Inactive) by congruence.
      destruct (stopRecording_slots env s r Hr Hact)
        as (s' & Heq & B1 & (md & B2 & B3 & B4 & _) & B5 & B6 & B7 & B8 & _ & _ & _ & B9 & B10 & _).
      unfold exec. rewrite Heq. cbn [snd].
      destruct (Consistent_timer s Hc) as [T1 T2].
      assert (Hrec : status (cmp s) = RECORDING) by (apply (coh_recording Hc); eauto).
      assert (Herr : error (cmp s) = None).
      { destruct (error (cmp s)) eqn:E; [|reflexivity].
        assert (status (cmp s) = IDLE) by (apply (coh_error Hc); congruence). congruence. }
      assert (Hai : aiAnalysis (cmp s) = None).
      { destruct (aiAnalysis (cmp s)) eqn:E; [|reflexivity].
        assert (status (cmp s) = REVIEW) by (apply (coh_analysis Hc); congruence). congruence. }
      constructor; rewrite ?B1, ?B2, ?B5, ?B6, ?B7, ?B8, ?B10, ?T1, ?T2, ?Herr.
      * discriminate.
      * congruence.
      * split; [discriminate | reflexivity].
      * reflexivity.
      * destruct B9 as [[_ ->]| [-> _]]; [apply (coh_analyzing Hc) | reflexivity].
      * split; [discriminate|]. intros (r' & [= <-] & Hx). discriminate.
      * intros r' [= <-]. cbn [setRecState recState recMimeType].
        split; [discriminate | apply (coh_recorder Hc Hr)].
      * intros md' [= <-]. rewrite B3, B4. split; [apply (coh_recorder Hc Hr) | reflexivity].
      * reflexivity.
      * discriminate.
    + destruct (coh_recorder Hc Hr) as [Hp _]. contradiction.
  - unfold exec, stopRecording, bind, gets. rewrite Hr. exact Hc.
Qed.

Lemma dropTrack_Consistent t s : Consistent s -> Consistent (dropTrack t s).
Proof. apply Consistent_same; auto. Qed.

Lemma reset_Consistent s :
  Consistent s -> status (cmp s) = REVIEW -> Consistent (exec reset s).
Proof.
  intros Hc Hrev. destruct (Consistent_timer s Hc) as [T1 T2].
  assert (Hnot : ~ exists r, mediaRecorderRef (cmp s) = Some r /\ recState r = Recording).
  { intros H. apply (coh_recording Hc) in H. congruence. }
  pose proof (coh_recorder Hc) as Hrec. pose proof (coh_analyzing Hc) as Han.
  revert T1 T2 Hnot Hrec Han.
  unfold exec, reset. unfold bind at 1. rewrite cleanupResources_cleaned.
  unfold setStatus, setRecordedData, setAiAnalysis, setError, setRecordingDuration,
    bind, emit, modify. cbn [fst snd].
  intros T1 T2 Hnot Hrec Han.
  destruct (cleaned_slots s) as (_ & _ & _ & _ & K5 & _ & K7 & _).
  constructor; unfold registry; reduce_fields_in_all;
    rewrite ?T1, ?T2, ?K5, ?K7; try congruence; try discriminate.
  - split; [discriminate | congruence].
  - split; [discriminate | intros H; destruct (Hnot H)].
  - exact Hrec.
Qed.

(** What the retry leaves: it may fill the analysis slot and touches no
    other slot. *)
Lemma retryAnalysis_slots env s :
  exists s',
    retryAnalysis env s = (Normal tt, s') /\
    status (cmp s') = status (cmp s) /\
    error (cmp s') = error (cmp s) /\
    recordedData (cmp s') = recordedData (cmp s) /\
    mediaRecorderRef (cmp s') = mediaRecorderRef (cmp s) /\
    timerIntervalRef (cmp s') = timerIntervalRef (cmp s) /\
    activeIntervals (brw s') = activeIntervals (brw s) /\
    videoPreviewRef (cmp s') = videoPreviewRef (cmp s) /\
    registry s' = registry s /\
    (aiAnalysis (cmp s') = aiAnalysis (cmp s) /\
     isAnalyzing (cmp s') = isAnalyzing (cmp s) \/
     isAnalyzing (cmp s') = false /\
     exists img,
       aiAnalysis (cmp s') =
       match envAnalysis env img with
       | Fulfilled r => Some r
       | Rejected _ => None
       end).
Proof.
  unfold retryAnalysis, bind at 1, gets at 1.
  destruct (recordedData (cmp s)) as [md|] eqn:Hd.
  - unfold newMediaStream, bind, freshId, ret.
    match goal with |- context [captureSnapshot env ?st ?s0] =>
      destruct (captureSnapshot_spec env st s0) as (r & b' & -> & Hframe)
    end.
    pose proof (snap_intervals Hframe) as Hint.
    destruct (truthy r) as [img|].
    + rewrite analyzeRecording_exact. eexists. split; [reflexivity|].
      unfold registry. reduce_fields_in_all. rewrite Hint.
      repeat (split; [first [reflexivity | assumption]|]).
      right. split; [reflexivity | exists img; reflexivity].
    + eexists. split; [reflexivity|].
      unfold registry. reduce_fields_in_all. rewrite Hint.
      repeat (split; [first [reflexivity | assumption]|]).
      left. split; reflexivity.
  - exists s. repeat split; try reflexivity; try assumption. left. split; reflexivity.
Qed.

Lemma retryAnalysis_Consistent env s :
  Consistent s -> status (cmp s) = REVIEW -> Consistent (exec (retryAnalysis env) s).
Proof.
  intros Hc Hrev.
  destruct (retryAnalysis_slots env s)
    as (s' & Heq & E1 & E2 & E3 & E4 & E5 & E6 & E7 & E8 & E9).
  unfold exec. rewrite Heq. cbn [snd].
  destruct E9 as [[E9 E10]|[E10 _]].
  - revert Hc. apply Consistent_same; auto.
  - destruct Hc as [C1 C2 C3 C4 C5 C6 C7 C8 C9 C10].
    constructor; rewrite ?E1, ?E2, ?E3, ?E4, ?E5, ?E6, ?E7, ?E8, ?E10;
      try assumption.
    + intros _. exact Hrev.
    + reflexivity.
Qed.

(** Every handler keeps the slots consistent. *)
Lemma handler_Consistent env ev s :
  Coherent s -> Consistent (exec (handler env ev) s).
Proof.
  intros Hcoh. pose proof (proj1 Hcoh) as Hc.
  unfold exec, handler, bind at 1, gets at 1.
  destruct ev.
  - destruct (status (cmp s)) eqn:Hst; cbn [isStatus]; try exact Hc.
    apply startCapture_Consistent; assumption.
  - destruct (status (cmp s)); cbn [isStatus]; try exact Hc.
    apply stopRecording_Consistent, Hc.
  - destruct (status (cmp s)) eqn:Hst; cbn [isStatus]; try exact Hc.
    apply reset_Consistent; assumption.
  - unfold bind, gets. destruct (aiAnalysis (cmp s)); [exact Hc|].
    destruct (status (cmp s)) eqn:Hst; cbn [isStatus andb]; try exact Hc.
    destruct (negb (isAnalyzing (cmp s))); [|exact Hc].
    apply retryAnalysis_Consistent; assumption.
  - unfold bind, gets. destruct (error (cmp s)); [|exact Hc].
    revert Hc. unfold setError, bind, emit, modify. cbn [fst snd].
    apply Consistent_same; auto.
  - destruct (isStatus (status (cmp s)) IDLE); [|exact Hc].
    revert Hc. apply Consistent_same; auto.
  - unfold bind at 1, gets at 1.
    destruct (memTrack t (liveTracks (brw s))); [|exact Hc].
    unfold bind at 1, stopTracks at 1, modify at 1. unfold bind at 1, gets at 1.
    fold (dropTrack t s).
    destruct (memTrack t (onended (brw (dropTrack t s)))).
    + apply stopRecording_Consistent, dropTrack_Consistent, Hc.
    + apply dropTrack_Consistent, Hc.
  - unfold bind, gets. destruct (mediaRecorderRef (cmp s)) as [r|]; [|exact Hc].
    destruct (recState r); try exact Hc.
    unfold ondataavailable. destruct (0 <? blobSize data); [|exact Hc].
    revert Hc. apply Consistent_same; auto.
  - unfold bind, gets. destruct (timerIntervalRef (cmp s)); [|exact Hc].
    destruct (existsb _ _); [|exact Hc].
    revert Hc. apply Consistent_same; auto.
  - revert Hc. apply Consistent_same; auto.
  - rewrite cleanupResources_cleaned. cbn [snd].
    destruct (Consistent_timer s Hc) as [T1 T2].
    destruct Hc as [C1 C2 C3 C4 C5 C6 C7 C8 C9 C10].
    constructor; rewrite ?T1; try assumption; try exact T2.
    intros _ Hreg. exfalso. apply Hreg. reflexivity.
Qed.

Lemma Coherent_handle env ev s : Coherent s -> Coherent (handle env ev s).
Proof.
  intros Hcoh. pose proof (handler_Consistent env ev s Hcoh) as Hc.
  unfold handle. destruct ev; try (apply render_Coherent; exact Hc).
  split; [exact Hc|].
  unfold exec, handler, bind, gets. rewrite cleanupResources_cleaned. cbn [snd].
  destruct Hcoh as [_ Hp].
  destruct (cleaned_slots s) as (K1 & _ & _ & _ & _ & _ & _ & _ & _ & _ & _ & _ & K13).
  rewrite K1, K13. destruct (videoPreviewRef (cmp s)).
  - split; [intros H; apply Hp in H; discriminate | discriminate].
  - split; [reflexivity | intros _; apply Hp; reflexivity].
Qed.

(** The slots are coherent in every state the component reaches. *)
Lemma reachable_Coherent evs : forall s, Coherent s -> Coherent (run evs s).
Proof.
  induction evs as [|[env ev] rest IH]; intros s Hs; [exact Hs|].
  cbn [run]. apply IH, Coherent_handle, Hs.
Qed.

(** ** Reachable states

    [run evs initial] is the state reached by a list of events, each with
    what the browser answers during it, when every handler runs to
    completion, its asynchronous part included, before the next event. *)

Lemma reachable env_events :
  Sound (run env_events initial) /\ Coherent (run env_events initial).
Proof.
  split; [apply reachable_Sound, Sound_initial | apply reachable_Coherent, Coherent_initial].
Qed.

(** The status PAUSED is never reached, and the recorder is never paused:
    in every state the component can reach, the status is IDLE, RECORDING
    or REVIEW, so one of the Start, Stop and New Recording buttons is
    rendered. *)
Theorem status_is_never_paused evs :
  status (cmp (run evs initial)) <> PAUSED /\
  (isStatus (status (cmp (run evs initial))) IDLE
   || isStatus (status (cmp (run evs initial))) RECORDING
   || isStatus (status (cmp (run evs initial))) REVIEW = true) /\
  (forall r, mediaRecorderRef (cmp (run evs initial)) = Some r -> recState r <> Paused).
Proof.
  destruct (reachable evs) as [_ [Hc _]].
  split; [apply Hc|]. split.
  - pose proof (coh_not_paused Hc) as H.
    destruct (status (cmp (run evs initial))); try reflexivity. congruence.
  - intros r Hr. apply (coh_recorder Hc Hr).
Qed.

Lemma run_app evs1 : forall evs2 s, run (evs1 ++ evs2) s = run evs2 (run evs1 s).
Proof.
  induction evs1 as [|[e ev] rest IH]; intros evs2 s; [reflexivity|].
  cbn [run app]. apply IH.
Qed.

Lemma handle_ClickStop_recording env s :
  status (cmp s) = RECORDING ->
  handle env ClickStop s = render (exec (stopRecording env) s).
Proof.
  intros Hst. unfold handle, exec, handler, bind, gets. rewrite Hst. reflexivity.
Qed.

Lemma boundTo_same st : boundTo (Some {| srcObject := Some st |}) st = true.
Proof. unfold boundTo, sameObject. cbn. apply Nat.eqb_refl. Qed.

Lemma cleaned_holds_nothing s :
  Sound s ->
  liveTracks (brw (cleaned s)) = [] /\ openContexts (brw (cleaned s)) = [].
Proof.
  intros Hs. destruct (Sound_cleaned s Hs) as (_ & Hl & Hc & _).
  destruct (cleaned_Released s) as (R1 & R2 & _).
  split.
  - destruct (liveTracks (brw (cleaned s))) as [|t l]; [reflexivity|].
    destruct (Hl t (or_introl eq_refl)) as (st & Hin & _).
    rewrite R1 in Hin. destruct Hin.
  - destruct (openContexts (brw (cleaned s))) as [|c l]; [reflexivity|].
    specialize (Hc c (or_introl eq_refl)). congruence.
Qed.

Lemma stopRecording_normal env s : fst (stopRecording env s) = Normal tt.
Proof.
  destruct (mediaRecorderRef (cmp s)) as [r|] eqn:Hr.
  - destruct (recState r) eqn:Hstate.
    + unfold stopRecording, bind, gets. rewrite Hr, Hstate. reflexivity.
    + assert (Hact : recState r <> Inactive) by congruence.
      destruct (stopRecording_active env s r Hr Hact) as (m & s' & -> & _). reflexivity.
    + assert (Hact : recState r <> Inactive) by congruence.
      destruct (stopRecording_active env s r Hr Hact) as (m & s' & -> & _). reflexivity.
  - unfold stopRecording, bind, gets. rewrite Hr. reflexivity.
Qed.

(** No handler lets an exception escape: whatever the browser answers
    (a refused request, a constructor that throws, a snapshot that cannot
    be taken, an analysis that fails), every event handler of the
    component returns normally, in every state. *)
Theorem no_handler_throws env ev s : fst (handler env ev s) = Normal tt.
Proof.
  unfold handler, bind at 1, gets at 1. destruct ev.
  - destruct (isStatus _ _); [apply startCapture_normal | reflexivity].
  - destruct (isStatus _ _); [apply stopRecording_normal | reflexivity].
  - destruct (isStatus _ _); [|reflexivity].
    unfold reset. unfold bind at 1. rewrite cleanupResources_cleaned. reflexivity.
  - unfold bind, gets. destruct (aiAnalysis (cmp s)); [reflexivity|].
    destruct (_ && _); [|reflexivity].
    destruct (retryAnalysis_slots env s) as (s' & -> & _). reflexivity.
  - unfold bind, gets. destruct (error (cmp s)); reflexivity.
  - destruct (isStatus _ _); reflexivity.
  - unfold bind at 1, gets at 1. destruct (memTrack _ _); [|reflexivity].
    unfold bind at 1, stopTracks at 1, modify at 1. unfold bind at 1, gets at 1.
    destruct (memTrack _ _); [apply stopRecording_normal | reflexivity].
  - unfold bind, gets. destruct (mediaRecorderRef (cmp s)) as [r|]; [|reflexivity].
    destruct (recState r); try reflexivity.
    unfold ondataavailable. destruct (_ <? _); reflexivity.
  - unfold bind, gets. destruct (timerIntervalRef (cmp s)); [|reflexivity].
    destruct (existsb _ _); reflexivity.
  - reflexivity.
  - rewrite cleanupResources_cleaned. reflexivity.
Qed.

(** Stopping is idempotent: once [stopRecording] has run, running it again
    (the Stop button and the [ended] event of the shared track both call
    it) changes nothing, so one session never yields two recordings. *)
Theorem stop_twice_is_stop_once env1 env2 s :
  exec (stopRecording env2) (exec (stopRecording env1) s) =
  exec (stopRecording env1) s.
Proof.
  assert (Hidle : forall s0,
    (forall r, mediaRecorderRef (cmp s0) = Some r -> recState r = Inactive) ->
    exec (stopRecording env2) s0 = s0).
  { intros s0 H. unfold exec, stopRecording, bind, gets.
    destruct (mediaRecorderRef (cmp s0)) as [r|]; [|reflexivity].
    rewrite (H r eq_refl). reflexivity. }
  apply Hidle. intros r0 Hr0.
  destruct (mediaRecorderRef (cmp s)) as [r|] eqn:Hr.
  - destruct (recState r) eqn:Hstate.
    + assert (Hex : exec (stopRecording env1) s = s)
        by (unfold exec, stopRecording, bind, gets; rewrite Hr, Hstate; reflexivity).
      rewrite Hex, Hr in Hr0. injection Hr0 as <-. exact Hstate.
    + assert (Hact : recState r <> Inactive) by congruence.
      destruct (stopRecording_slots env1 s r Hr Hact) as (s' & Heq & _ & _ & _ & B6 & _).
      revert Hr0. unfold exec. rewrite Heq. cbn [snd]. rewrite B6. intros [= <-]. reflexivity.
    + assert (Hact : recState r <> Inactive) by congruence.
      destruct (stopRecording_slots env1 s r Hr Hact) as (s' & Heq & _ & _ & _ & B6 & _).
      revert Hr0. unfold exec. rewrite Heq. cbn [snd]. rewrite B6. intros [= <-]. reflexivity.
  - assert (Hex : exec (stopRecording env1) s = s)
      by (unfold exec, stopRecording, bind, gets; rewrite Hr; reflexivity).
    rewrite Hex, Hr in Hr0. discriminate.
Qed.

(** ** The clock of a recording *)

Lemma Running_handle started passed env ev s :
  keepsRecording ev = true ->
  Running started passed s ->
  Running started (passed + match ev with Elapse ms => ms | _ => 0 end)
    (handle env ev s).
Proof.
  intros Hq (Hst & (r & Hr & Hstate) & Hstart & Hnow & (id & Ht & Hin)).
  assert (Hsame : forall s',
    status (cmp s') = status (cmp s) ->
    mediaRecorderRef (cmp s') = mediaRecorderRef (cmp s) ->
    startTimeRef (cmp s') = startTimeRef (cmp s) ->
    now (brw s') = now (brw s) ->
    timerIntervalRef (cmp s') = timerIntervalRef (cmp s) ->
    activeIntervals (brw s') = activeIntervals (brw s) ->
    Running started (passed + 0) (render s')).
  { intros s' E1 E2 E3 E4 E5 E6. rewrite render_preview, Nat.add_0_r.
    unfold Running. cbn [upd_cmp cmp brw with_videoPreviewRef status mediaRecorderRef
                         startTimeRef timerIntervalRef].
    rewrite E1, E2, E3, E4, E5, E6. eauto 10. }
  unfold handle. destruct ev; try discriminate Hq;
    unfold exec, handler, bind at 1, gets at 1; rewrite ?Hst; cbn [isStatus].
  - apply Hsame; reflexivity.
  - apply Hsame; reflexivity.
  - unfold bind, gets. destruct (aiAnalysis (cmp s)); cbn [andb];
      apply Hsame; reflexivity.
  - unfold bind, gets. destruct (error (cmp s)); apply Hsame; reflexivity.
  - apply Hsame; reflexivity.
  - unfold bind, gets. rewrite Hr, Hstate. unfold ondataavailable.
    destruct (0 <? blobSize data); apply Hsame; reflexivity.
  - unfold bind, gets. rewrite Ht. destruct (existsb _ _); apply Hsame; reflexivity.
  - rewrite render_preview. unfold Running, advance, modify.
    cbn [snd upd_cmp upd_brw cmp brw with_videoPreviewRef with_now status
         mediaRecorderRef startTimeRef timerIntervalRef now activeIntervals].
    repeat split; eauto. lia.
Qed.

Lemma Running_run started evs : forall passed s,
  forallb keepsRecording (map snd evs) = true ->
  Running started passed s ->
  Running started (passed + elapsed evs) (run evs s).
Proof.
  induction evs as [|[env ev] rest IH]; intros passed s Hq Hrun.
  - cbn [run elapsed]. rewrite Nat.add_0_r. exact Hrun.
  - cbn [map snd forallb] in Hq. apply andb_prop in Hq. destruct Hq as [Hev Hrest].
    cbn [run]. pose proof (Running_handle started passed env ev s Hev Hrun) as H1.
    specialize (IH _ _ Hrest H1).
    replace (passed + elapsed ((env, ev) :: rest))
      with (passed + match ev with Elapse ms => ms | _ => 0 end + elapsed rest);
      [exact IH|].
    destruct ev; cbn [elapsed]; lia.
Qed.

(** From a successful start on, the clock decides what is shown and
    stored: after any events that leave the recorder running, a firing of
    the timer sets [recordingDuration] to the whole seconds elapsed since
    the start, and stopping stores the elapsed milliseconds as the
    recording's duration. *)
Theorem timer_and_duration_follow_the_clock before env sh evs last :
  status (cmp (run before initial)) = IDLE ->
  envDisplay env = Fulfilled sh ->
  envNewMediaRecorder env = None ->
  envRecorderStart env = None ->
  forallb keepsRecording (map snd evs) = true ->
  recordingDuration
    (cmp (handle last IntervalFired
            (run evs (handle env ClickStart (run before initial))))) =
    elapsed evs / 1000 /\
  exists md,
    recordedData
      (cmp (handle last ClickStop
              (run evs (handle env ClickStart (run before initial))))) = Some md /\
    duration md = elapsed evs.
Proof.
  intros Hidle Hd Hctor Hstart Hq.
  destruct (reachable before) as [_ [Hc _]].
  assert (Hrun : Running (now (brw (run before initial))) 0
                   (handle env ClickStart (run before initial))).
  { destruct (Consistent_no_timer _ Hc) as [Htimer _]; [congruence|].
    pose proof (start_status (startCapture_starts env sh (run before initial) Hd Hctor Hstart)) as Hrec.
    destruct (startCapture_slots env _ Htimer) as (_ & _ & _ & _ & [Hok|Hfail]).
    - destruct Hok as (B1 & _ & (f & B3 & _) & (n & B5 & B6) & B7 & B8 & _).
      unfold handle, exec at 1, handler, bind at 1, gets at 1. rewrite Hidle. cbn [isStatus].
      fold (exec (startCapture env) (run before initial)).
      rewrite render_preview. unfold Running.
      cbn [upd_cmp cmp brw with_videoPreviewRef status mediaRecorderRef
           startTimeRef timerIntervalRef].
      rewrite B1, B3, B5, B6, B7, B8, Nat.add_0_r.
      repeat split; eauto. exists (S n). split; [reflexivity|].
      apply in_or_app. right. left. reflexivity.
    - destruct Hfail as (B1 & _). congruence. }
  pose proof (Running_run _ evs 0 _ Hq Hrun) as H. cbn [Nat.add] in H.
  set (s2 := run evs (handle env ClickStart (run before initial))) in *.
  destruct H as (Hst & (r & Hr & Hstate) & Hstarted & Hnow & (id & Ht & Hin)).
  split.
  - unfold handle, exec, handler, bind, gets. rewrite Ht.
    assert (Hex : existsb (Nat.eqb id) (activeIntervals (brw s2)) = true).
    { apply existsb_exists. exists id. split; [exact Hin | apply Nat.eqb_refl]. }
    rewrite Hex. rewrite render_preview.
    unfold tick, dateNow, setRecordingDuration. unfold bind, gets, modify.
    cbn [snd upd_cmp cmp with_videoPreviewRef with_recordingDuration recordingDuration].
    rewrite Hnow, Hstarted. f_equal. lia.
  - rewrite (handle_ClickStop_recording last _ Hst).
    assert (Hact : recState r <> Inactive) by congruence.
    destruct (stopRecording_slots last _ r Hr Hact)
      as (s' & Heq & _ & (md & B2 & _ & _ & B5) & _).
    exists md.
    destruct (render_frame (exec (stopRecording last) s2))
      as (_ & _ & _ & _ & -> & _).
    unfold exec. rewrite Heq. cbn [snd]. split; [exact B2|].
    rewrite B5, Hnow, Hstarted. lia.
Qed.

Lemma timer_and_duration_follow_the_clock_witness :
  status (cmp (run [] initial)) = IDLE /\
  forallb keepsRecording (map snd quietStretch) = true /\
  recordingDuration
    (cmp (handle grantingEnv IntervalFired
            (run quietStretch (handle grantingEnv ClickStart (run [] initial))))) = 2.
Proof.
  split; [reflexivity|]. split; [reflexivity|].
  exact (proj1 (timer_and_duration_follow_the_clock [] grantingEnv
                  {| moreVideo := 0; nAudio := 1 |} quietStretch grantingEnv
                  eq_refl eq_refl eq_refl eq_refl eq_refl)).
Defined.

(** ** The analysis, seen from the component *)

(** [analyzeRecording] never throws and never leaves the spinner on.  The
    analysis slot ends up holding the service's answer, or nothing when
    the service fails; a failure is only logged: the error slot, the
    status and the recording are untouched. *)
Theorem analysis_failure_is_silent env base64Image s :
  fst (analyzeRecording env base64Image s) = Normal tt /\
  isAnalyzing (cmp (exec (analyzeRecording env base64Image) s)) = false /\
  aiAnalysis (cmp (exec (analyzeRecording env base64Image) s)) =
    match envAnalysis env base64Image with
    | Fulfilled r => Some r
    | Rejected _ => None
    end /\
  error (cmp (exec (analyzeRecording env base64Image) s)) = error (cmp s) /\
  status (cmp (exec (analyzeRecording env base64Image) s)) = status (cmp s) /\
  recordedData (cmp (exec (analyzeRecording env base64Image) s)) = recordedData (cmp s) /\
  trace (brw (exec (analyzeRecording env base64Image) s)) =
    trace (brw s) ++
    match envAnalysis env base64Image with
    | Fulfilled _ => []
    | Rejected _ => [CallConsoleError "AI Analysis failed"]
    end.
Proof.
  unfold exec. rewrite analyzeRecording_exact. repeat split.
Qed.

Lemma answer_without_key be base64Image :
  GeminiService.keyMissing be ->
  GeminiService.answer be base64Image =
  Rejected {| message := GeminiService.MISSING_KEY |}.
Proof.
  unfold GeminiService.answer, GeminiService.generateVideoAnalysis.
  intros [-> | ->]; reflexivity.
Qed.

(** ** The audio mix *)

(** The stream that comes with a destination node is the node's
    [destinationStream], and the node is the next handle handed out. *)
Lemma createMediaStreamDestination_stream env c s dest st s' :
  createMediaStreamDestination env c s = (Normal (dest, st), s') ->
  st = destinationStream dest /\
  nodeId dest = nextId (brw s) /\
  nodeKind dest = DestinationNode /\
  audioNodes (brw s') = audioNodes (brw s) ++ [dest].
Proof.
  unfold createMediaStreamDestination.
  destruct (envCreateDestination env); [discriminate|].
  unfold bind, freshId, addNode, modify, ret. cbn [fst snd].
  intros [= <- <- <-]. repeat split.
Qed.

(** When the microphone is granted and Web Audio works, the stream handed
    to the recorder carries the display's video tracks and one audio
    track.  That track is the track of the mix destination's stream: it
    is made by the mix, and it is not one of the microphone's tracks.
    One audio context is opened and kept in [audioCtxRef]; the microphone
    is connected to the destination, and the display's audio is connected
    exactly when the display stream has an audio track. *)
Theorem mixed_stream env display s na :
  envMicrophone env = Fulfilled na ->
  webAudioWorks env ->
  exists f s' c dest micSource,
    mixAudio env display s = (Normal f, s') /\
    videoTracks f = videoTracks display /\
    List.length (audioTracks f) = 1 /\
    audioCtxRef (cmp s') = Some c /\
    openContexts (brw s') = openContexts (brw s) ++ [c] /\
    creations s' = creations s ++ [c] /\
    registry s' = registry s ++ [StopTracks (micStreamAt na s)] /\
    match audioTracks display with
    | [] =>
        audioNodes (brw s') = audioNodes (brw s) ++ [dest; micSource] /\
        connections (brw s') =
          connections (brw s) ++ [(nodeId micSource, nodeId dest)]
    | _ :: _ =>
        exists sysSource,
          audioNodes (brw s') = audioNodes (brw s) ++ [dest; sysSource; micSource] /\
          connections (brw s') =
            connections (brw s) ++
            [(nodeId sysSource, nodeId dest); (nodeId micSource, nodeId dest)] /\
          nodeKind sysSource = SourceNode display /\ nodeContext sysSource = c
    end /\
    nodeKind dest = DestinationNode /\ nodeContext dest = c /\
    nodeKind micSource = SourceNode (micStreamAt na s) /\ nodeContext micSource = c /\
    audioTracks f = audioTracks (destinationStream dest) /\
    (forall t, In t (audioTracks f) ->
               nextId (brw s) <= t /\ ~ In t (getTracks (micStreamAt na s))).
Proof.
  intros Hmic (Hctx & Hdest & Hsrc). unfold mixAudio, creations, registry, micStreamAt.
  split_state s. js. rewrite Hmic. js. rewrite Hctx. js. rewrite Hdest. js.
  destruct display as [did dvideo daudio]. cbn [audioTracks videoTracks].
  destruct daudio as [|a rest]; cbn [List.length Nat.ltb Nat.leb]; js;
    rewrite ?Hsrc; js; rewrite ?Hsrc; js; rewrite ?Nat.add_0_r.
  - do 5 eexists. split; [reflexivity|].
    cbn [videoTracks audioTracks List.length].
    trace_calls. rewrite <- ?app_assoc. cbn [app].
    repeat (split; [reflexivity|]).
    split; [split; reflexivity|].
    do 5 (split; [reflexivity|]).
    cbn [getTracks videoTracks audioTracks app].
    intros t [<-|[]]. split; [lia|]. rewrite in_seq. lia.
  - do 5 eexists. split; [reflexivity|].
    cbn [videoTracks audioTracks List.length].
    trace_calls. rewrite <- ?app_assoc. cbn [app].
    repeat (split; [reflexivity|]).
    split; [eexists; split; [reflexivity|]; repeat split|].
    do 5 (split; [reflexivity|]).
    cbn [getTracks videoTracks audioTracks app].
    intros t [<-|[]]. split; [lia|]. rewrite in_seq. lia.
Qed.

Lemma webAudioWorks_granting : webAudioWorks grantingEnv.
Proof. repeat split. Qed.

Lemma mixed_stream_witness :
  envMicrophone grantingEnv = Fulfilled 1 /\
  webAudioWorks grantingEnv /\
  exists f s' dest,
    mixAudio grantingEnv sampleDisplay initial = (Normal f, s') /\
    videoTracks f = videoTracks sampleDisplay /\
    In dest (audioNodes (brw s')) /\
    audioTracks f = audioTracks (destinationStream dest).
Proof.
  split; [reflexivity|]. split; [exact webAudioWorks_granting|].
  destruct (mixed_stream grantingEnv sampleDisplay initial 1 eq_refl webAudioWorks_granting)
    as (f & s' & c & dest & micSource & H1 & H2 & _ & _ & _ & _ & _ & H8 & _ & _ & _ & _
        & H13 & _).
  exists f, s', dest. split; [exact H1|]. split; [exact H2|]. split; [|exact H13].
  cbn [sampleDisplay audioTracks] in H8. destruct H8 as (sys & -> & _).
  apply in_or_app. right. left. reflexivity.
Defined.

(** When the microphone is granted but the mix cannot be built (the audio
    context, the destination or a source node fails), the recording goes
    on with the display stream itself and only a warning is logged: no
    error is shown.  The microphone stream stays acquired all the same:
    its tracks are live and its stopper is on the cleanup list, so the
    microphone is held until the session is released. *)
Theorem mix_failure_keeps_the_microphone env display s na :
  envMicrophone env = Fulfilled na ->
  mixFails env display (micStreamAt na s) ->
  exists s',
    mixAudio env display s = (Normal display, s') /\
    registry s' = registry s ++ [StopTracks (micStreamAt na s)] /\
    (forall t, In t (audioTracks (micStreamAt na s)) -> In t (liveTracks (brw s'))) /\
    error (cmp s') = error (cmp s) /\
    status (cmp s') = status (cmp s) /\
    (exists before,
       trace (brw s') =
       before ++ [CallConsoleWarn "Microphone access denied or unavailable:"]).
Proof.
  intros Hmic Hfail. revert Hfail. unfold mixAudio, mixFails, registry, micStreamAt.
  split_state s. js. rewrite Hmic. js. rewrite ?Nat.add_0_r.
  intros Hfail.
  assert (Hlive : forall (l : list TrackId) t a, In t (seq a na) -> In t (l ++ [] ++ seq a na)).
  { intros l t a H. apply in_or_app. right. exact H. }
  destruct (envNewAudioContext env) as [e1|] eqn:Hctx; js.
  { eexists. split; [reflexivity|]. repeat split; eauto. }
  destruct (envCreateDestination env) as [e2|] eqn:Hdest; js.
  { eexists. split; [reflexivity|]. repeat split; eauto. }
  destruct display as [did dvideo daudio]. cbn [audioTracks videoTracks] in *.
  destruct daudio as [|a rest]; cbn [List.length Nat.ltb Nat.leb]; js.
  - match goal with |- context [envCreateSource env ?m] =>
      destruct (envCreateSource env m) as [e4|] eqn:Hmicsrc
    end; js.
    { eexists. split; [reflexivity|]. repeat split; eauto. }
    exfalso. destruct Hfail as [(e & H)|[(e & H)|[(Hne & _)|(e & H)]]];
      try discriminate; try congruence.
    discriminate (eq_trans (eq_sym H) Hmicsrc).
  - match goal with |- context [envCreateSource env ?d] =>
      destruct (envCreateSource env d) as [e3|] eqn:Hsys
    end; js.
    { eexists. split; [reflexivity|]. repeat split; eauto. }
    match goal with |- context [envCreateSource env ?m] =>
      destruct (envCreateSource env m) as [e4|] eqn:Hmicsrc
    end; js.
    { eexists. split; [reflexivity|]. repeat split; eauto. }
    exfalso. destruct Hfail as [(e & H)|[(e & H)|[(_ & e & H)|(e & H)]]];
      try discriminate; try congruence.
    discriminate (eq_trans (eq_sym H) Hmicsrc).
Qed.

Lemma mix_failure_keeps_the_microphone_witness :
  envMicrophone noAudioContextEnv = Fulfilled 1 /\
  mixFails noAudioContextEnv sampleDisplay (micStreamAt 1 initial) /\
  exists s',
    mixAudio noAudioContextEnv sampleDisplay initial = (Normal sampleDisplay, s') /\
    registry s' = registry initial ++ [StopTracks (micStreamAt 1 initial)].
Proof.
  assert (H : mixFails noAudioContextEnv sampleDisplay (micStreamAt 1 initial))
    by (left; eexists; reflexivity).
  split; [reflexivity|]. split; [exact H|].
  destruct (mix_failure_keeps_the_microphone noAudioContextEnv sampleDisplay initial 1
              eq_refl H) as (s' & H1 & H2 & _).
  exists s'. split; assumption.
Defined.

(** ** Snapshots *)

Lemma split_payload header payload :
  noComma header = true -> noComma payload = true ->
  nth_error (split "," (String.append header (String "," payload))) 1 = Some payload.
Proof.
  intros Hh Hp. unfold noComma in *.
  rewrite split_at by exact Hh. rewrite split_whole by exact Hp. reflexivity.
Qed.

(** When the snapshot can be taken, [captureSnapshot] returns the data
    URL without its header: for a data URL made of a header, a comma and a
    payload it returns exactly the payload, the base64 text the analysis
    service is given. *)
Theorem snapshot_is_the_payload env stream s header payload :
  snapshotWorks env stream s ->
  envToDataURL env = Fulfilled (String.append header (String "," payload)) ->
  noComma header = true ->
  noComma payload = true ->
  fst (captureSnapshot env stream s) = Normal (Some payload).
Proof.
  intros (Hsurface & Hctx & Hdraw) Hurl Hh Hp.
  revert Hsurface. unfold captureSnapshot. split_state s. js. intros Hsurface.
  destruct (boundTo _ stream) eqn:Hb; js.
  - rewrite Hctx. cbn [negb]. js. rewrite Hdraw. js. rewrite Hurl. js.
    rewrite split_payload by assumption. reflexivity.
  - destruct Hsurface as [Hx|(ms & Hready & Hms)]; [discriminate|].
    rewrite Hready. apply Nat.ltb_lt in Hms. js. rewrite Hms. js.
    rewrite Hctx. cbn [negb]. js. rewrite Hdraw. js. rewrite Hurl. js.
    rewrite split_payload by assumption. reflexivity.
Qed.

Lemma snapshot_is_the_payload_witness :
  snapshotWorks grantingEnv sampleDisplay (previewing sampleDisplay) /\
  envToDataURL grantingEnv =
    Fulfilled (String.append "data:image/png;base64" (String "," "iVBORw0KGgo=")) /\
  noComma "data:image/png;base64" = true /\
  noComma "iVBORw0KGgo=" = true /\
  fst (captureSnapshot grantingEnv sampleDisplay (previewing sampleDisplay)) =
    Normal (Some "iVBORw0KGgo=").
Proof.
  assert (H : snapshotWorks grantingEnv sampleDisplay (previewing sampleDisplay))
    by (split; [left; reflexivity | split; reflexivity]).
  split; [exact H|]. split; [reflexivity|]. split; [reflexivity|]. split; [reflexivity|].
  exact (snapshot_is_the_payload grantingEnv sampleDisplay (previewing sampleDisplay)
           "data:image/png;base64" "iVBORw0KGgo=" H eq_refl eq_refl eq_refl).
Defined.

(** ** The canvas of a snapshot *)

(** [captureSnapshot] never draws on an empty canvas: when it draws, the
    canvas has the size of the video, and 1920 or 1080 in place of a
    dimension the video reports as zero. *)
Theorem snapshot_canvas_is_never_empty env stream s w h :
  In (CallDrawImage w h) (since s (exec (captureSnapshot env stream) s)) ->
  w = orDefault (fst (envVideoSize env)) 1920 /\
  h = orDefault (snd (envVideoSize env)) 1080 /\
  0 < w /\ 0 < h.
Proof.
  assert (Hpos : forall x d, 0 < d -> 0 < orDefault x d)
    by (intros [|x] d Hd; cbn; lia).
  unfold since, captureSnapshot. split_state s. js.
  repeat (split_snapshot; js; cbn [negb]).
  all: rewrite <- ?app_assoc, ?skipn_length_app, ?skipn_all; cbn [app In].
  all: intros H; repeat (destruct H as [H|H]); try discriminate; try contradiction.
  all: injection H as <- <-; repeat split; apply Hpos; lia.
Qed.

Lemma snapshot_canvas_is_never_empty_witness :
  In (CallDrawImage 1280 720)
     (since (previewing sampleDisplay)
        (exec (captureSnapshot grantingEnv sampleDisplay) (previewing sampleDisplay))) /\
  0 < 1280 /\ 0 < 720.
Proof.
  assert (H : In (CallDrawImage 1280 720)
                 (since (previewing sampleDisplay)
                    (exec (captureSnapshot grantingEnv sampleDisplay)
                       (previewing sampleDisplay))))
    by (vm_compute; left; reflexivity).
  split; [exact H|].
  exact (proj2 (proj2 (snapshot_canvas_is_never_empty grantingEnv sampleDisplay
                         (previewing sampleDisplay) 1280 720 H))).
Defined.

(** ** Encoder failures *)

Lemma startRecording_error env f s e :
  encoderThrows env e ->
  error (cmp (exec (startRecording env f) s)) =
  Some (String.append "Failed to create MediaRecorder: " (message e)).
Proof.
  intros Henc. unfold startRecording. split_state s. js.
  destruct Henc as [Hctor|[Hctor Hstart]]; rewrite Hctor; js.
  - rewrite cleanupResources_cleaned. reflexivity.
  - rewrite Hstart. js. rewrite cleanupResources_cleaned. reflexivity.
Qed.

(** When the display is granted but the recorder cannot be constructed or
    started, the start ends idle and shows the recorder's message behind
    the fixed prefix "Failed to create MediaRecorder: ", also when it was
    the start that failed; the message does not go through the
    permission heuristics of a rejected display request. *)
Theorem encoder_failure_message env sh s e :
  status (cmp s) = IDLE ->
  envDisplay env = Fulfilled sh ->
  encoderThrows env e ->
  error (cmp (handle env ClickStart s)) =
    Some (String.append "Failed to create MediaRecorder: " (message e)) /\
  status (cmp (handle env ClickStart s)) = IDLE.
Proof.
  intros Hidle Hd Henc. rewrite (handle_ClickStart env s Hidle).
  destruct (render_frame (exec (startCapture env) s)) as (_ & _ & _ & -> & _ & -> & _).
  destruct (acquire_granted env sh (atTry s) Hd) as (f & s1 & Heq & Hacq).
  assert (Hexec : exec (startCapture env) s = exec (startRecording env f) s1).
  { unfold exec at 1. rewrite startCapture_try. unfold try_catch, bind. rewrite Heq.
    pose proof (startRecording_total env f s1) as Ht. unfold exec.
    destruct (startRecording env f s1) as [r s2]. cbn [fst] in Ht. subst r. reflexivity. }
  rewrite Hexec. split; [apply startRecording_error, Henc|].
  assert (Hfail : (exists e, envNewMediaRecorder env = Some e) \/
                  (exists e, envRecorderStart env = Some e))
    by (destruct Henc as [H|[_ H]]; eauto).
  destruct (startRecording_fails env f s1 Hfail) as (s2 & Heq2 & _ & _ & Hsame).
  unfold exec. rewrite Heq2. cbn [snd].
  destruct (cleaned_slots s2) as (-> & _).
  rewrite (same_status Hsame), (acq_status Hacq). exact Hidle.
Qed.

Lemma encoder_failure_message_witness :
  status (cmp initial) = IDLE /\
  envDisplay noStartEnv = Fulfilled {| moreVideo := 0; nAudio := 1 |} /\
  encoderThrows noStartEnv startRefused /\
  error (cmp (handle noStartEnv ClickStart initial)) =
    Some "Failed to create MediaRecorder: There was an error starting the MediaRecorder.".
Proof.
  assert (H : encoderThrows noStartEnv startRefused) by (right; split; reflexivity).
  split; [reflexivity|]. split; [reflexivity|]. split; [exact H|].
  exact (proj1 (encoder_failure_message noStartEnv {| moreVideo := 0; nAudio := 1 |}
                  initial startRefused eq_refl eq_refl H)).
Defined.

(** ** Retrying the analysis *)

(** Without the preview, [captureSnapshot] makes one temporary element
    for the stream; afterwards the element is there as created, or torn
    down. *)
Lemma captureSnapshot_unbound env stream s :
  boundTo (videoPreviewRef (cmp s)) stream = false ->
  let created :=
    tempVideos (brw s) ++
    [{| tempId := nextId (brw s); tempSrcObject := Some stream; tempRemoved := false |}] in
  tempVideos (brw (exec (captureSnapshot env stream) s)) = created \/
  tempVideos (brw (exec (captureSnapshot env stream) s)) =
    map (fun v =>
           if tempId v =? nextId (brw s)
           then {| tempId := nextId (brw s); tempSrcObject := None; tempRemoved := true |}
           else v) created.
Proof.
  intros Hb. cbv zeta. revert Hb. split_state s. unfold captureSnapshot. js.
  intros ->. js.
  repeat (split_snapshot; js; cbn [negb]); auto.
Qed.

(** In REVIEW the preview is unmounted, so "Retry Analysis" never reads
    the recorded picture: every retry makes one new temporary video
    element, for a new stream that has no track, and whenever that element
    is not torn down it is left bound to the empty stream. *)
Theorem retry_always_builds_a_temporary_element evs env :
  status (cmp (run evs initial)) = REVIEW ->
  aiAnalysis (cmp (run evs initial)) = None ->
  List.length (tempVideos (brw (handle env ClickRetryAnalysis (run evs initial)))) =
    S (List.length (tempVideos (brw (run evs initial)))) /\
  exists v,
    nth_error (tempVideos (brw (handle env ClickRetryAnalysis (run evs initial))))
              (List.length (tempVideos (brw (run evs initial)))) = Some v /\
    tempId v = S (nextId (brw (run evs initial))) /\
    (tempRemoved v = false ->
     tempSrcObject v = Some (emptyStreamAt (run evs initial))).
Proof.
  intros Hrev Hai. destruct (reachable evs) as [_ [Hc Hp]].
  pose proof (coh_analyzing Hc) as Han.
  pose proof (proj1 Hp Hrev) as Hprev.
  assert (Hdata : exists md, recordedData (cmp (run evs initial)) = Some md).
  { destruct (recordedData (cmp (run evs initial))) eqn:E; [eauto|].
    exfalso. apply (proj1 (coh_review Hc) Hrev). exact E. }
  destruct Hdata as (md & Hdata).
  unfold emptyStreamAt. revert Hrev Hai Han Hprev Hdata.
  generalize (run evs initial). intros s Hrev Hai Han Hprev Hdata.
  assert (Hh : brw (handle env ClickRetryAnalysis s) =
               brw (exec (retryAnalysis env) s)).
  { unfold handle. destruct (render_frame (exec (handler env ClickRetryAnalysis) s))
      as (_ & _ & _ & _ & _ & _ & _ & ->).
    unfold exec, handler, bind, gets. rewrite Hai, Hrev, Han. reflexivity. }
  rewrite Hh. clear Hh.
  set (s1 := upd_brw (fun b => with_nextId (S (nextId b)) b) s).
  set (empty := {| streamId := nextId (brw s); videoTracks := []; audioTracks := [] |}).
  assert (Hretry : tempVideos (brw (exec (retryAnalysis env) s)) =
                   tempVideos (brw (exec (captureSnapshot env empty) s1))).
  { unfold exec, retryAnalysis, bind at 1, gets at 1. rewrite Hdata.
    unfold newMediaStream, bind, freshId, ret. fold s1. fold empty.
    destruct (captureSnapshot_spec env empty s1) as (r & b' & -> & _).
    destruct (truthy r) as [img|]; [|reflexivity].
    rewrite analyzeRecording_exact. reflexivity. }
  rewrite Hretry.
  assert (Hb : boundTo (videoPreviewRef (cmp s1)) empty = false).
  { change (videoPreviewRef (cmp s1)) with (videoPreviewRef (cmp s)).
    rewrite Hprev. reflexivity. }
  pose proof (captureSnapshot_unbound env empty s1 Hb) as Hsnap. cbv zeta in Hsnap.
  change (tempVideos (brw s1)) with (tempVideos (brw s)) in Hsnap.
  change (nextId (brw s1)) with (S (nextId (brw s))) in Hsnap.
  destruct Hsnap as [-> | ->].
  - rewrite length_app. cbn [List.length]. split; [lia|].
    eexists. split.
    + rewrite nth_error_app2 by lia. rewrite Nat.sub_diag. reflexivity.
    + split; [reflexivity | intros _; reflexivity].
  - rewrite length_map, length_app. cbn [List.length]. split; [lia|].
    eexists. split.
    + rewrite map_app. rewrite nth_error_app2 by (rewrite length_map; lia).
      rewrite length_map, Nat.sub_diag. cbn [map nth_error tempId].
      rewrite Nat.eqb_refl. reflexivity.
    + split; [reflexivity | intros H; discriminate H].
Qed.

Lemma retry_always_builds_a_temporary_element_witness :
  status (cmp (run keylessSession initial)) = REVIEW /\
  aiAnalysis (cmp (run keylessSession initial)) = None /\
  List.length
    (tempVideos (brw (handle grantingEnv ClickRetryAnalysis (run keylessSession initial)))) = 1.
Proof.
  assert (H1 : status (cmp (run keylessSession initial)) = REVIEW)
    by (vm_compute; reflexivity).
  assert (H2 : aiAnalysis (cmp (run keylessSession initial)) = None)
    by (vm_compute; reflexivity).
  split; [exact H1|]. split; [exact H2|].
  exact (proj1 (retry_always_builds_a_temporary_element keylessSession grantingEnv H1 H2)).
Defined.
(** * Cutting the waiting handlers *)

Lemma mixAudio_cut env d s :
  mixAudio env d s =
  try_catch
    (micStream <- settleMicrophone env ;; mixAudio_rest env d micStream)
    (fun micErr =>
       emit (CallConsoleWarn "Microphone access denied or unavailable:") ;;
       ret d)
    (exec (emit CallGetUserMedia) s).
Proof. reflexivity. Qed.

(** Running straight-line code without opening the state. *)
Ltac mrun :=
  repeat (progress (
    unfold bind, try_catch, gets, modify, ret, throw, emit, exec,
      setError, setStatus, setIsAnalyzing, setAiAnalysis, setRecordedData,
      pushCleanup, getDisplayMedia, grantStream, freshId, reserveIds,
      settleDisplay, dateNow, createObjectURL, advance;
    cbv beta iota zeta; cbn [fst snd])).

(** Case analysis on the call the goal is stuck on. *)
Ltac stuck :=
  match goal with
  | |- context [match videoPreviewRef ?c with _ => _ end] =>
      destruct (videoPreviewRef c)
  | |- context [match videoTracks ?f with _ => _ end] =>
      destruct (videoTracks f)
  | |- context [match ?x with pair _ _ => _ end] =>
      lazymatch x with
      | context [match _ with pair _ _ => _ end] => fail
      | context [match _ with Some _ => _ | None => _ end] => fail
      | context [match _ with nil => _ | cons _ _ => _ end] => fail
      | _ => destruct x as [[?|?] ?]
      end
  end.

Lemma startCapture_waits envD envM s sh :
  envDisplay envD = Fulfilled sh -> audioEnabled (cmp s) = true ->
  exists d s2,
    startCapture_afterDisplay envD true (snd (startCapture_begin s)) =
      (Normal (Some (AwaitMicrophone d)), s2) /\
    exec (startCapture (withDisplay (envDisplay envD) envM)) s =
      exec (startCapture_afterMicrophone envM d) s2.
Proof.
  intros Hd Ha.
  unfold startCapture_afterDisplay, startCapture_begin. mrun. rewrite Hd. mrun.
  do 2 eexists. split; [reflexivity|].
  unfold startCapture, acquire. mrun. cbn [envDisplay withDisplay]. mrun.
  reduce_fields_in_all. rewrite Ha.
  change (mixAudio (withDisplay (Fulfilled sh) envM)) with (mixAudio envM).
  change (startRecording (withDisplay (Fulfilled sh) envM)) with (startRecording envM).
  rewrite mixAudio_cut.
  unfold startCapture_afterMicrophone, startCapture_finish, startCapture_catch. mrun.
  repeat (stuck; mrun); reflexivity.
Qed.

Lemma startCapture_through env s :
  audioEnabled (cmp s) = false \/ (exists e, envDisplay env = Rejected e) ->
  exists s2,
    startCapture_afterDisplay env (audioEnabled (cmp s)) (snd (startCapture_begin s)) =
      (Normal None, s2) /\
    exec (startCapture env) s = s2.
Proof.
  intros H.
  unfold startCapture_afterDisplay, startCapture_begin, startCapture, acquire,
    startCapture_finish, startCapture_catch.
  destruct (envDisplay env) as [sh|e] eqn:Hd.
  - destruct H as [Ha|[e He]]; [|discriminate]. rewrite Ha. mrun. rewrite Hd. mrun.
    reduce_fields_in_all. rewrite Ha. cbn [seq videoTracks]. mrun. reduce_fields_in_all.
    destruct (videoPreviewRef (cmp s)); mrun.
    all: match goal with |- context [startRecording ?e ?f ?s0] =>
           pose proof (startRecording_total e f s0) as Ht;
           destruct (startRecording e f s0) as [[[]|] ?]; [|discriminate Ht]
         end.
    all: mrun; eexists; split; reflexivity.
  - mrun. rewrite Hd. mrun. rewrite cleanupResources_cleaned. mrun.
    eexists; split; reflexivity.
Qed.

Lemma analyzeRecording_cut env img s :
  analyzeRecording env img s =
  analyzeRecording_settle env img (snd (analyzeRecording_begin img s)).
Proof. reflexivity. Qed.

Lemma startAnalysis_cut env snapshot s :
  exists r s1,
    startAnalysis snapshot s = (Normal r, s1) /\ parksAnalysis r /\
    match truthy snapshot with
    | Some img => analyzeRecording env img
    | None => ret tt
    end s = rest_of env r s1.
Proof.
  unfold startAnalysis. destruct (truthy snapshot) as [img|].
  - do 2 eexists. split; [reflexivity|]. split; [right; eexists; reflexivity|].
    reflexivity.
  - do 2 eexists. split; [reflexivity|]. split; [left; reflexivity|]. reflexivity.
Qed.

Lemma onstop_cut_spec env f stream mime s :
  exists r s1,
    onstop_cut env stream mime s = (Normal r, s1) /\ parksAnalysis r /\
    onstop (withAnalysis f env) stream mime s = rest_of (withAnalysis f env) r s1.
Proof.
  unfold onstop_cut, onstop.
  change (captureSnapshot (withAnalysis f env)) with (captureSnapshot env).
  mrun.
  match goal with |- context [captureSnapshot env stream ?s0] =>
    destruct (captureSnapshot_spec env stream s0) as (snapshot & b' & -> & _)
  end.
  mrun. rewrite cleanupResources_cleaned. mrun.
  match goal with |- context [startAnalysis snapshot ?s0] =>
    destruct (startAnalysis_cut (withAnalysis f env) snapshot s0) as (r & s1 & E1 & Hr & E2);
    rewrite E1
  end.
  exists r, s1. split; [reflexivity|]. split; [exact Hr|]. rewrite <- E2. reflexivity.
Qed.

Lemma stopRecording_cut_spec env f s :
  exists r s1,
    stopRecording_cut env s = (Normal r, s1) /\ parksAnalysis r /\
    stopRecording (withAnalysis f env) s = rest_of (withAnalysis f env) r s1.
Proof.
  unfold stopRecording_cut, stopRecording, recorderStop_cut, recorderStop. mrun.
  destruct (mediaRecorderRef (cmp s)) as [rec|].
  2: { do 2 eexists. split; [reflexivity|]. split; [left|]; reflexivity. }
  assert (Hgo : forall s0,
    exists r s1,
      onstop_cut env (recStream rec) (recMimeType rec) s0 = (Normal r, s1) /\
      parksAnalysis r /\
      onstop (withAnalysis f env) (recStream rec) (recMimeType rec) s0 =
        rest_of (withAnalysis f env) r s1)
    by (intros s0; apply onstop_cut_spec).
  change (envFinalData (withAnalysis f env)) with (envFinalData env).
  destruct (recState rec).
  - do 2 eexists. split; [reflexivity|]. split; [left|]; reflexivity.
  - unfold ondataavailable. destruct (0 <? blobSize (envFinalData env)); mrun; apply Hgo.
  - unfold ondataavailable. destruct (0 <? blobSize (envFinalData env)); mrun; apply Hgo.
Qed.

Lemma retryAnalysis_cut_spec env f s :
  exists r s1,
    retryAnalysis_cut env s = (Normal r, s1) /\ parksAnalysis r /\
    retryAnalysis (withAnalysis f env) s = rest_of (withAnalysis f env) r s1.
Proof.
  unfold retryAnalysis_cut, retryAnalysis. mrun.
  change (captureSnapshot (withAnalysis f env)) with (captureSnapshot env).
  destruct (recordedData (cmp s)).
  2: { do 2 eexists. split; [reflexivity|]. split; [left|]; reflexivity. }
  unfold newMediaStream. mrun.
  match goal with |- context [captureSnapshot env ?st ?s0] =>
    destruct (captureSnapshot_spec env st s0) as (snapshot & b' & -> & _)
  end.
  mrun.
  match goal with |- context [startAnalysis snapshot ?s0] =>
    destruct (startAnalysis_cut (withAnalysis f env) snapshot s0) as (r & s1 & E1 & Hr & E2);
    rewrite E1
  end.
  exists r, s1. split; [reflexivity|]. split; [exact Hr|]. rewrite <- E2. reflexivity.
Qed.

(** An event of the cut component against the same event handled in one
    step: either it parks the first task of a start, or what it leaves
    undone is the settling of an analysis. *)
Lemma fires_spec env f ev s :
  exists r s1,
    fires env ev s = (Normal r, s1) /\
    match r with
    | Some (AwaitDisplay a) =>
        ev = ClickStart /\ status (cmp s) = IDLE /\ a = audioEnabled (cmp s) /\
        s1 = snd (startCapture_begin s)
    | Some (AwaitMicrophone _) => False
    | _ => handler (withAnalysis f env) ev s = rest_of (withAnalysis f env) r s1
    end.
Proof.
  assert (Hpark : forall (m : M (option Task)) (h : M unit) s0,
    (exists r s1, m s0 = (Normal r, s1) /\ parksAnalysis r /\
                  h s0 = rest_of (withAnalysis f env) r s1) ->
    exists r s1, m s0 = (Normal r, s1) /\
      match r with
      | Some (AwaitDisplay a) =>
          ev = ClickStart /\ status (cmp s) = IDLE /\ a = audioEnabled (cmp s) /\
          s1 = snd (startCapture_begin s)
      | Some (AwaitMicrophone _) => False
      | _ => h s0 = rest_of (withAnalysis f env) r s1
      end).
  { intros m h s0 (r & s1 & E & [->|[img ->]] & E2); eexists; exists s1;
      (split; [exact E|]); exact E2. }
  unfold fires, handler. destruct ev; mrun.
  - destruct (status (cmp s)) eqn:Hst; cbn [isStatus]; mrun;
      do 2 eexists; (split; [reflexivity|]); try reflexivity.
    repeat split.
  - destruct (status (cmp s)); cbn [isStatus]; mrun;
      try (do 2 eexists; (split; [reflexivity|]); reflexivity).
    apply Hpark, stopRecording_cut_spec.
  - destruct (status (cmp s)); cbn [isStatus]; mrun;
      try (do 2 eexists; (split; [reflexivity|]); reflexivity).
    unfold reset. mrun. rewrite cleanupResources_cleaned. mrun.
    do 2 eexists. split; reflexivity.
  - destruct (aiAnalysis (cmp s));
      [do 2 eexists; (split; [reflexivity|]); reflexivity|].
    destruct (isStatus (status (cmp s)) REVIEW && negb (isAnalyzing (cmp s)));
      [|do 2 eexists; (split; [reflexivity|]); reflexivity].
    apply Hpark, retryAnalysis_cut_spec.
  - destruct (error (cmp s)); mrun; do 2 eexists; split; reflexivity.
  - destruct (isStatus (status (cmp s)) IDLE); unfold setAudioEnabled; mrun;
      do 2 eexists; split; reflexivity.
  - destruct (memTrack t (liveTracks (brw s)));
      [|do 2 eexists; (split; [reflexivity|]); reflexivity].
    unfold stopTracks. mrun.
    match goal with |- context [if ?c then _ else _] => destruct c end;
      [|do 2 eexists; (split; [reflexivity|]); reflexivity].
    apply Hpark, stopRecording_cut_spec.
  - destruct (mediaRecorderRef (cmp s)) as [rec|];
      [|do 2 eexists; (split; [reflexivity|]); reflexivity].
    unfold ondataavailable.
    destruct (recState rec); try destruct (0 <? blobSize data); mrun;
      do 2 eexists; split; reflexivity.
  - destruct (timerIntervalRef (cmp s)) as [id|];
      [|do 2 eexists; (split; [reflexivity|]); reflexivity].
    destruct (existsb (Nat.eqb id) (activeIntervals (brw s))); unfold tick, setRecordingDuration;
      mrun; do 2 eexists; split; reflexivity.
  - do 2 eexists; split; reflexivity.
  - rewrite cleanupResources_cleaned. mrun. do 2 eexists; split; reflexivity.
Qed.
(** * Runs in which nothing overlaps *)

Lemma Reached_initial : Reached initial.
Proof. exists []. reflexivity. Qed.

Lemma Reached_handle env ev s : Reached s -> Reached (handle env ev s).
Proof.
  intros [evs ->]. exists (evs ++ [(env, ev)]). rewrite run_app. reflexivity.
Qed.

Lemma Reached_Coherent s : Reached s -> Coherent s.
Proof. intros [evs ->]. apply reachable_Coherent, Coherent_initial. Qed.

Lemma Reached_Sound s : Reached s -> Sound s.
Proof. intros [evs ->]. apply reachable_Sound, Sound_initial. Qed.

Lemma render_mounted s v :
  videoPreviewRef (cmp s) = Some v -> status (cmp s) <> REVIEW -> render s = s.
Proof.
  split_named s. unfold render. cbn [cmp status recordedData videoPreviewRef].
  intros -> Hst. destruct st; try reflexivity. congruence.
Qed.

Lemma Reached_mounted s :
  Reached s -> status (cmp s) = IDLE -> exists v, videoPreviewRef (cmp s) = Some v.
Proof.
  intros Hr Hst. destruct (Reached_Coherent s Hr) as [_ Hp].
  destruct (videoPreviewRef (cmp s)) as [v|]; [eauto|].
  assert (status (cmp s) = REVIEW) by (apply Hp; reflexivity). congruence.
Qed.

Lemma render_idem s : render (render s) = render s.
Proof.
  split_named s. unfold render. cbn [cmp status recordedData videoPreviewRef].
  destruct st, data, preview; reflexivity.
Qed.

Lemma begin_exact s :
  startCapture_begin s =
  (Normal (AwaitDisplay (audioEnabled (cmp s))), snd (startCapture_begin s)).
Proof. reflexivity. Qed.

Lemma begin_slots s :
  status (cmp (snd (startCapture_begin s))) = status (cmp s) /\
  videoPreviewRef (cmp (snd (startCapture_begin s))) = videoPreviewRef (cmp s).
Proof. split; reflexivity. Qed.

Lemma begin_advance ms s :
  snd (startCapture_begin (exec (advance ms) s)) =
  exec (advance ms) (snd (startCapture_begin s)).
Proof. reflexivity. Qed.

Lemma afterDisplay_parks env sh s :
  envDisplay env = Fulfilled sh ->
  startCapture_afterDisplay env true (snd (startCapture_begin s)) =
  (Normal (Some (AwaitMicrophone (displayStreamAt sh s))), awaitingMicrophone sh s).
Proof.
  intros Hd. unfold awaitingMicrophone, startCapture_afterDisplay, settleDisplay.
  rewrite Hd. reflexivity.
Qed.

Lemma awaiting_slots sh s :
  status (cmp (awaitingMicrophone sh s)) = status (cmp s) /\
  videoPreviewRef (cmp (awaitingMicrophone sh s)) = videoPreviewRef (cmp s).
Proof. split; reflexivity. Qed.

Lemma awaiting_advance sh ms s :
  awaitingMicrophone sh (exec (advance ms) s) =
  exec (advance ms) (awaitingMicrophone sh s).
Proof. reflexivity. Qed.

Lemma settle_exact env img s :
  analyzeRecording_settle env img s =
  (Normal tt,
   upd_cmp
     (fun c =>
        with_isAnalyzing false
          (with_aiAnalysis
             match envAnalysis env img with
             | Fulfilled r => Some r
             | Rejected _ => aiAnalysis c
             end c))
     (upd_brw
        (fun b =>
           with_trace
             (trace b ++
              match envAnalysis env img with
              | Fulfilled _ => []
              | Rejected _ => [CallConsoleError "AI Analysis failed"]
              end) b) s)).
Proof.
  unfold analyzeRecording_settle, generateVideoAnalysis.
  split_named s. destruct (envAnalysis env img); js; rewrite ?app_nil_r; reflexivity.
Qed.

Lemma settle_render env img s :
  render (exec (analyzeRecording_settle env img) (render s)) =
  render (exec (analyzeRecording_settle env img) s).
Proof.
  unfold exec. rewrite !settle_exact. cbn [snd]. split_named s.
  unfold render. cbn [cmp status recordedData videoPreviewRef upd_cmp upd_brw
                      with_isAnalyzing with_aiAnalysis with_videoPreviewRef].
  destruct st, data, preview; reflexivity.
Qed.

Lemma settle_advance env img ms s :
  render (exec (analyzeRecording_settle env img) (render (exec (advance ms) s))) =
  render (exec (advance ms) (render (exec (analyzeRecording_settle env img) s))).
Proof.
  unfold exec. rewrite !settle_exact. cbn [snd]. split_named s.
  unfold render, advance, modify.
  cbn [snd cmp brw status recordedData videoPreviewRef upd_cmp upd_brw
       with_isAnalyzing with_aiAnalysis with_videoPreviewRef with_now with_trace].
  destruct st, data, preview; reflexivity.
Qed.

Lemma fires_Elapse env ms s :
  fires env (Elapse ms) s = (Normal None, exec (advance ms) s).
Proof. reflexivity. Qed.

Lemma handle_Elapse env ms s : handle env (Elapse ms) s = render (exec (advance ms) s).
Proof. reflexivity. Qed.

Lemma advance_idle ms s :
  Reached s -> status (cmp s) = IDLE ->
  Reached (exec (advance ms) s) /\ status (cmp (exec (advance ms) s)) = IDLE /\
  audioEnabled (cmp (exec (advance ms) s)) = audioEnabled (cmp s) /\
  forall sh, displayStreamAt sh (exec (advance ms) s) = displayStreamAt sh s.
Proof.
  intros Hr Hst. destruct (Reached_mounted s Hr Hst) as [v Hv].
  split.
  - rewrite <- (render_mounted (exec (advance ms) s) v);
      [apply (Reached_handle grantingEnv (Elapse ms)), Hr | exact Hv |].
    change (status (cmp (exec (advance ms) s))) with (status (cmp s)). congruence.
  - repeat split. exact Hst.
Qed.

Ltac only_elapse H :=
  match type of H with
  | unhurried (Fires ?ev) _ = true => destruct ev; try discriminate H
  end.

(** One occurrence of a run in which nothing overlaps. *)
Lemma Orderly_occur env o w :
  Orderly w -> unhurried o w = true -> Orderly (occur env o w).
Proof.
  intros Hw Hu. destruct Hw as [s Hr|s0 Hr Hst|s0 sh Hr Hst Ha|s img Hr].
  - destruct o as [ev|k]; [|destruct k; exact (orderly_settled Hr)].
    unfold occur. cbn [page parked app].
    destruct (fires_spec env (envAnalysis env) ev s) as (r & s1 & E & Hspec).
    rewrite E. cbn [fst snd spawned].
    destruct r as [[a|d|img]|].
    + destruct Hspec as (-> & Hst & -> & ->).
      destruct (Reached_mounted s Hr Hst) as [v Hv].
      rewrite (render_mounted _ v); [apply orderly_display; assumption | exact Hv |].
      change (status (cmp (snd (startCapture_begin s)))) with (status (cmp s)). congruence.
    + destruct Hspec.
    + assert (Hall : forall env',
        exec (analyzeRecording_settle env' img) s1 =
        exec (handler (withAnalysis (envAnalysis env') env) ev) s).
      { intros env'.
        destruct (fires_spec env (envAnalysis env') ev s) as (r' & s1' & E' & Hspec').
        rewrite E in E'. injection E' as <- <-. unfold exec. rewrite Hspec'. reflexivity. }
      destruct ev;
        try (apply orderly_analysis; intros env'; rewrite settle_render, Hall;
             match goal with |- Reached (render (exec (handler ?e ?ev) _)) =>
               apply (Reached_handle e ev), Hr
             end).
      exfalso. revert E. unfold fires, handler. mrun. rewrite cleanupResources_cleaned.
      mrun. discriminate.
    + assert (Hs1 : s1 = exec (handler (withAnalysis (envAnalysis env) env) ev) s)
        by (unfold exec; rewrite Hspec; reflexivity).
      subst s1.
      destruct ev; apply orderly_settled;
        match goal with |- Reached ?x =>
          match x with context [handler ?e ?ev] => apply (Reached_handle e ev), Hr end
        end.
  - destruct o as [ev|k].
    + only_elapse Hu. unfold occur. cbn [page parked]. rewrite fires_Elapse.
      cbn [fst snd spawned app].
      destruct (Reached_mounted s0 Hr Hst) as [v Hv].
      rewrite (render_mounted _ v); [| exact Hv |
        change (status (cmp (exec (advance ms) (snd (startCapture_begin s0)))))
          with (status (cmp s0)); congruence].
      destruct (advance_idle ms s0 Hr Hst) as (Hr' & Hst' & Ha' & _).
      rewrite <- begin_advance, <- Ha'. apply orderly_display; assumption.
    + destruct k as [|k]; [|destruct k; apply orderly_display; assumption].
      unfold occur. cbn [page parked nth_error resume unpark firstn skipn app].
      destruct (Reached_mounted s0 Hr Hst) as [v Hv].
      destruct (envDisplay env) as [sh|e] eqn:Hd;
        [destruct (audioEnabled (cmp s0)) eqn:Ha|].
      * rewrite (afterDisplay_parks env sh s0 Hd). cbn [fst snd spawned].
        rewrite (render_mounted _ v); [apply orderly_microphone; assumption | exact Hv |].
        change (status (cmp (awaitingMicrophone sh s0))) with (status (cmp s0)). congruence.
      * destruct (startCapture_through env s0 (or_introl Ha)) as (s2 & E & Hs2).
        rewrite Ha in E. rewrite E. cbn [fst snd spawned]. subst s2.
        rewrite <- (handle_ClickStart env s0 Hst).
        apply orderly_settled, Reached_handle, Hr.
      * destruct (startCapture_through env s0 (or_intror (ex_intro _ e Hd)))
          as (s2 & E & Hs2).
        rewrite E. cbn [fst snd spawned]. subst s2.
        rewrite <- (handle_ClickStart env s0 Hst).
        apply orderly_settled, Reached_handle, Hr.
  - destruct o as [ev|k].
    + only_elapse Hu. unfold occur. cbn [page parked]. rewrite fires_Elapse.
      cbn [fst snd spawned app].
      destruct (Reached_mounted s0 Hr Hst) as [v Hv].
      rewrite (render_mounted _ v); [| exact Hv |
        change (status (cmp (exec (advance ms) (awaitingMicrophone sh s0))))
          with (status (cmp s0)); congruence].
      destruct (advance_idle ms s0 Hr Hst) as (Hr' & Hst' & Ha' & Hd').
      rewrite <- awaiting_advance, <- (Hd' sh).
      apply orderly_microphone; congruence.
    + destruct k as [|k]; [|destruct k; apply orderly_microphone; assumption].
      unfold occur. cbn [page parked nth_error resume unpark firstn skipn app].
      destruct (startCapture_waits (withDisplay (Fulfilled sh) grantingEnv) env s0 sh
                  eq_refl Ha) as (d & s2 & E & Heq).
      rewrite (afterDisplay_parks (withDisplay (Fulfilled sh) grantingEnv) sh s0 eq_refl) in E.
      injection E as <- <-.
      replace (snd ((startCapture_afterMicrophone env (displayStreamAt sh s0) ;; ret None)
                      (awaitingMicrophone sh s0)))
        with (exec (startCapture_afterMicrophone env (displayStreamAt sh s0))
                (awaitingMicrophone sh s0)).
      2: { unfold exec, bind, ret.
           destruct (startCapture_afterMicrophone env _ _) as [[[]|] ?]; reflexivity. }
      replace (fst ((startCapture_afterMicrophone env (displayStreamAt sh s0) ;; ret None)
                      (awaitingMicrophone sh s0)))
        with (fst ((startCapture_afterMicrophone env (displayStreamAt sh s0) ;; ret (@None Task))
                      (awaitingMicrophone sh s0))) by reflexivity.
      assert (Hsp : spawned (fst ((startCapture_afterMicrophone env (displayStreamAt sh s0) ;;
                                   ret None) (awaitingMicrophone sh s0))) = []).
      { unfold bind, ret.
        destruct (startCapture_afterMicrophone env _ _) as [[[]|] ?]; reflexivity. }
      rewrite Hsp, <- Heq.
      rewrite <- (handle_ClickStart _ s0 Hst).
      apply orderly_settled, Reached_handle, Hr.
  - destruct o as [ev|k].
    + only_elapse Hu. unfold occur. cbn [page parked]. rewrite fires_Elapse.
      cbn [fst snd spawned app].
      apply orderly_analysis. intros env'. rewrite settle_advance.
      rewrite <- handle_Elapse with (env := grantingEnv). apply Reached_handle, Hr.
    + destruct k as [|k]; [|destruct k; apply orderly_analysis; assumption].
      unfold occur. cbn [page parked nth_error resume unpark firstn skipn app].
      unfold bind, ret. rewrite settle_exact. cbn [fst snd spawned].
      specialize (Hr env). unfold exec in Hr. rewrite settle_exact in Hr.
      apply orderly_settled, Hr.
Qed.

Lemma Orderly_play sched : forall w,
  Orderly w -> calm sched w = true -> Orderly (play sched w).
Proof.
  induction sched as [|[env o] rest IH]; intros w Hw Hc; [exact Hw|].
  cbn [calm] in Hc. apply andb_prop in Hc. destruct Hc as [Hu Hc].
  cbn [play]. apply IH; [apply Orderly_occur; assumption | exact Hc].
Qed.

(** A run in which nothing overlaps, taken at a point where no handler is
    waiting, is in a state the component reaches when every handler is run
    to completion in one step. *)
Lemma calm_Reached sched :
  calm sched boot = true -> parked (play sched boot) = [] ->
  Reached (page (play sched boot)).
Proof.
  intros Hc Hp.
  pose proof (Orderly_play sched boot (orderly_settled Reached_initial) Hc) as Ho.
  destruct Ho; try discriminate Hp. assumption.
Qed.
(** ** The cut component, event by event *)

Lemma render_apart s1 s2 :
  apartFromAnalysis s1 = apartFromAnalysis s2 ->
  apartFromAnalysis (render s1) = apartFromAnalysis (render s2).
Proof.
  split_named s1. split_named s2. unfold apartFromAnalysis, render.
  cbn [cmp brw status recordedData audioEnabled error recordingDuration
       mediaRecorderRef audioCtxRef chunksRef videoPreviewRef timerIntervalRef
       startTimeRef cleanupCallbackRef nextId now liveTracks onended openContexts
       audioNodes connections tempVideos activeIntervals].
  intros [= -> -> -> -> -> -> -> -> -> -> -> -> -> -> -> -> -> -> -> -> ->].
  destruct st0, data0, preview0; reflexivity.
Qed.

Lemma rest_of_apart env r s :
  apartFromAnalysis (snd (rest_of env r s)) = apartFromAnalysis s.
Proof.
  destruct r as [[a|d|img]|]; try reflexivity.
  unfold rest_of. rewrite settle_exact. reflexivity.
Qed.

Lemma settle_normal env img s :
  analyzeRecording_settle env img s =
  (Normal tt, exec (analyzeRecording_settle env img) s).
Proof. unfold exec. rewrite settle_exact. reflexivity. Qed.

(** An event that does not start a capture leaves the cut component where
    handling it in one step leaves it, up to what the analysis it may
    have started will write. *)
Lemma fires_apart env ev s :
  (ev = ClickStart -> status (cmp s) <> IDLE) ->
  apartFromAnalysis (page (occur env (Fires ev) {| page := s; parked := [] |})) =
  apartFromAnalysis (handle (withAnalysis (envAnalysis env) env) ev s).
Proof.
  intros Hev. unfold occur. cbn [page parked].
  destruct (fires_spec env (envAnalysis env) ev s) as (r & s1 & E & Hspec).
  rewrite E. cbn [snd].
  assert (Hh : apartFromAnalysis (exec (handler (withAnalysis (envAnalysis env) env) ev) s) =
               apartFromAnalysis s1).
  { destruct r as [[a|d|img]|].
    - destruct Hspec as (-> & Hst & _). destruct (Hev eq_refl Hst).
    - destruct Hspec.
    - unfold exec. rewrite Hspec. apply rest_of_apart.
    - unfold exec. rewrite Hspec. reflexivity. }
  unfold handle. destruct ev; try (apply render_apart; symmetry; exact Hh).
  symmetry. exact Hh.
Qed.

(** An event and the settling of what it waits for, with nothing in
    between, is the event handled in one step. *)
Lemma fires_settles env env' ev s :
  (ev = ClickStart -> status (cmp s) <> IDLE) ->
  play [(env, Fires ev); (env', Settles 0)] {| page := s; parked := [] |} =
  {| page := handle (withAnalysis (envAnalysis env') env) ev s; parked := [] |}.
Proof.
  intros Hev. cbn [play]. unfold occur at 2. cbn [page parked app].
  destruct (fires_spec env (envAnalysis env') ev s) as (r & s1 & E & Hspec).
  rewrite E. cbn [fst snd spawned].
  destruct r as [[a|d|img]|].
  - destruct Hspec as (-> & Hst & _). destruct (Hev eq_refl Hst).
  - destruct Hspec.
  - unfold occur. cbn [page parked nth_error resume unpark firstn skipn app].
    unfold bind, ret. rewrite settle_normal. cbn [fst snd spawned]. f_equal.
    assert (Hx : exec (handler (withAnalysis (envAnalysis env') env) ev) s =
                 exec (analyzeRecording_settle env' img) s1)
      by (unfold exec; rewrite Hspec; reflexivity).
    destruct ev; try (rewrite settle_render, <- Hx; reflexivity).
    exfalso. revert E. unfold fires, handler. mrun. rewrite cleanupResources_cleaned.
    mrun. discriminate.
  - unfold occur. cbn [page parked nth_error]. f_equal.
    assert (Hx : exec (handler (withAnalysis (envAnalysis env') env) ev) s = s1)
      by (unfold exec; rewrite Hspec; reflexivity).
    unfold handle. rewrite Hx. destruct ev; reflexivity.
Qed.

Lemma settled_run sched :
  parked (play sched boot) = [] ->
  play sched boot = {| page := page (play sched boot); parked := [] |}.
Proof. destruct (play sched boot) as [p ts]. cbn. intros ->. reflexivity. Qed.
(** ** Every state reached in one-step handling is reached by the cut component *)

Lemma play_app a : forall b w, play (a ++ b) w = play b (play a w).
Proof.
  induction a as [|[env o] rest IH]; intros b w; [reflexivity|].
  cbn [app play]. apply IH.
Qed.

Lemma calm_app a : forall b w, calm (a ++ b) w = calm a w && calm b (play a w).
Proof.
  induction a as [|[env o] rest IH]; intros b w; [reflexivity|].
  cbn [app calm play]. rewrite IH, andb_assoc. reflexivity.
Qed.

Lemma handle_withAnalysis env ev s :
  handle (withAnalysis (envAnalysis env) env) ev s = handle env ev s.
Proof. destruct ev; reflexivity. Qed.

Lemma start_played env s :
  Reached s -> status (cmp s) = IDLE ->
  calm [(env, Fires ClickStart); (env, Settles 0); (env, Settles 0)]
       {| page := s; parked := [] |} = true /\
  play [(env, Fires ClickStart); (env, Settles 0); (env, Settles 0)]
       {| page := s; parked := [] |} =
  {| page := handle env ClickStart s; parked := [] |}.
Proof.
  intros Hr Hst. split; [reflexivity|].
  destruct (Reached_mounted s Hr Hst) as [v Hv].
  cbn [play]. unfold occur at 3. cbn [page parked app].
  unfold fires. mrun. rewrite Hst. cbn [isStatus]. mrun. rewrite begin_exact.
  cbn [fst snd spawned].
  rewrite (render_mounted _ v);
    [| exact Hv | change (status (cmp (snd (startCapture_begin s)))) with (status (cmp s));
                  congruence].
  unfold occur at 2. cbn [page parked nth_error resume unpark firstn skipn app].
  destruct (envDisplay env) as [sh|e] eqn:Hd; [destruct (audioEnabled (cmp s)) eqn:Ha|].
  - rewrite (afterDisplay_parks env sh s Hd). cbn [fst snd spawned].
    rewrite (render_mounted _ v);
      [| exact Hv | change (status (cmp (awaitingMicrophone sh s))) with (status (cmp s));
                    congruence].
    unfold occur. cbn [page parked nth_error resume unpark firstn skipn app].
    destruct (startCapture_waits env env s sh Hd Ha) as (d & s2 & E & Heq).
    rewrite (afterDisplay_parks env sh s Hd) in E. injection E as <- <-.
    change (startCapture (withDisplay (envDisplay env) env)) with (startCapture env) in Heq.
    unfold bind, ret.
    destruct (startCapture_afterMicrophone env (displayStreamAt sh s)
                (awaitingMicrophone sh s)) as [[[]|e] s3] eqn:E3;
      unfold exec in Heq; rewrite E3 in Heq; cbn [fst snd spawned] in *; subst s3;
      rewrite (handle_ClickStart env s Hst); reflexivity.
  - destruct (startCapture_through env s (or_introl Ha)) as (s2 & E & Hs2).
    rewrite Ha in E. rewrite E. cbn [fst snd spawned]. subst s2.
    unfold occur. cbn [page parked nth_error].
    rewrite (handle_ClickStart env s Hst). reflexivity.
  - destruct (startCapture_through env s (or_intror (ex_intro _ e Hd))) as (s2 & E & Hs2).
    rewrite E. cbn [fst snd spawned]. subst s2.
    unfold occur. cbn [page parked nth_error].
    rewrite (handle_ClickStart env s Hst). reflexivity.
Qed.

Lemma event_played env ev s :
  Reached s ->
  exists steps,
    calm steps {| page := s; parked := [] |} = true /\
    play steps {| page := s; parked := [] |} =
    {| page := handle env ev s; parked := [] |}.
Proof.
  intros Hr.
  assert (Hother : (ev = ClickStart -> status (cmp s) <> IDLE) ->
    exists steps,
      calm steps {| page := s; parked := [] |} = true /\
      play steps {| page := s; parked := [] |} =
      {| page := handle env ev s; parked := [] |}).
  { intros Hev. exists [(env, Fires ev); (env, Settles 0)]. split.
    - cbn [calm unhurried parked]. destruct ev; reflexivity.
    - rewrite (fires_settles env env ev s Hev). rewrite handle_withAnalysis. reflexivity. }
  destruct ev; try (apply Hother; discriminate).
  destruct (status (cmp s)) eqn:Hst; try (apply Hother; intros _; discriminate).
  exists [(env, Fires ClickStart); (env, Settles 0); (env, Settles 0)].
  apply start_played; assumption.
Qed.

(** The states reached when every handler runs to completion in one step
    are the states the cut component reaches in the runs where nothing
    overlaps, at the points where no handler is waiting. *)
Theorem Reached_played s :
  Reached s <->
  exists sched,
    calm sched boot = true /\ play sched boot = {| page := s; parked := [] |}.
Proof.
  split.
  - intros [evs ->]. induction evs as [|[env ev] rest IH] using rev_ind.
    + exists []. split; reflexivity.
    + destruct IH as (sched & Hc & Hp).
      destruct (event_played env ev (run rest initial) (ex_intro _ rest eq_refl))
        as (steps & Hc' & Hp').
      exists (sched ++ steps). rewrite calm_app, play_app, Hc, Hp, Hc', Hp', run_app.
      split; reflexivity.
  - intros (sched & Hc & Hp).
    assert (Hparked : parked (play sched boot) = []) by (rewrite Hp; reflexivity).
    pose proof (calm_Reached sched Hc Hparked) as Hr. rewrite Hp in Hr. exact Hr.
Qed.
(** ** What holds when nothing overlaps

    The statements below are about runs of the cut component in which
    nothing but the passing of time happens while a handler waits
    ([calm]), taken at a point where no handler is waiting.  The two
    lemmas that come first show that the proviso is needed. *)

(** A second start while the first one waits: the run ends in REVIEW
    with an error on the screen and the display tracks live. *)
Lemma overlap_breaks_the_status_logic :
  calm overlappingSession boot = false /\
  parked (play overlappingSession boot) = [] /\
  status (cmp (page (play overlappingSession boot))) = REVIEW /\
  error (cmp (page (play overlappingSession boot))) = Some DENIED_MESSAGE /\
  liveTracks (brw (page (play overlappingSession boot))) = [1; 2].
Proof. vm_compute. repeat split. Qed.

(** [onstop] does not wait for [analyzeRecording]: when "New Recording"
    is clicked before the service answers, the answer lands in the
    analysis slot of an idle component. *)
Lemma late_analysis_lands_in_idle :
  calm lateAnalysis boot = false /\
  parked (play lateAnalysis boot) = [] /\
  status (cmp (page (play lateAnalysis boot))) = IDLE /\
  aiAnalysis (cmp (page (play lateAnalysis boot))) = Some sampleAnalysis.
Proof. vm_compute. repeat split. Qed.

Lemma Reached_facts s :
  Reached s ->
  Sound s /\ Consistent s /\
  (status (cmp s) = REVIEW <-> videoPreviewRef (cmp s) = None).
Proof.
  intros Hr. destruct (Reached_Coherent s Hr) as [Hc Hp].
  split; [apply Reached_Sound, Hr|]. split; assumption.
Qed.

(** An error is shown only while the component is idle. *)
Theorem error_only_while_idle sched :
  calm sched boot = true -> parked (play sched boot) = [] ->
  error (cmp (page (play sched boot))) <> None ->
  status (cmp (page (play sched boot))) = IDLE.
Proof.
  intros Hcalm Hp.
  destruct (Reached_facts _ (calm_Reached sched Hcalm Hp)) as (_ & Hc & _). apply Hc.
Qed.

Lemma error_only_while_idle_witness :
  calm refusedStart boot = true /\
  parked (play refusedStart boot) = [] /\
  error (cmp (page (play refusedStart boot))) <> None /\
  status (cmp (page (play refusedStart boot))) = IDLE.
Proof.
  assert (H1 : calm refusedStart boot = true) by (vm_compute; reflexivity).
  assert (H2 : parked (play refusedStart boot) = []) by (vm_compute; reflexivity).
  assert (H3 : error (cmp (page (play refusedStart boot))) <> None)
    by (vm_compute; discriminate).
  split; [exact H1|]. split; [exact H2|]. split; [exact H3|].
  exact (error_only_while_idle refusedStart H1 H2 H3).
Defined.

(** The status is REVIEW exactly when there is a recording, so the tests
    of [recordedData] in the render function, in the retry button and at
    the head of [downloadVideo] never fail where they are reached.  The
    recording's MIME type is one of [SUPPORTED_MIME_TYPES] and is the type
    of its blob; the playback element replaces the preview exactly then. *)
Theorem review_holds_a_recording sched :
  calm sched boot = true -> parked (play sched boot) = [] ->
  (status (cmp (page (play sched boot))) = REVIEW <->
   recordedData (cmp (page (play sched boot))) <> None) /\
  (status (cmp (page (play sched boot))) = REVIEW <->
   videoPreviewRef (cmp (page (play sched boot))) = None) /\
  (forall md,
     recordedData (cmp (page (play sched boot))) = Some md ->
     In (mimeType md) SUPPORTED_MIME_TYPES /\
     blobType (blob md) = mimeType md).
Proof.
  intros Hcalm Hp.
  destruct (Reached_facts _ (calm_Reached sched Hcalm Hp)) as (_ & Hc & Hprev).
  split; [apply Hc|]. split; [exact Hprev|]. apply Hc.
Qed.

Lemma review_holds_a_recording_witness :
  calm analysedRun boot = true /\
  parked (play analysedRun boot) = [] /\
  (status (cmp (page (play analysedRun boot))) = REVIEW <->
   recordedData (cmp (page (play analysedRun boot))) <> None).
Proof.
  assert (H1 : calm analysedRun boot = true) by (vm_compute; reflexivity).
  assert (H2 : parked (play analysedRun boot) = []) by (vm_compute; reflexivity).
  split; [exact H1|]. split; [exact H2|].
  exact (proj1 (review_holds_a_recording analysedRun H1 H2)).
Defined.

(** An analysis is present only in REVIEW. *)
Theorem analysis_only_in_review sched :
  calm sched boot = true -> parked (play sched boot) = [] ->
  aiAnalysis (cmp (page (play sched boot))) <> None ->
  status (cmp (page (play sched boot))) = REVIEW.
Proof.
  intros Hcalm Hp.
  destruct (Reached_facts _ (calm_Reached sched Hcalm Hp)) as (_ & Hc & _). apply Hc.
Qed.

Lemma analysis_only_in_review_witness :
  calm analysedRun boot = true /\
  parked (play analysedRun boot) = [] /\
  aiAnalysis (cmp (page (play analysedRun boot))) <> None /\
  status (cmp (page (play analysedRun boot))) = REVIEW.
Proof.
  assert (H1 : calm analysedRun boot = true) by (vm_compute; reflexivity).
  assert (H2 : parked (play analysedRun boot) = []) by (vm_compute; reflexivity).
  assert (H3 : aiAnalysis (cmp (page (play analysedRun boot))) <> None)
    by (vm_compute; discriminate).
  split; [exact H1|]. split; [exact H2|]. split; [exact H3|].
  exact (analysis_only_in_review analysedRun H1 H2 H3).
Defined.

(** The running timers are exactly the one held in [timerIntervalRef],
    whose handle is positive, and there is none outside RECORDING. *)
Theorem one_timer_while_recording sched :
  calm sched boot = true -> parked (play sched boot) = [] ->
  activeIntervals (brw (page (play sched boot))) =
    match timerIntervalRef (cmp (page (play sched boot))) with
    | Some id => [id]
    | None => []
    end /\
  timerIntervalRef (cmp (page (play sched boot))) <> Some 0 /\
  (isStatus (status (cmp (page (play sched boot)))) RECORDING = false ->
   activeIntervals (brw (page (play sched boot))) = []).
Proof.
  intros Hcalm Hp.
  destruct (Reached_facts _ (calm_Reached sched Hcalm Hp)) as (_ & Hc & _).
  pose proof (coh_timer Hc) as Ht.
  destruct (timerIntervalRef (cmp (page (play sched boot)))) as [id|].
  - destruct Ht as (Hrec & Hpos & Hint). split; [exact Hint|].
    split; [intros [= ->]; lia|]. rewrite Hrec. discriminate.
  - split; [exact Ht|]. split; [discriminate | intros _; exact Ht].
Qed.

Lemma one_timer_while_recording_witness :
  calm grantedStart boot = true /\
  parked (play grantedStart boot) = [] /\
  activeIntervals (brw (page (play grantedStart boot))) =
    match timerIntervalRef (cmp (page (play grantedStart boot))) with
    | Some id => [id]
    | None => []
    end.
Proof.
  assert (H1 : calm grantedStart boot = true) by (vm_compute; reflexivity).
  assert (H2 : parked (play grantedStart boot) = []) by (vm_compute; reflexivity).
  split; [exact H1|]. split; [exact H2|].
  exact (proj1 (one_timer_while_recording grantedStart H1 H2)).
Defined.

Lemma stop_step env s :
  Reached s -> status (cmp s) = RECORDING ->
  (exists r, mediaRecorderRef (cmp s) = Some r /\ recState r = Recording) /\
  status (cmp (handle env ClickStop s)) = REVIEW /\
  recordedData (cmp (handle env ClickStop s)) <> None /\
  error (cmp (handle env ClickStop s)) = None /\
  liveTracks (brw (handle env ClickStop s)) = [] /\
  openContexts (brw (handle env ClickStop s)) = [] /\
  activeIntervals (brw (handle env ClickStop s)) = [].
Proof.
  intros Hr Hrec.
  destruct (Reached_facts _ (Reached_handle env ClickStop s Hr)) as (Hs & Hc & _).
  destruct (Reached_facts _ Hr) as (_ & Hc0 & _).
  pose proof (proj1 (coh_recording Hc0) Hrec) as (r & Hrr & Hstate).
  split; [eauto|].
  assert (Hact : recState r <> Inactive) by congruence.
  destruct (stopRecording_slots env s r Hrr Hact)
    as (s' & Heq & B1 & (md & B2 & _) & _).
  assert (Hst : status (cmp (handle env ClickStop s)) = REVIEW).
  { rewrite (handle_ClickStop_recording env _ Hrec).
    destruct (render_frame (exec (stopRecording env) s)) as (_ & _ & _ & -> & _).
    unfold exec. rewrite Heq. exact B1. }
  split; [exact Hst|].
  split; [apply (coh_review Hc), Hst|].
  split.
  { destruct (error (cmp (handle env ClickStop s))) eqn:E; [|reflexivity].
    assert (status (cmp (handle env ClickStop s)) = IDLE)
      by (apply (coh_error Hc); congruence).
    congruence. }
  assert (Hnot : status (cmp (handle env ClickStop s)) <> RECORDING) by congruence.
  destruct (Sound_idle _ Hs Hnot) as (_ & _ & Hlive & Hopen).
  split; [exact Hlive|]. split; [exact Hopen|].
  apply (Consistent_no_timer _ Hc Hnot).
Qed.

(** While the status is RECORDING the recorder is recording, so the Stop
    button always has a recorder to stop: whatever the browser answers,
    the click ends in REVIEW with a recording and no error, and leaves no
    live capture track, no open audio context and no running timer. *)
Theorem stop_always_ends_in_review sched env :
  calm sched boot = true -> parked (play sched boot) = [] ->
  status (cmp (page (play sched boot))) = RECORDING ->
  (exists r, mediaRecorderRef (cmp (page (play sched boot))) = Some r /\
             recState r = Recording) /\
  status (cmp (page (occur env (Fires ClickStop) (play sched boot)))) = REVIEW /\
  recordedData (cmp (page (occur env (Fires ClickStop) (play sched boot)))) <> None /\
  error (cmp (page (occur env (Fires ClickStop) (play sched boot)))) = None /\
  liveTracks (brw (page (occur env (Fires ClickStop) (play sched boot)))) = [] /\
  openContexts (brw (page (occur env (Fires ClickStop) (play sched boot)))) = [] /\
  activeIntervals (brw (page (occur env (Fires ClickStop) (play sched boot)))) = [].
Proof.
  intros Hcalm Hp Hrec. pose proof (calm_Reached sched Hcalm Hp) as Hr.
  rewrite (settled_run sched Hp). cbn [page] in *.
  set (s := page (play sched boot)) in *.
  destruct (stop_step (withAnalysis (envAnalysis env) env) s Hr Hrec)
    as (H0 & H1 & H2 & H3 & H4 & H5 & H6).
  split; [exact H0|].
  assert (Hview := fires_apart env ClickStop s ltac:(discriminate)).
  set (p := page (occur env (Fires ClickStop) {| page := s; parked := [] |})) in *.
  unfold apartFromAnalysis in Hview.
  injection Hview as -> -> _ -> _ _ _ _ _ _ _ _ _ _ -> _ -> _ _ _ ->.
  repeat split; assumption.
Qed.

Lemma stop_always_ends_in_review_witness :
  calm grantedStart boot = true /\
  parked (play grantedStart boot) = [] /\
  status (cmp (page (play grantedStart boot))) = RECORDING /\
  status (cmp (page (occur grantingEnv (Fires ClickStop) (play grantedStart boot)))) = REVIEW.
Proof.
  assert (H1 : calm grantedStart boot = true) by (vm_compute; reflexivity).
  assert (H2 : parked (play grantedStart boot) = []) by (vm_compute; reflexivity).
  assert (H3 : status (cmp (page (play grantedStart boot))) = RECORDING)
    by (vm_compute; reflexivity).
  split; [exact H1|]. split; [exact H2|]. split; [exact H3|].
  exact (proj1 (proj2 (stop_always_ends_in_review grantedStart grantingEnv H1 H2 H3))).
Defined.

(** Unmounting the component stops every capture track, closes the audio
    context and clears the timer: nothing the component acquired outlives
    it. *)
Theorem unmount_releases_everything sched env :
  calm sched boot = true -> parked (play sched boot) = [] ->
  liveTracks (brw (page (occur env (Fires Unmount) (play sched boot)))) = [] /\
  openContexts (brw (page (occur env (Fires Unmount) (play sched boot)))) = [] /\
  activeIntervals (brw (page (occur env (Fires Unmount) (play sched boot)))) = [] /\
  registry (page (occur env (Fires Unmount) (play sched boot))) = [] /\
  audioCtxRef (cmp (page (occur env (Fires Unmount) (play sched boot)))) = None /\
  timerIntervalRef (cmp (page (occur env (Fires Unmount) (play sched boot)))) = None.
Proof.
  intros Hcalm Hp.
  destruct (Reached_facts _ (calm_Reached sched Hcalm Hp)) as (Hs & Hc & _).
  unfold occur, fires, handler. mrun. rewrite cleanupResources_cleaned. cbn [fst snd page].
  destruct (cleaned_holds_nothing _ Hs) as [H1 H2].
  destruct (Consistent_timer _ Hc) as [T1 T2].
  destruct (cleaned_Released (page (play sched boot))) as (R1 & R2 & _).
  repeat split; assumption.
Qed.

Lemma unmount_releases_everything_witness :
  calm grantedStart boot = true /\
  parked (play grantedStart boot) = [] /\
  liveTracks (brw (page (play grantedStart boot))) <> [] /\
  liveTracks (brw (page (occur grantingEnv (Fires Unmount) (play grantedStart boot)))) = [].
Proof.
  assert (H1 : calm grantedStart boot = true) by (vm_compute; reflexivity).
  assert (H2 : parked (play grantedStart boot) = []) by (vm_compute; reflexivity).
  split; [exact H1|]. split; [exact H2|]. split; [vm_compute; discriminate|].
  exact (proj1 (unmount_releases_everything grantedStart grantingEnv H1 H2)).
Defined.

Lemma stop_preview_step env s :
  Reached s -> status (cmp s) = RECORDING -> registry s <> [] ->
  tempVideos (brw (handle env ClickStop s)) = tempVideos (brw s) /\
  now (brw (handle env ClickStop s)) = now (brw s).
Proof.
  intros Hr Hrec Hreg.
  destruct (Reached_facts _ Hr) as (_ & Hc & _).
  destruct (coh_bound Hc Hrec Hreg) as (r & Hrr & Hp).
  destruct (coh_recorder Hc Hrr) as [Hnp _].
  pose proof (proj1 (coh_recording Hc) Hrec) as (r' & Hr' & Hstate).
  rewrite Hrr in Hr'. injection Hr' as <-.
  assert (Hact : recState r <> Inactive) by congruence.
  destruct (stopRecording_slots env s r Hrr Hact)
    as (s' & Heq & _ & _ & _ & _ & _ & _ & _ & _ & _ & _ & _ & Hb).
  rewrite Hp in Hb. destruct (Hb (boundTo_same _)) as [Hnow Htemp].
  rewrite (handle_ClickStop_recording env _ Hrec).
  destruct (render_frame (exec (stopRecording env) s))
    as (_ & _ & _ & _ & _ & _ & _ & ->).
  unfold exec. rewrite Heq. cbn [snd]. split; assumption.
Qed.

(** While a recording holds its capture, the preview element shows the
    recorded stream, so stopping reads the snapshot from the preview: the
    Stop click creates no temporary video element and does not wait. *)
Theorem stop_reads_the_preview sched env :
  calm sched boot = true -> parked (play sched boot) = [] ->
  status (cmp (page (play sched boot))) = RECORDING ->
  registry (page (play sched boot)) <> [] ->
  tempVideos (brw (page (occur env (Fires ClickStop) (play sched boot)))) =
    tempVideos (brw (page (play sched boot))) /\
  now (brw (page (occur env (Fires ClickStop) (play sched boot)))) =
    now (brw (page (play sched boot))).
Proof.
  intros Hcalm Hp Hrec Hreg. pose proof (calm_Reached sched Hcalm Hp) as Hr.
  rewrite (settled_run sched Hp). cbn [page] in *.
  set (s := page (play sched boot)) in *.
  destruct (stop_preview_step (withAnalysis (envAnalysis env) env) s Hr Hrec Hreg)
    as [H1 H2].
  assert (Hview := fires_apart env ClickStop s ltac:(discriminate)).
  set (p := page (occur env (Fires ClickStop) {| page := s; parked := [] |})) in *.
  unfold apartFromAnalysis in Hview.
  injection Hview as _ _ _ _ _ _ _ _ _ _ _ _ _ -> _ _ _ _ _ -> _.
  split; assumption.
Qed.

Lemma stop_reads_the_preview_witness :
  calm grantedStart boot = true /\
  parked (play grantedStart boot) = [] /\
  status (cmp (page (play grantedStart boot))) = RECORDING /\
  registry (page (play grantedStart boot)) <> [] /\
  tempVideos (brw (page (occur grantingEnv (Fires ClickStop) (play grantedStart boot)))) =
    tempVideos (brw (page (play grantedStart boot))).
Proof.
  assert (H1 : calm grantedStart boot = true) by (vm_compute; reflexivity).
  assert (H2 : parked (play grantedStart boot) = []) by (vm_compute; reflexivity).
  assert (H3 : status (cmp (page (play grantedStart boot))) = RECORDING)
    by (vm_compute; reflexivity).
  assert (H4 : registry (page (play grantedStart boot)) <> [])
    by (vm_compute; discriminate).
  split; [exact H1|]. split; [exact H2|]. split; [exact H3|]. split; [exact H4|].
  exact (proj1 (stop_reads_the_preview grantedStart grantingEnv H1 H2 H3 H4)).
Defined.

(** "New Recording" brings the component back to its initial state, with
    the preview mounted again and nothing held.  Only the microphone
    choice survives, and three cells that the next start overwrites: the
    finished recorder, its chunks and the start time. *)
Theorem new_recording_restores_the_initial_state sched env :
  calm sched boot = true -> parked (play sched boot) = [] ->
  status (cmp (page (play sched boot))) = REVIEW ->
  cmp (page (occur env (Fires ClickNewRecording) (play sched boot))) =
  with_audioEnabled (audioEnabled (cmp (page (play sched boot))))
    (with_mediaRecorderRef (mediaRecorderRef (cmp (page (play sched boot))))
       (with_chunksRef (chunksRef (cmp (page (play sched boot))))
          (with_startTimeRef (startTimeRef (cmp (page (play sched boot))))
             initialComponent))).
Proof.
  intros Hcalm Hp Hrev.
  destruct (Reached_facts _ (calm_Reached sched Hcalm Hp)) as (Hs & Hc & Hprev).
  assert (Hnot : status (cmp (page (play sched boot))) <> RECORDING) by congruence.
  destruct (Sound_idle _ Hs Hnot) as (Hreg & Hctx & _ & _).
  destruct (Consistent_no_timer _ Hc Hnot) as [Htimer _].
  pose proof (coh_analyzing Hc) as Han.
  pose proof (proj1 Hprev Hrev) as Hpreview.
  unfold occur, fires, handler. mrun. rewrite Hrev. cbn [isStatus].
  unfold reset. mrun. rewrite cleanupResources_cleaned. mrun. cbn [page].
  revert Hreg Hctx Htimer Han Hpreview. unfold registry.
  generalize (page (play sched boot)). intros s. split_named s.
  cbn [cmp cleanupCallbackRef audioCtxRef timerIntervalRef isAnalyzing videoPreviewRef].
  intros -> -> -> -> ->. reflexivity.
Qed.

Lemma new_recording_restores_the_initial_state_witness :
  calm analysedRun boot = true /\
  parked (play analysedRun boot) = [] /\
  status (cmp (page (play analysedRun boot))) = REVIEW /\
  status (cmp (page (occur grantingEnv (Fires ClickNewRecording) (play analysedRun boot)))) =
    IDLE.
Proof.
  assert (H1 : calm analysedRun boot = true) by (vm_compute; reflexivity).
  assert (H2 : parked (play analysedRun boot) = []) by (vm_compute; reflexivity).
  assert (H3 : status (cmp (page (play analysedRun boot))) = REVIEW)
    by (vm_compute; reflexivity).
  split; [exact H1|]. split; [exact H2|]. split; [exact H3|].
  rewrite (new_recording_restores_the_initial_state analysedRun grantingEnv H1 H2 H3).
  reflexivity.
Defined.

(** Outside RECORDING the component holds nothing: no capture track is
    live, no audio context is open, no timer runs, and the cleanup list,
    the audio-context slot and the timer cell are empty. *)
Theorem nothing_held_outside_recording sched :
  calm sched boot = true -> parked (play sched boot) = [] ->
  status (cmp (page (play sched boot))) <> RECORDING ->
  liveTracks (brw (page (play sched boot))) = [] /\
  openContexts (brw (page (play sched boot))) = [] /\
  activeIntervals (brw (page (play sched boot))) = [] /\
  registry (page (play sched boot)) = [] /\
  audioCtxRef (cmp (page (play sched boot))) = None /\
  timerIntervalRef (cmp (page (play sched boot))) = None.
Proof.
  intros Hcalm Hp Hnot.
  destruct (Reached_facts _ (calm_Reached sched Hcalm Hp)) as (Hs & Hc & _).
  destruct (Sound_idle _ Hs Hnot) as (Hreg & Hctx & Hlive & Hopen).
  destruct (Consistent_no_timer _ Hc Hnot) as [Htimer Hint].
  repeat split; assumption.
Qed.

Lemma nothing_held_outside_recording_witness :
  calm analysedRun boot = true /\
  parked (play analysedRun boot) = [] /\
  status (cmp (page (play analysedRun boot))) <> RECORDING /\
  liveTracks (brw (page (play analysedRun boot))) = [].
Proof.
  assert (H1 : calm analysedRun boot = true) by (vm_compute; reflexivity).
  assert (H2 : parked (play analysedRun boot) = []) by (vm_compute; reflexivity).
  assert (H3 : status (cmp (page (play analysedRun boot))) <> RECORDING)
    by (vm_compute; discriminate).
  split; [exact H1|]. split; [exact H2|]. split; [exact H3|].
  exact (proj1 (nothing_held_outside_recording analysedRun H1 H2 H3)).
Defined.
Lemma missing_key_step env be s :
  Reached s -> status (cmp s) = RECORDING ->
  GeminiService.keyMissing be ->
  envAnalysis env = GeminiService.answer be ->
  status (cmp (handle env ClickStop s)) = REVIEW /\
  recordedData (cmp (handle env ClickStop s)) <> None /\
  aiAnalysis (cmp (handle env ClickStop s)) = None /\
  isAnalyzing (cmp (handle env ClickStop s)) = false /\
  error (cmp (handle env ClickStop s)) = None.
Proof.
  intros Hr Hrec Hkey Hsvc.
  destruct (Reached_facts _ (Reached_handle env ClickStop s Hr)) as (_ & Hc & _).
  destruct (Reached_facts _ Hr) as (_ & Hc0 & _).
  pose proof (proj1 (coh_recording Hc0) Hrec) as (r & Hrr & Hstate).
  assert (Hact : recState r <> Inactive) by congruence.
  destruct (stopRecording_slots env s r Hrr Hact)
    as (s' & Heq & B1 & _ & _ & _ & _ & _ & _ & _ & _ & B9 & _).
  assert (Hrender : handle env ClickStop s = render s').
  { rewrite (handle_ClickStop_recording env _ Hrec). unfold exec. rewrite Heq. reflexivity. }
  assert (Hst : status (cmp (handle env ClickStop s)) = REVIEW).
  { rewrite Hrender. destruct (render_frame s') as (_ & _ & _ & -> & _). exact B1. }
  split; [exact Hst|]. split; [apply (coh_review Hc), Hst|].
  split.
  { rewrite Hrender, render_preview. cbn [upd_cmp cmp with_videoPreviewRef aiAnalysis].
    destruct B9 as [[-> _]|[_ (img & ->)]].
    - destruct (aiAnalysis (cmp s)) eqn:E; [|reflexivity].
      assert (status (cmp s) = REVIEW) by (apply (coh_analysis Hc0); congruence).
      congruence.
    - rewrite Hsvc, (answer_without_key be img Hkey). reflexivity. }
  split; [apply (coh_analyzing Hc)|].
  destruct (error (cmp (handle env ClickStop s))) eqn:E; [|reflexivity].
  assert (status (cmp (handle env ClickStop s)) = IDLE)
    by (apply (coh_error Hc); congruence).
  congruence.
Qed.

(** A deployment without API key still records: once the request for an
    analysis has failed, the stopped recording is in REVIEW with no
    analysis, the spinner off and no error shown, so the missing key is
    never brought to the user. *)
Theorem missing_key_is_never_shown sched env env' be :
  calm sched boot = true -> parked (play sched boot) = [] ->
  status (cmp (page (play sched boot))) = RECORDING ->
  GeminiService.keyMissing be ->
  envAnalysis env' = GeminiService.answer be ->
  parked (play [(env, Fires ClickStop); (env', Settles 0)] (play sched boot)) = [] /\
  status (cmp (page (play [(env, Fires ClickStop); (env', Settles 0)] (play sched boot)))) =
    REVIEW /\
  recordedData
    (cmp (page (play [(env, Fires ClickStop); (env', Settles 0)] (play sched boot)))) <>
    None /\
  aiAnalysis
    (cmp (page (play [(env, Fires ClickStop); (env', Settles 0)] (play sched boot)))) =
    None /\
  isAnalyzing
    (cmp (page (play [(env, Fires ClickStop); (env', Settles 0)] (play sched boot)))) =
    false /\
  error (cmp (page (play [(env, Fires ClickStop); (env', Settles 0)] (play sched boot)))) =
    None.
Proof.
  intros Hcalm Hp Hrec Hkey Hsvc. pose proof (calm_Reached sched Hcalm Hp) as Hr.
  rewrite (settled_run sched Hp).
  rewrite (fires_settles env env' ClickStop _ ltac:(discriminate)). cbn [page parked].
  split; [reflexivity|].
  apply (missing_key_step _ be); try assumption.
Qed.

Lemma missing_key_is_never_shown_witness :
  calm grantedStart boot = true /\
  parked (play grantedStart boot) = [] /\
  status (cmp (page (play grantedStart boot))) = RECORDING /\
  GeminiService.keyMissing GeminiService.noKey /\
  envAnalysis keylessEnv = GeminiService.answer GeminiService.noKey /\
  error (cmp (page (play keylessStop (play grantedStart boot)))) = None.
Proof.
  assert (H1 : calm grantedStart boot = true) by (vm_compute; reflexivity).
  assert (H2 : parked (play grantedStart boot) = []) by (vm_compute; reflexivity).
  assert (H3 : status (cmp (page (play grantedStart boot))) = RECORDING)
    by (vm_compute; reflexivity).
  assert (H4 : GeminiService.keyMissing GeminiService.noKey) by (left; reflexivity).
  split; [exact H1|]. split; [exact H2|]. split; [exact H3|]. split; [exact H4|].
  split; [reflexivity|].
  apply (missing_key_is_never_shown grantedStart keylessEnv keylessEnv
           GeminiService.noKey H1 H2 H3 H4 eq_refl).
Defined.
